(** * AnyBM zone generator (zone.py): selection, naming and table writers

    A shallow embedding of [zone.py].  Python [str] values are modelled as
    [string] (sequences of 8-bit characters, read as ASCII text), Python
    [int] values as [Z], JSON values that the script converts with [str()]
    or [int()] as [pyval], dictionaries as records or [gmap], and an
    uncaught exception as the [Raise] branch of [result]. *)

From Stdlib Require Import ZArith QArith Ascii String DecimalString DecimalZ Lia.
From stdpp Require Import base option list sorting gmap strings.

Local Open Scope Z_scope.

(** ** Python built-ins used by the script *)

Module Py.

Inductive exn : Type :=
  | KeyError | IndexError | AttributeError | TypeError | ValueError.

Inductive result (A : Type) : Type :=
  | Ok (a : A)
  | Raise (e : exn).
Arguments Ok {A} a.
Arguments Raise {A} e.

Definition bind {A B} (m : result A) (k : A -> result B) : result B :=
  match m with
  | Ok a => k a
  | Raise e => Raise e
  end.

Notation "'let*' x ':=' m 'in' k" := (bind m (fun x => k))
  (at level 10, x name, m at level 100, k at level 200).

Fixpoint mapM {A B} (f : A -> result B) (l : list A) : result (list B) :=
  match l with
  | [] => Ok []
  | x :: r => let* y := f x in let* ys := mapM f r in Ok (y :: ys)
  end.

Fixpoint foldM {A S} (f : S -> A -> result S) (l : list A) (s : S) : result S :=
  match l with
  | [] => Ok s
  | x :: r => let* s' := f s x in foldM f r s'
  end.

(** A JSON scalar as the script receives it: [null], a number or a string. *)
Inductive pyval : Type :=
  | PNone
  | PInt (z : Z)
  | PStr (s : string).

(** [len(s)] *)
Definition len (s : string) : Z := Z.of_nat (String.length s).

(** [str(z)] for an integer. *)
Definition str_of_Z (z : Z) : string := NilZero.string_of_int (Z.to_int z).

(** [str(v)] *)
Definition str (v : pyval) : string :=
  match v with
  | PNone => "None"
  | PInt z => str_of_Z z
  | PStr s => s
  end.

Definition nat_of (c : ascii) : nat := nat_of_ascii c.

(** [c.isspace()] on ASCII. *)
Definition isspace (c : ascii) : bool :=
  ((9 <=? nat_of c)%nat && (nat_of c <=? 13)%nat)
  || ((28 <=? nat_of c)%nat && (nat_of c <=? 32)%nat).

(** [c.isdigit()] on ASCII. *)
Definition isdigit_char (c : ascii) : bool :=
  (48 <=? nat_of c)%nat && (nat_of c <=? 57)%nat.

Fixpoint all_chars (p : ascii -> bool) (s : string) : bool :=
  match s with
  | EmptyString => true
  | String c r => p c && all_chars p r
  end.

(** [s.isdigit()]: non-empty and only digits. *)
Definition isdigit (s : string) : bool :=
  match s with
  | EmptyString => false
  | _ => all_chars isdigit_char s
  end.

(** [s.lstrip()], [s.rstrip()], [s.strip()] *)
Fixpoint lstrip (s : string) : string :=
  match s with
  | EmptyString => EmptyString
  | String c r => if isspace c then lstrip r else s
  end.

Fixpoint rstrip (s : string) : string :=
  match s with
  | EmptyString => EmptyString
  | String c r =>
      match rstrip r with
      | EmptyString => if isspace c then EmptyString else String c EmptyString
      | r' => String c r'
      end
  end.

Definition strip (s : string) : string := rstrip (lstrip s).

(** [s.upper()] on ASCII text.  Outside ASCII [str.upper()] also maps
    letters, and may lengthen the text (["ß"] becomes ["SS"]); a statement on
    the shape of an upper-cased text therefore assumes ASCII text. *)
Definition upper_char (c : ascii) : ascii :=
  if (97 <=? nat_of c)%nat && (nat_of c <=? 122)%nat
  then ascii_of_nat (nat_of c - 32) else c.

Fixpoint upper (s : string) : string :=
  match s with
  | EmptyString => EmptyString
  | String c r => String (upper_char c) (upper r)
  end.

(** [s.replace(c, new)] for a one-character pattern [c]. *)
Fixpoint replace (c : ascii) (new : string) (s : string) : string :=
  match s with
  | EmptyString => EmptyString
  | String d r =>
      if Ascii.eqb d c then new +:+ replace c new r
      else String d (replace c new r)
  end.

(** [s[:n]] for [0 <= n]. *)
Fixpoint str_take (n : nat) (s : string) : string :=
  match n, s with
  | O, _ => EmptyString
  | _, EmptyString => EmptyString
  | S k, String c r => String c (str_take k r)
  end.

(** [s[:k]] for any integer [k]; a negative [k] counts from the end. *)
Definition slice_to (k : Z) (s : string) : string :=
  if 0 <=? k then str_take (Z.to_nat k) s
  else str_take (Z.to_nat (len s + k)) s.

(** [s.startswith(p)] *)
Definition startswith (s p : string) : bool := String.prefix p s.

(** [sub in s] *)
Fixpoint contains (sub s : string) : bool :=
  String.prefix sub s
  || match s with
     | EmptyString => false
     | String _ r => contains sub r
     end.

(** [s.split()]: maximal runs of non-whitespace characters.  [cur] holds the
    characters of the current token in reverse. *)
Fixpoint split_ws_go (cur : string) (s : string) : list string :=
  match s with
  | EmptyString =>
      match cur with EmptyString => [] | _ => [String.rev cur] end
  | String c r =>
      if isspace c then
        match cur with
        | EmptyString => split_ws_go EmptyString r
        | _ => String.rev cur :: split_ws_go EmptyString r
        end
      else split_ws_go (String c cur) r
  end.

Definition split_ws (s : string) : list string := split_ws_go EmptyString s.

(** [s.split(sep)] for a non-empty separator.  [skip] counts the characters
    of a separator just matched that are still to be dropped; [cur] is the
    current piece in reverse. *)
Fixpoint split_go (sep : string) (skip : nat) (cur : string) (s : string)
  : list string :=
  match s with
  | EmptyString => [String.rev cur]
  | String c r =>
      match skip with
      | S k => split_go sep k cur r
      | O =>
          if String.prefix sep s
          then String.rev cur :: split_go sep (String.length sep - 1) EmptyString r
          else split_go sep O (String c cur) r
      end
  end.

Definition split (sep s : string) : list string := split_go sep O EmptyString s.

(** [sep.join(l)] *)
Definition join (sep : string) (l : list string) : string := String.concat sep l.

(** The whitespace that [int()] skips around the digits of an ASCII string:
    space, tab, LF, VT, FF and CR.  The separators 28 to 31, which
    [str.strip()] removes, are no whitespace for [int()]. *)
Definition isspace_int (c : ascii) : bool :=
  ((9 <=? nat_of c)%nat && (nat_of c <=? 13)%nat) || (nat_of c =? 32)%nat.

Fixpoint lstrip_int (s : string) : string :=
  match s with
  | EmptyString => EmptyString
  | String c r => if isspace_int c then lstrip_int r else s
  end.

Fixpoint rstrip_int (s : string) : string :=
  match s with
  | EmptyString => EmptyString
  | String c r =>
      match rstrip_int r with
      | EmptyString => if isspace_int c then EmptyString else String c EmptyString
      | r' => String c r'
      end
  end.

Definition strip_int (s : string) : string := rstrip_int (lstrip_int s).

(** [int(s)] for a string: surrounding whitespace, an optional sign, then
    decimal digits with single underscores allowed between digits. *)
Fixpoint digits_go (acc : Z) (prev : bool) (s : string) : option Z :=
  match s with
  | EmptyString => if prev then Some acc else None
  | String c r =>
      if isdigit_char c
      then digits_go (acc * 10 + Z.of_nat (nat_of c - 48)) true r
      else if Ascii.eqb c "_" then (if prev then digits_go acc false r else None)
      else None
  end.

Definition int_of_str (s : string) : result Z :=
  let t := strip_int s in
  let r :=
    match t with
    | String "+" d => digits_go 0 false d
    | String "-" d => Z.opp <$> digits_go 0 false d
    | _ => digits_go 0 false t
    end in
  match r with
  | Some z => Ok z
  | None => Raise ValueError
  end.

(** [int(v)] *)
Definition int (v : pyval) : result Z :=
  match v with
  | PNone => Raise TypeError
  | PInt z => Ok z
  | PStr s => int_of_str s
  end.

(** [range(start, stop, step)] as a list; a zero step raises. *)
Fixpoint range_up (fuel : nat) (i stop step : Z) : list Z :=
  match fuel with
  | O => []
  | S f => if i <? stop then i :: range_up f (i + step) stop step else []
  end.

Fixpoint range_down (fuel : nat) (i stop step : Z) : list Z :=
  match fuel with
  | O => []
  | S f => if stop <? i then i :: range_down f (i + step) stop step else []
  end.

Definition range (start stop step : Z) : result (list Z) :=
  if step =? 0 then Raise ValueError
  else if 0 <? step then Ok (range_up (Z.to_nat (stop - start)) start stop step)
  else Ok (range_down (Z.to_nat (start - stop)) start stop step).

(** [l[i:j]] for [0 <= i] and [0 <= j]. *)
Definition slice {A} (l : list A) (i j : Z) : list A :=
  firstn (Z.to_nat (j - i)) (skipn (Z.to_nat i) l).

End Py.

Import Py.

(** ** Records of the script *)

(** One element of the repeater list ([BM.json]) with the keys the script
    reads, all present; [id] and [pep] are kept as JSON scalars because the
    script converts them with [str()] and [int()].  [item_turn] is the key
    ['turn'] that [filter_list] adds ([None] while the key is absent). *)
Record item : Type := Item {
  item_id : pyval;
  item_callsign : string;
  item_rx : string;
  item_tx : string;
  item_colorcode : string;
  item_city : string;
  item_lat : Q;
  item_lng : Q;
  item_pep : pyval;
  item_last_seen : string;
  item_turn : option nat
}.

Inductive band_t : Type := Vhf | Uhf | Both.
Inductive type_t : Type := Mcc | Qth | Gps.

(** [args.mcc] after the start-up conversion: absent, one prefix, or the
    list of prefixes of a two-letter country code. *)
Inductive mcc_t : Type :=
  | MccNone
  | MccStr (s : string)
  | MccList (l : list string).

(** The parsed command line, with the start-up global [qth_coords]. *)
Record args : Type := Args {
  args_name : string;
  args_band : band_t;
  args_type : type_t;
  args_mcc : mcc_t;
  args_radius : Z;
  qth_coords : Q * Q;
  args_pep : option string;
  args_six : bool;
  args_zone_capacity : Z;
  args_callsign : option string;
  args_talkgroups : bool;
  args_city_prefix : bool
}.

(** Truth value of an optional string argument ([None] and [''] are false). *)
Definition truthy (o : option string) : bool :=
  match o with
  | Some (String _ _) => true
  | _ => false
  end.

(** [item['callsign'] = cs] and [item['turn'] = n]. *)
Definition set_callsign (it : item) (cs : string) : item :=
  Item (item_id it) cs (item_rx it) (item_tx it) (item_colorcode it)
       (item_city it) (item_lat it) (item_lng it) (item_pep it)
       (item_last_seen it) (item_turn it).

Definition set_turn (it : item) (n : nat) : item :=
  Item (item_id it) (item_callsign it) (item_rx it) (item_tx it)
       (item_colorcode it) (item_city it) (item_lat it) (item_lng it)
       (item_pep it) (item_last_seen it) (Some n).

(** ** [sorted(json_list, key=lambda k: (k['callsign'], int(k["id"])))] *)

Definition sort_key (k : item) : result (string * Z) :=
  let* z := int (item_id k) in Ok (item_callsign k, z).

(** Tuple comparison [a <= b]: callsigns by code point, then the ids. *)
Definition key_leb (a b : string * Z) : bool :=
  match String.compare a.1 b.1 with
  | Lt => true
  | Eq => a.2 <=? b.2
  | Gt => false
  end.

Fixpoint insert_sorted (x : (string * Z) * item) (l : list ((string * Z) * item))
  : list ((string * Z) * item) :=
  match l with
  | [] => [x]
  | y :: r => if key_leb x.1 y.1 then x :: y :: r else y :: insert_sorted x r
  end.

(** A stable sort: an element is put in front of the later elements whose
    key is not smaller. *)
Definition sort_pairs (l : list ((string * Z) * item)) : list ((string * Z) * item) :=
  foldr insert_sorted [] l.

Definition sorted (l : list item) : result (list item) :=
  let* ks := mapM sort_key l in
  Ok ((sort_pairs (zip ks l)).*2).

(** ** [filter_list] *)

Section Selection.

(** [check_distance]: the great-circle distance in kilometres, computed by
    a library outside the repository; coordinates and distances are taken
    as rationals. *)
Variable check_distance : Q * Q -> Q * Q -> Q.

(** The parsed arguments [args]. *)
Variable a : args.

(** Band test: the record is kept. *)
Definition band_ok (it : item) : bool :=
  match args_band a with
  | Both => true
  | Vhf => startswith (item_rx it) "1"
  | Uhf => startswith (item_rx it) "4"
  end.

(** [is_starts] of the [mcc] selection; [startswith(None)] raises. *)
Definition mcc_ok (it : item) : result bool :=
  match args_type a with
  | Mcc =>
      match args_mcc a with
      | MccList l => Ok (existsb (fun m => startswith (str (item_id it)) m) l)
      | MccStr s => Ok (startswith (str (item_id it)) s)
      | MccNone => Raise TypeError
      end
  | _ => Ok true
  end.

(** Distance test: the record is skipped. *)
Definition too_far (it : item) : bool :=
  match args_type a with
  | Mcc => false
  | _ => negb (Qle_bool (check_distance (qth_coords a) (item_lat it, item_lng it))
                        (inject_Z (args_radius a)))
  end.

(** Power test: the record is skipped. *)
Definition pep_skip (it : item) : result bool :=
  if truthy (args_pep a) then
    if negb (isdigit (str (item_pep it))) || String.eqb (str (item_pep it)) "0"
    then Ok true
    else if negb (String.eqb (default "" (args_pep a)) "0") then
      let* v := int (item_pep it) in
      let* t := int_of_str (default "" (args_pep a)) in
      Ok (v <? t)
    else Ok false
  else Ok false.

(** Six-digit test and callsign test: the record is skipped. *)
Definition six_skip (it : item) : bool :=
  args_six a && negb (len (str (item_id it)) =? 6).

Definition callsign_skip (it : item) : bool :=
  truthy (args_callsign a)
  && negb (contains (default "" (args_callsign a)) (item_callsign it)).

(** All filters in sequence: [Ok true] when the record reaches the
    normalisation step, [Ok false] when one of the [continue]s is taken. *)
Definition passes (it : item) : result bool :=
  if negb (band_ok it) then Ok false else
  let* m := mcc_ok it in
  if negb m then Ok false else
  if too_far it then Ok false else
  let* p := pep_skip it in
  if p then Ok false else
  if six_skip it then Ok false else
  if callsign_skip it then Ok false else
  Ok true.

(** Lines 143-146: an empty callsign is replaced by [item['id']] as it is,
    then the first whitespace-delimited token is taken. *)
Definition normalize (it : item) : result string :=
  let* cs :=
    (if String.eqb (item_callsign it) "" then
       match item_id it with
       | PStr s => Ok s
       | _ => Raise AttributeError
       end
     else Ok (item_callsign it)) in
  match split_ws cs with
  | [] => Raise IndexError
  | w :: _ => Ok w
  end.

(** The test of the [any(...)] over [filtered_list]. *)
Definition same_triple (x y : item) : bool :=
  String.eqb (item_rx x) (item_rx y)
  && String.eqb (item_tx x) (item_tx y)
  && String.eqb (item_callsign x) (item_callsign y).

(** The globals [filtered_list] and [existing]. *)
Record sel_state : Type := SelState {
  filtered_list : list item;
  existing : gmap string nat
}.

Definition sel_init : sel_state := SelState [] ∅.

(** One iteration of the loop over [sorted_list]. *)
Definition filter_step (st : sel_state) (it : item) : result sel_state :=
  let* ok := passes it in
  if negb ok then Ok st else
  let* cs := normalize it in
  let it1 := set_callsign it cs in
  if existsb (same_triple it1) (filtered_list st) then Ok st else
  let n := (default 0%nat (existing st !! cs) + 1)%nat in
  Ok (SelState (filtered_list st ++ [set_turn it1 n]) (<[cs := n]> (existing st))).

Definition filter_list (json_list : list item) : result (list item) :=
  let* sorted_list := sorted json_list in
  let* st := foldM filter_step sorted_list sel_init in
  Ok (filtered_list st).

End Selection.

(** ** Channel and zone names *)

(** The three-letter city code computed in [format_channel] and in the
    writers: text before the first comma, stripped, first three characters
    in upper case, padded with ["X"]. *)
Definition city_name (city_field : string) : string :=
  strip (hd "" (split "," city_field)).

Definition city_abbr_of (city_field : string) : string :=
  let city := city_name city_field in
  if 3 <=? len city then upper (slice_to 3 city)
  else upper (slice_to 3 (city +:+ "XXX")).

(** [ch_alias] of [format_channel] for one slot. *)
Definition ch_alias (callsign city_abbr : string) (slot : Z) : string :=
  let base_name := callsign +:+ "." +:+ city_abbr in
  let ts_suffix := " TS" +:+ str_of_Z slot in
  if 16 <? len (base_name +:+ ts_suffix) then
    let max_callsign_len := 16 - len ("." +:+ city_abbr +:+ ts_suffix) in
    let truncated_callsign := slice_to max_callsign_len callsign in
    truncated_callsign +:+ "." +:+ city_abbr +:+ ts_suffix
  else base_name +:+ ts_suffix.

(** [zone_alias] as computed (and then dropped) at the end of the talkgroup
    branch of [process_channels], lines 377-393. *)
Definition zone_alias (callsign city_field : string) : string :=
  let city := city_name city_field in
  let alias :=
    if 16 <=? len callsign + 1 then slice_to 16 callsign
    else
      let city_max_len := 15 - len callsign in
      let city_abbr := slice_to city_max_len (replace " " "" city) in
      callsign +:+ "_" +:+ city_abbr in
  slice_to 16 alias.

(** ** [output_list] and [process_channels] *)

(** One entry of [output_list]:
    [[name, item['tx'], item['rx'], colorcode, city, last_seen, url]]. *)
Record out_row : Type := OutRow {
  o_name : string;
  o_rx : string;
  o_tx : string;
  o_cc : string;
  o_city : string;
  o_last_seen : string;
  o_url : string
}.

Definition repeater_url (it : item) : string :=
  "https://brandmeister.network/?page=repeater&id=" +:+ str (item_id it).

(** The entry appended by [format_channel] for one slot. *)
Definition standard_row (it : item) (slot : Z) : out_row :=
  OutRow (ch_alias (item_callsign it) (city_abbr_of (item_city it)) slot)
         (item_tx it) (item_rx it) (item_colorcode it)
         (item_city it) (item_last_seen it) (repeater_url it).

(** [format_channel(item)]: appends one entry per slot of [[1, 2]]. *)
Definition format_channel (output_list : list out_row) (it : item) : list out_row :=
  foldl (fun out slot => out ++ [standard_row it slot]) output_list [1; 2].

(** The entry appended by [format_talkgroup_channel(item, tg_id, timeslot)]. *)
Definition talkgroup_row (it : item) (tg_id timeslot : Z) : out_row :=
  OutRow (item_callsign it) (item_tx it) (item_rx it)
         (item_colorcode it) (item_city it) (item_last_seen it)
         (repeater_url it +:+ " TG" +:+ str_of_Z tg_id).

Definition format_talkgroup_channel (output_list : list out_row) (it : item)
    (tg_id timeslot : Z) : list out_row :=
  output_list ++ [talkgroup_row it tg_id timeslot].

(** [[filtered_list[i:i + c] for i in range(0, len(filtered_list), c)]] *)
Definition channel_chunks (c : Z) (fl : list item) : result (list (list item)) :=
  let* r := range 0 (Z.of_nat (length fl)) c in
  Ok (map (fun i => slice fl i (i + c)) r).

(** The standard branch of [process_channels]: [output_list] is set to [[]]
    at the start of every chunk and filled with the chunk's channels. *)
Definition process_standard (c : Z) (fl : list item) (output_list : list out_row)
  : result (list out_row) :=
  let* chunks := channel_chunks c fl in
  Ok (foldl (fun _ chunk => foldl format_channel [] chunk) output_list chunks).

Section Talkgroups.

(** [get_talkgroup_channels]: the [(talkgroup, slot)] pairs of a repeater
    ([[]] when the request fails).  The service that answers is outside the
    repository; its talkgroup ids and slots are taken as numbers, and the
    function as deterministic within a run. *)
Variable get_talkgroup_channels : pyval -> list (Z * Z).

(** The talkgroup name request: [Some name] when the answer has a non-empty
    ['Name'], [None] when it has none or the request fails. *)
Variable talkgroup_name : string -> option string.

(** First pass of the talkgroup branch: the set [unique_talkgroups]. *)
Definition unique_talkgroups (fl : list item) : gset Z :=
  foldl (fun u it => foldl (fun u p => {[ p.1 ]} ∪ u) u (get_talkgroup_channels (item_id it)))
        ∅ fl.

(** [''.join(c for c in s if c.isdigit())] *)
Definition keep_digits (s : string) : string :=
  string_of_list_ascii (filter (fun c => isdigit_char c = true) (list_ascii_of_string s)).

(** Column B (Radio ID) of a row, when present and non-empty. *)
Definition radio_id (row : list string) : option string :=
  match row with
  | _ :: (String c r) :: _ => Some (String c r)
  | _ => None
  end.

(** [existing_tg_ids]: the Radio IDs of the rows after the first one. *)
Definition radio_ids (rows : list (list string)) : list string :=
  omap radio_id (drop 1 rows).

(** One round of the loop over [sorted(unique_talkgroups)]: the row for
    [tg_id] is appended to [new_rows] unless its digits are empty or already
    a Radio ID of the file. *)
Definition new_rows_step (rows : list (list string)) (new : list (list string))
    (tg_id : Z) : list (list string) :=
  let numeric_tg_id := keep_digits (str_of_Z tg_id) in
  if negb (String.eqb numeric_tg_id "")
     && negb (bool_decide (numeric_tg_id ∈ radio_ids rows))
  then
    let tg_name := match talkgroup_name numeric_tg_id with
                   | Some n => rstrip n
                   | None => numeric_tg_id
                   end in
    new ++ [[str_of_Z (Z.of_nat (length rows + length new));
             numeric_tg_id; tg_name; "Group Call"; "None"]]
  else new.

(** The rows appended for the ids of [sorted(unique_talkgroups)]. *)
Definition new_rows (rows : list (list string)) (u : gset Z) : list (list string) :=
  foldl (new_rows_step rows) [] (merge_sort Z.le (elements u)).

(** The content of [talkgroups.csv] after the update of lines 304-363, given
    the rows the file had before.  With no row at all [header_rows[0]]
    raises, the handler prints the error and the file stays as it was. *)
Definition update_talkgroups (rows : list (list string)) (u : gset Z)
  : list (list string) :=
  match rows with
  | [] => rows
  | _ =>
      let header_rows := take 2 rows in
      if (length header_rows =? 1)%nat
      then header_rows ++ drop 1 rows ++ new_rows rows u
      else header_rows ++ drop 2 rows ++ new_rows rows u
  end.

(** Second pass of the talkgroup branch: [output_list]. *)
Definition process_talkgroups (fl : list item) : list out_row :=
  foldl (fun out it =>
           foldl (fun out p => format_talkgroup_channel out it p.1 p.2)
                 out (get_talkgroup_channels (item_id it)))
        [] fl.

End Talkgroups.

(** ** The table writers *)

Definition channels_header : list string :=
  ["No."; "Channel Name"; "Receive Frequency"; "Transmit Frequency"; "Channel Type";
   "Transmit Power"; "Band Width"; "CTCSS/DCS Decode"; "CTCSS/DCS Encode"; "Contact";
   "Contact Call Type"; "Contact TG/DMR ID"; "Radio ID"; "Busy Lock/TX Permit";
   "Squelch Mode"; "Optional Signal"; "DTMF ID"; "2Tone ID"; "5Tone ID"; "PTT ID";
   "RX Color Code"; "Slot"; "Scan List"; "Receive Group List"; "PTT Prohibit";
   "Reverse"; "Simplex TDMA"; "Slot Suit"; "AES Digital Encryption";
   "Digital Encryption"; "Call Confirmation"; "Talk Around(Simplex)"; "Work Alone";
   "Custom CTCSS"; "2TONE Decode"; "Ranging"; "Through Mode"; "APRS RX";
   "Analog APRS PTT Mode"; "Digital APRS PTT Mode"; "APRS Report Type";
   "Digital APRS Report Channel"; "Correct Frequency[Hz]"; "SMS Confirmation";
   "Exclude channel from roaming"; "DMR MODE"; "DataACK Disable"; "R5toneBot";
   "R5ToneEot"; "Auto Scan"; "Ana Aprs Mute"; "Send Talker Alias"; "AnaAprsTxPath";
   "ARC4"; "ex_emg_kind"; "TxCC"].

(** The row written for one channel, as the cells of the CSV line. *)
Definition channel_row (i : Z) (channel_name rx_freq tx_freq contact_name tg_id
                        color_code slot : string) : list string :=
  [str_of_Z i; channel_name; rx_freq; tx_freq; "D-Digital"; "Turbo"; "12.5K"; "Off"; "Off";
   contact_name; "Group Call"; tg_id; ""; "Always"; "Carrier"; "Off"; "1"; "1"; "1"; "Off";
   color_code; slot; "None"; "None"; "Off"; "Off"; "Off"; "Off"; "Normal Encryption";
   "Off"; "Off"; "Off"; "Off"; "0"; "1"; "Off"; "Off"; "Off"; "Off"; "Off"; "Off"; "1";
   "1"; "Off"; "0"; "1"; "0"; "0"; "0"; "0"; "0"; "0"; "0"; "0"; "0"; color_code].

(** Columns of a channels row. *)
Definition col (n : nat) (row : list string) : string := nth n row "".
Definition col_no := col 0.
Definition col_name := col 1.
Definition col_rx := col 2.
Definition col_tx := col 3.
Definition col_contact := col 9.
Definition col_contact_id := col 11.
Definition col_slot := col 21.

(** Standard mode: "extract slot from channel name". *)
Definition slot_of_name (channel_name : string) : string :=
  if contains "TS1" channel_name then "1"
  else if contains "TS2" channel_name then "2"
  else "1".

Section Writers.

Variable get_talkgroup_channels : pyval -> list (Z * Z).
Variable talkgroup_name : string -> option string.
Variable a : args.

(** The global [filtered_list]. *)
Variable fl : list item.

(** The rows of [talkgroups.csv] read back by [write_channels_csv]. *)
Variable tg_rows : list (list string).

(** First repeater of [filtered_list] whose frequencies are the channel's,
    swapped. *)
Definition find_repeater (rx_freq tx_freq : string) : option item :=
  List.find (fun it => String.eqb (item_tx it) rx_freq && String.eqb (item_rx it) tx_freq) fl.

(** Contact name from [talkgroups.csv]: the name of the first row after the
    header whose Radio ID is [tg_id] and whose name is not empty. *)
Definition csv_contact_name (tg_id : string) : string :=
  match tg_rows with
  | [] => "Simplex"
  | _ :: rest =>
      match List.find (fun row => (2 <? Z.of_nat (length row))
                                  && String.eqb (col 1 row) tg_id
                                  && negb (String.eqb (col 2 row) "")) rest with
      | Some row => rstrip (slice_to 16 (col 2 row))
      | None => "Simplex"
      end
  end.

Definition with_city_prefix (rx_freq tx_freq channel_name what : string) : string :=
  match find_repeater rx_freq tx_freq with
  | Some it => rstrip (slice_to 16 (city_abbr_of (item_city it) +:+ "." +:+ what))
  | None => channel_name
  end.

(** Slot of a talkgroup channel: asked again from the talkgroup data of the
    first repeater with the channel's frequencies. *)
Definition talkgroup_slot (rx_freq tx_freq tg_id : string) : string :=
  match find_repeater rx_freq tx_freq with
  | Some it =>
      match List.find (fun p : Z * Z => String.eqb (str_of_Z p.1) tg_id)
                      (get_talkgroup_channels (item_id it)) with
      | Some p => str_of_Z p.2
      | None => "1"
      end
  | None => "1"
  end.

(** The body of the loop of [write_channels_csv] for entry number [i]. *)
Definition write_channel (i : Z) (channel : out_row) : list string :=
  let rx_freq := o_rx channel in
  let tx_freq := o_tx channel in
  let color_code := o_cc channel in
  let is_tg := args_talkgroups a && contains "TG" (o_url channel) in
  let '(channel_name, contact_name, tg_id) :=
    if is_tg then
      match split "TG" (o_url channel) with
      | _ :: part :: _ =>
          let tg_id := strip part in
          let contact0 := csv_contact_name tg_id in
          let contact1 :=
            if String.eqb contact0 "Simplex" then
              match talkgroup_name tg_id with
              | Some n => rstrip (slice_to 16 n)
              | None => contact0
              end
            else contact0 in
          let name1 :=
            if negb (String.eqb contact1 "Simplex") then
              if args_city_prefix a
              then with_city_prefix rx_freq tx_freq (o_name channel) contact1
              else rstrip contact1
            else o_name channel in
          if String.eqb contact1 "Simplex" then
            let tg_name := tg_id in
            (if args_city_prefix a
             then with_city_prefix rx_freq tx_freq name1 tg_name
             else rstrip tg_name,
             tg_name, tg_id)
          else (name1, contact1, tg_id)
      | _ => (o_name channel, "Simplex", "99")
      end
    else (o_name channel, "Simplex", "99") in
  let slot :=
    if is_tg then talkgroup_slot rx_freq tx_freq tg_id
    else slot_of_name channel_name in
  channel_row i channel_name rx_freq tx_freq contact_name tg_id color_code slot.

(** The data rows of [channels.csv]:
    [for i, channel in enumerate(output_list, 1)]. *)
Definition write_channels_csv (output_list : list out_row) : list (list string) :=
  imap (fun i channel => write_channel (Z.of_nat i + 1) channel) output_list.

(** A row of [zones.csv] before the member lists are joined. *)
Record zone_row : Type := ZoneRow {
  z_no : Z;
  z_name : string;
  z_members : list string;
  z_rx : list string;
  z_tx : list string
}.

(** The cells written for a zone row. *)
Definition render_zone_row (z : zone_row) : list string :=
  [str_of_Z (z_no z); z_name z; join "|" (z_members z); join "|" (z_rx z);
   join "|" (z_tx z);
   hd "" (z_members z); hd "" (z_rx z); hd "" (z_tx z);
   hd "" (z_members z); hd "" (z_rx z); hd "" (z_tx z); "0"].

(** Talkgroup mode: one zone per repeater that has talkgroups; the members
    are read back from the data rows of [channels.csv]. *)
Definition zone_name_tg (it : item) : string :=
  slice_to 16 (item_callsign it +:+ "_" +:+ replace " " "_" (city_name (item_city it))).

(** One round of the loop over [filtered_list]; the state is [zone_num] and
    the rows written so far. *)
Definition zones_tg_step (channels : list (list string))
  : Z * list zone_row -> item -> Z * list zone_row :=
  fun '(zone_num, zs) it =>
    match get_talkgroup_channels (item_id it) with
    | [] => (zone_num, zs)
    | _ =>
        let mine := filter (fun row => (3 <? Z.of_nat (length row)) = true
                                       ∧ col 2 row = item_tx it
                                       ∧ col 3 row = item_rx it) channels in
        (zone_num + 1,
         zs ++ [ZoneRow zone_num (zone_name_tg it) (col_name <$> mine)
                        ((fun _ => item_tx it) <$> mine)
                        ((fun _ => item_rx it) <$> mine)])
    end.

Definition write_zones_tg (channels : list (list string)) : list zone_row :=
  (foldl (zones_tg_step channels) (1, []) fl).2.

(** Standard mode: one zone per chunk of [filtered_list]. *)
Definition zone_channel_names (chunk : list item) : list string :=
  flat_map (fun it => (fun slot => ch_alias (item_callsign it) (city_abbr_of (item_city it)) slot)
                        <$> [1; 2]) chunk.

Definition write_zones_standard : result (list zone_row) :=
  let* channel_chunks := channel_chunks (args_zone_capacity a) fl in
  Ok (imap (fun i chunk =>
              let chunk_num := Z.of_nat i + 1 in
              let zone_name :=
                if (length channel_chunks =? 1)%nat then args_name a
                else args_name a +:+ " #" +:+ str_of_Z chunk_num in
              ZoneRow chunk_num zone_name (zone_channel_names chunk)
                      (flat_map (fun it => [item_tx it; item_tx it]) chunk)
                      (flat_map (fun it => [item_rx it; item_rx it]) chunk))
           channel_chunks).

End Writers.

(** ** The script as run: [filter_list], [process_channels], the writers *)

Record tables : Type := Tables {
  channels_csv : list (list string);
  zones_csv : list zone_row;
  talkgroups_csv : list (list string)
}.

Section Main.

Variable check_distance : Q * Q -> Q * Q -> Q.
Variable get_talkgroup_channels : pyval -> list (Z * Z).
Variable talkgroup_name : string -> option string.

(** The tables of a standard-mode run, from the selected list on. *)
Definition standard_tables (a : args) (fl : list item) : result tables :=
  let* output_list := process_standard (args_zone_capacity a) fl [] in
  let channels := write_channels_csv get_talkgroup_channels talkgroup_name a fl [] output_list in
  let* zones := write_zones_standard a fl in
  Ok (Tables channels zones []).

(** The tables of a talkgroup-mode run, from the selected list on;
    [template] holds the rows of the talkgroups file copied from the
    template. *)
Definition talkgroup_tables (a : args) (template : list (list string)) (fl : list item)
  : tables :=
  let tg_rows := update_talkgroups talkgroup_name template
                   (unique_talkgroups get_talkgroup_channels fl) in
  let output_list := process_talkgroups get_talkgroup_channels fl in
  let channels := write_channels_csv get_talkgroup_channels talkgroup_name a fl tg_rows
                    output_list in
  Tables channels (write_zones_tg get_talkgroup_channels fl channels) tg_rows.

(** [process_channels]: fills [output_list]; the talkgroup branch first
    brings [talkgroups.csv] up to date.  The result pairs [output_list] with
    the rows of the talkgroups file of the run (none in standard mode, which
    neither reads nor writes that file). *)
Definition process_channels (a : args) (template : list (list string)) (fl : list item)
  : result (list out_row * list (list string)) :=
  if args_talkgroups a then
    Ok (process_talkgroups get_talkgroup_channels fl,
        update_talkgroups talkgroup_name template
          (unique_talkgroups get_talkgroup_channels fl))
  else
    let* output_list := process_standard (args_zone_capacity a) fl [] in
    Ok (output_list, []).

(** [write_zones_csv]: the rows of [zones.csv]. *)
Definition write_zones_csv (a : args) (fl : list item) (channels : list (list string))
  : result (list zone_row) :=
  if args_talkgroups a then Ok (write_zones_tg get_talkgroup_channels fl channels)
  else write_zones_standard a fl.

(** The script: [filter_list()], [process_channels()], [write_channels_csv()],
    [write_zones_csv()]. *)
Definition main (a : args) (template : list (list string)) (json_list : list item)
  : result tables :=
  let* fl := filter_list check_distance a json_list in
  let* r := process_channels a template fl in
  let channels := write_channels_csv get_talkgroup_channels talkgroup_name a fl r.2 r.1 in
  let* zones := write_zones_csv a fl channels in
  Ok (Tables channels zones r.2).

End Main.

(** ** Notions used in the statements *)

(** The entries a chunk contributes to [output_list], in emission order. *)
Definition standard_rows (chunk : list item) : list out_row :=
  flat_map (fun it => [standard_row it 1; standard_row it 2]) chunk.

(** The key of the deduplication: [(rx, tx, callsign)]. *)
Definition triple (it : item) : string * string * string :=
  (item_rx it, item_tx it, item_callsign it).

(** The [turn] annotations of the records with callsign [cs], in list order. *)
Definition turns_of (cs : string) (l : list item) : list (option nat) :=
  item_turn <$> filter (fun it => item_callsign it = cs) l.

(** The power of a record: [None] when it is undefined (no value, or a
    value whose text is not a digit string), its numeric value otherwise. *)
Definition power_of (it : item) : option Z :=
  if isdigit (str (item_pep it)) then
    match int (item_pep it) with
    | Ok v => Some v
    | Raise _ => None
    end
  else None.

(** A string of whitespace only. *)
Definition all_space (s : string) : bool := all_chars isspace s.

(** Number of rows of a talkgroups table whose Radio ID is [tg_id]. *)
Definition occurrences (tg_id : string) (rows : list (list string)) : nat :=
  length (filter (fun x => x = tg_id) (radio_ids rows)).

(** Character classes used when a URL is split and a number is printed. *)
Definition not_T (c : ascii) : bool := negb (Ascii.eqb c "T").
Definition not_space (c : ascii) : bool := negb (isspace c).
Definition sign_or_digit (c : ascii) : bool := isdigit_char c || Ascii.eqb c "-".
Definition number_char (c : ascii) : bool :=
  isspace c || isdigit_char c || Ascii.eqb c "_" || Ascii.eqb c "+" || Ascii.eqb c "-".

(** The part of a talkgroup entry's URL in front of ["TG"]. *)
Definition url_head (it : item) : string := repeater_url it +:+ " ".

(** Order of the sort keys. *)
Definition key_le (k1 k2 : string * Z) : Prop := key_leb k1 k2 = true.

(** A record as it reaches the deduplication: it passed every filter and its
    callsign was normalised. *)
Definition candidate (check_distance : Q * Q -> Q * Q -> Q) (a : args) (x : item)
  : option item :=
  match passes check_distance a x, normalize x with
  | Ok true, Ok cs => Some (set_callsign x cs)
  | _, _ => None
  end.

(** Invariant of the loop of [filter_list] after the records [l] of
    [sorted_list] have been visited: no triple is retained twice, the
    counters of [existing] and the [turn] annotations count the retained
    records per callsign, every retained record is the first candidate of
    [l] with its triple, and every candidate of [l] has its triple
    retained. *)
Definition selection_inv (check_distance : Q * Q -> Q * Q -> Q) (a : args)
    (l : list item) (st : sel_state) : Prop :=
  let fl := filtered_list st in
  NoDup (triple <$> fl)
  /\ (forall cs, default 0%nat (existing st !! cs)
                 = length (filter (fun it => item_callsign it = cs) fl))
  /\ (forall cs, turns_of cs fl
                 = Some <$> seq 1 (length (filter (fun it => item_callsign it = cs) fl)))
  /\ (forall r, r ∈ fl ->
        exists (i : nat) (x y : item) (n : nat),
          l !! i = Some x /\ candidate check_distance a x = Some y /\ r = set_turn y n
          /\ forall (j : nat) (x' y' : item),
               (j < i)%nat -> l !! j = Some x' ->
               candidate check_distance a x' = Some y' -> triple y' <> triple y)
  /\ (forall x y, x ∈ l -> candidate check_distance a x = Some y ->
        triple y ∈ triple <$> fl).

(** The ids for which [process_channels] appends a row. *)
Definition is_new (rows : list (list string)) (tg_id : Z) : Prop :=
  keep_digits (str_of_Z tg_id) <> ""
  /\ keep_digits (str_of_Z tg_id) ∉ radio_ids rows.

(** Equality of exceptions and results is decidable. *)
#[global] Instance exn_eq_dec : EqDecision exn.
Proof. solve_decision. Defined.

#[global] Instance result_eq_dec {A} `{EqDecision A} : EqDecision (result A).
Proof. solve_decision. Defined.

(** [w] is the first token of [s], a text without leading whitespace: no
    whitespace in [w], and whitespace or the end of the text after it. *)
Definition token_of (w s : string) : Prop :=
  w <> "" /\ all_chars not_space w = true
  /\ exists rest, s = w +:+ rest
       /\ (rest = "" \/ exists c r, rest = String c r /\ isspace c = true).


(** The [(repeater, (talkgroup, slot))] pairs of talkgroup mode, in the
    order in which [process_channels] visits them. *)
Definition talkgroup_pairs (get_talkgroup_channels : pyval -> list (Z * Z))
    (fl : list item) : list (item * (Z * Z)) :=
  flat_map (fun it => (fun p => (it, p)) <$> get_talkgroup_channels (item_id it)) fl.

(** The row of [zones.csv] written in talkgroup mode for a repeater that has
    talkgroups, as zone number [zone_num]. *)
Definition zone_tg_row (channels : list (list string)) (zone_num : Z) (it : item) : zone_row :=
  let mine := filter (fun row => (3 <? Z.of_nat (length row)) = true
                                 ∧ col 2 row = item_tx it
                                 ∧ col 3 row = item_rx it) channels in
  ZoneRow zone_num (zone_name_tg it) (col_name <$> mine)
          ((fun _ => item_tx it) <$> mine) ((fun _ => item_rx it) <$> mine).

(** The name [process_channels] writes for a talkgroup it adds to
    [talkgroups.csv]: the answer of the talkgroup service without trailing
    whitespace, the id text when there is no answer. *)
Definition new_talkgroup_name (talkgroup_name : string -> option string) (tg_id : Z)
  : string :=
  match talkgroup_name (keep_digits (str_of_Z tg_id)) with
  | Some n => rstrip n
  | None => keep_digits (str_of_Z tg_id)
  end.

(** A lower-case ASCII letter. *)
Definition islower_char (c : ascii) : bool :=
  (97 <=? nat_of c)%nat && (nat_of c <=? 122)%nat.

(** An ASCII character. *)
Definition isascii_char (c : ascii) : bool := (nat_of c <? 128)%nat.

(** * Properties *)

(** ** The built-ins on sample values *)

Example str_50 : str (PInt 50) = "50". Proof. reflexivity. Qed.
Example str_neg : str (PInt (-5)) = "-5". Proof. reflexivity. Qed.
Example int_12 : int (PStr " 1_2 ") = Ok 12. Proof. reflexivity. Qed.
Example int_bad : int (PStr "1__2") = Raise ValueError. Proof. reflexivity. Qed.
Example int_fs : int (PStr (String (ascii_of_nat 28) "5")) = Raise ValueError.
Proof. reflexivity. Qed.
Example strip_fs : strip (String (ascii_of_nat 28) "5") = "5". Proof. reflexivity. Qed.
Example split_ws_ex : split_ws "  K1AAA  /R x" = ["K1AAA"; "/R"; "x"]. Proof. reflexivity. Qed.
Example split_tg_ex : split "TG" "id=1 TG91" = ["id=1 "; "91"]. Proof. reflexivity. Qed.
Example split_comma_ex : split "," "Boston, MA" = ["Boston"; " MA"]. Proof. reflexivity. Qed.
Example strip_ex : strip "  New York " = "New York". Proof. reflexivity. Qed.
Example upper_ex : upper "spr1z" = "SPR1Z". Proof. reflexivity. Qed.
Example range_ex : range 0 5 2 = Ok [0; 2; 4]. Proof. reflexivity. Qed.
Example slice_to_ex : slice_to (-2) "abcde" = "abc". Proof. reflexivity. Qed.
Example contains_ex : contains "TS1" "K1AAA.BOS TS1" = true. Proof. reflexivity. Qed.

(** Scenario A: one repeater, one zone with the two channels
    ["K1AAA.BOS TS1"] and ["K1AAA.BOS TS2"]. *)
Example scenario_a :
  let a := Args "Home" Vhf Mcc (MccStr "1") 100 (0%Q, 0%Q) None false 160 None false false in
  let json_list := [Item (PInt 1) "K1AAA" "146.000" "146.600" "1" "Boston, MA"
                         (4236 # 100)%Q (-7106 # 100)%Q (PStr "50") "" None] in
  exists t, main (fun _ _ => 0%Q) (fun _ => []) (fun _ => None) a [] json_list = Ok t
    /\ col_name <$> channels_csv t = ["K1AAA.BOS TS1"; "K1AAA.BOS TS2"]
    /\ z_members <$> zones_csv t = [["K1AAA.BOS TS1"; "K1AAA.BOS TS2"]]
    /\ z_name <$> zones_csv t = ["Home"].
Proof. intros a json_list. eexists. split; [reflexivity|]. by vm_compute. Qed.

(** Scenario D: talkgroup pairs [[(9, 1), (91, 2)]] and a talkgroups file
    with its header only. *)
Example scenario_d :
  let a := Args "Home" Vhf Mcc (MccStr "1") 100 (0%Q, 0%Q) None false 160 None true false in
  let json_list := [Item (PInt 1) "K1AAA" "146.000" "146.600" "1" "Boston, MA"
                         (4236 # 100)%Q (-7106 # 100)%Q (PStr "50") "" None] in
  let template := [["No."; "Radio ID"; "Name"; "Call Type"; "Call Alert"]] in
  exists t, main (fun _ _ => 0%Q) (fun _ => [(9, 1); (91, 2)]) (fun _ => None) a template
              json_list = Ok t
    /\ radio_ids (talkgroups_csv t) = ["9"; "91"]
    /\ col_contact_id <$> channels_csv t = ["9"; "91"]
    /\ col_slot <$> channels_csv t = ["1"; "2"].
Proof. intros a json_list template. eexists. split; [reflexivity|]. by vm_compute. Qed.

(** ** Strings *)

Lemma str_length_app (s t : string) :
  String.length (s +:+ t) = (String.length s + String.length t)%nat.
Proof. induction s as [|c s IH]; simpl; [done|]. by rewrite IH. Qed.

Lemma app_assoc_str (s t u : string) : (s +:+ t) +:+ u = s +:+ t +:+ u.
Proof.
  induction s as [|c s IH]; [done|].
  change (String c ((s +:+ t) +:+ u) = String c (s +:+ t +:+ u)). by f_equal.
Qed.

Lemma len_app (s t : string) : len (s +:+ t) = len s + len t.
Proof. unfold len. rewrite str_length_app. lia. Qed.

Lemma len_nonneg (s : string) : 0 <= len s.
Proof. unfold len. lia. Qed.

Lemma length_str_take (n : nat) (s : string) :
  String.length (str_take n s) = (n `min` String.length s)%nat.
Proof.
  revert s. induction n as [|n IH]; intros [|c s]; simpl; try done.
  by rewrite IH.
Qed.

Lemma length_upper (s : string) : String.length (upper s) = String.length s.
Proof. induction s as [|c s IH]; simpl; [done|]. by rewrite IH. Qed.

Lemma len_slice_to_nonneg (k : Z) (s : string) :
  0 <= k -> len (slice_to k s) = Z.min k (len s).
Proof.
  intros Hk. unfold slice_to, len.
  destruct (Z.leb_spec 0 k); [|lia].
  rewrite length_str_take. lia.
Qed.

Lemma len_city_abbr_of (city : string) : len (city_abbr_of city) = 3.
Proof.
  unfold city_abbr_of.
  destruct (Z.leb_spec 3 (len (city_name city))) as [H|H].
  - unfold len at 1. rewrite length_upper. fold (len (slice_to 3 (city_name city))).
    rewrite len_slice_to_nonneg by lia. lia.
  - unfold len at 1. rewrite length_upper.
    fold (len (slice_to 3 (city_name city +:+ "XXX"))).
    rewrite len_slice_to_nonneg by lia. rewrite len_app.
    pose proof (len_nonneg (city_name city)). change (len "XXX") with 3. lia.
Qed.

Lemma len_ts_suffix (slot : Z) :
  slot = 1 \/ slot = 2 -> len (" TS" +:+ str_of_Z slot) = 4.
Proof. by intros [-> | ->]. Qed.

(** The alias of a channel: the full name when it fits, otherwise the name
    built on the callsign cut by the overflow; its length is the smaller of
    16 and the length of the full name. *)
Lemma ch_alias_cases (callsign abbr : string) (slot : Z) :
  slot = 1 \/ slot = 2 -> len abbr = 3 ->
  let full := callsign +:+ "." +:+ abbr +:+ " TS" +:+ str_of_Z slot in
  ch_alias callsign abbr slot =
    (if len full <=? 16 then full
     else str_take (Z.to_nat (len callsign - (len full - 16))) callsign
            +:+ "." +:+ abbr +:+ " TS" +:+ str_of_Z slot)
  /\ len (ch_alias callsign abbr slot) = Z.min 16 (len full).
Proof.
  intros Hslot Habbr full.
  pose proof (len_ts_suffix slot Hslot) as Hts.
  pose proof (len_nonneg callsign) as Hcs.
  assert (Hfull : len full = len callsign + 8).
  { unfold full. rewrite !len_app in *. change (len ".") with 1. lia. }
  unfold ch_alias.
  assert (Hassoc : (callsign +:+ "." +:+ abbr) +:+ " TS" +:+ str_of_Z slot = full).
  { unfold full. by rewrite app_assoc_str, app_assoc_str. }
  rewrite Hassoc.
  assert (Hsuf : len ("." +:+ abbr +:+ " TS" +:+ str_of_Z slot) = 8).
  { rewrite !len_app in *. change (len ".") with 1. lia. }
  rewrite Hsuf.
  destruct (Z.ltb_spec 16 (len full)) as [Hlt|Hge];
    destruct (Z.leb_spec (len full) 16) as [Hle|Hgt]; try lia.
  - split.
    + unfold slice_to. simpl (0 <=? 16 - 8).
      replace (Z.to_nat (len callsign - (len full - 16))) with (Z.to_nat (16 - 8)) by lia.
      done.
    + rewrite len_app, Hsuf, len_slice_to_nonneg by lia. lia.
  - split; [done|lia].
Qed.

(** ** [range] and the chunks of the selected list *)

Lemma range_up_seq (fuel : nat) (i stop step : Z) :
  0 < step -> stop - i <= Z.of_nat fuel ->
  range_up fuel i stop step =
    (fun k : nat => i + Z.of_nat k * step) <$> seq 0 (Z.to_nat ((stop - i + step - 1) / step)).
Proof.
  intros Hstep. revert i. induction fuel as [|f IH]; intros i Hfuel.
  - assert ((stop - i + step - 1) / step <= 0) as H.
    { apply Z.lt_succ_r. apply Z.div_lt_upper_bound; lia. }
    replace (Z.to_nat _) with 0%nat by lia. done.
  - simpl. destruct (Z.ltb_spec i stop) as [Hlt|Hge].
    + rewrite IH by lia.
      replace (stop - i + step - 1) with ((stop - (i + step) + step - 1) + 1 * step) by lia.
      rewrite Z.div_add by lia.
      assert (0 <= (stop - (i + step) + step - 1) / step) by (apply Z.div_pos; lia).
      replace (Z.to_nat (_ + 1)) with (S (Z.to_nat ((stop - (i + step) + step - 1) / step))) by lia.
      cbn [seq fmap list_fmap]. f_equal; [lia|].
      rewrite <- fmap_S_seq, <- list_fmap_compose.
      apply list_fmap_ext. intros _ k _. simpl. lia.
    + assert ((stop - i + step - 1) / step <= 0) as H.
      { apply Z.lt_succ_r. apply Z.div_lt_upper_bound; lia. }
      replace (Z.to_nat _) with 0%nat by lia. done.
Qed.

(** Number of chunks: the ceiling of [n / c], written on naturals. *)
Lemma chunk_count (n c : nat) :
  (0 < c)%nat ->
  exists m : nat,
    Z.to_nat ((Z.of_nat n + Z.of_nat c - 1) / Z.of_nat c) = m
    /\ ((m - 1) * c < n \/ (m = 0 /\ n = 0))%nat
    /\ (n <= m * c)%nat.
Proof.
  intros Hc. eexists. split; [done|].
  set (q := (Z.of_nat n + Z.of_nat c - 1) / Z.of_nat c).
  assert (0 <= q) by (apply Z.div_pos; lia).
  pose proof (Z.mul_div_le (Z.of_nat n + Z.of_nat c - 1) (Z.of_nat c) ltac:(lia)) as Hle.
  pose proof (Z.mul_succ_div_gt (Z.of_nat n + Z.of_nat c - 1) (Z.of_nat c) ltac:(lia)) as Hgt.
  fold q in Hle, Hgt.
  split.
  - destruct (decide (n = 0)%nat) as [->|Hn].
    + right. split; [|done]. nia.
    + left. nia.
  - nia.
Qed.

Lemma channel_chunks_pos (c : Z) (fl : list item) :
  0 < c ->
  channel_chunks c fl =
    Ok ((fun k : nat => take (Z.to_nat c) (drop (k * Z.to_nat c) fl))
          <$> seq 0 (Z.to_nat ((Z.of_nat (length fl) + c - 1) / c))).
Proof.
  intros Hc. unfold channel_chunks, range.
  destruct (Z.eqb_spec c 0); [lia|].
  destruct (Z.ltb_spec 0 c); [|lia].
  cbn [bind]. f_equal.
  rewrite range_up_seq by lia.
  rewrite <- list_fmap_compose. rewrite Z.sub_0_r.
  apply list_fmap_ext. intros _ k _. cbn. unfold slice.
  replace (Z.to_nat (0 + Z.of_nat k * c + c - (0 + Z.of_nat k * c))) with (Z.to_nat c) by lia.
  replace (Z.to_nat (0 + Z.of_nat k * c)) with (k * Z.to_nat c)%nat by nia.
  done.
Qed.

Lemma channel_chunks_zero (fl : list item) : channel_chunks 0 fl = Raise ValueError.
Proof. done. Qed.

Lemma channel_chunks_neg (c : Z) (fl : list item) : c < 0 -> channel_chunks c fl = Ok [].
Proof.
  intros Hc. unfold channel_chunks, range.
  destruct (Z.eqb_spec c 0); [lia|].
  destruct (Z.ltb_spec 0 c); [lia|].
  replace (Z.to_nat (0 - Z.of_nat (length fl))) with 0%nat by lia. done.
Qed.

(** ** Standard mode: the zones table *)

Lemma length_zone_channel_names (chunk : list item) :
  length (zone_channel_names chunk) = (2 * length chunk)%nat.
Proof.
  induction chunk as [|it r IH]; [done|].
  change (zone_channel_names (it :: r))
    with (ch_alias (item_callsign it) (city_abbr_of (item_city it)) 1
          :: ch_alias (item_callsign it) (city_abbr_of (item_city it)) 2
          :: zone_channel_names r).
  cbn [length]. rewrite IH. lia.
Qed.

(** C6: with [n] selected repeaters and a capacity [c > 0], the zones table
    has [ceil(n / c)] rows (the least [m] with [n <= m * c]); row [i] is
    numbered [i + 1] and lists the channels of the repeaters
    [fl[i*c : i*c + c]]; every row but the last has exactly [c] repeaters and
    [2 * c] member channels; the zone name is the base name when there is one
    chunk and ["{name} #{i + 1}"] otherwise. *)
Theorem zones_standard_spec (a : args) (fl : list item) :
  0 < args_zone_capacity a ->
  let c := Z.to_nat (args_zone_capacity a) in
  let n := length fl in
  exists zs : list zone_row,
    write_zones_standard a fl = Ok zs
    /\ Z.of_nat (length zs) = (Z.of_nat n + args_zone_capacity a - 1) / args_zone_capacity a
    /\ (((length zs - 1) * c < n)%nat \/ (length zs = 0 /\ n = 0)%nat)
    /\ (n <= length zs * c)%nat
    /\ forall (i : nat) (z : zone_row), zs !! i = Some z ->
         z_no z = Z.of_nat i + 1
         /\ z_name z = (if decide (length zs = 1%nat) then args_name a
                        else args_name a +:+ " #" +:+ str_of_Z (Z.of_nat i + 1))
         /\ z_members z = zone_channel_names (take c (drop (i * c) fl))
         /\ (S i < length zs ->
             length (take c (drop (i * c) fl)) = c
             /\ length (z_members z) = (2 * c)%nat)%nat.
Proof.
  intros Hc c n.
  unfold write_zones_standard. rewrite channel_chunks_pos by done. cbn [bind].
  eexists. split; [reflexivity|].
  destruct (chunk_count n c ltac:(lia)) as (m & Hm & Hlow & Hup).
  replace (Z.of_nat c) with (args_zone_capacity a) in Hm by lia.
  fold n. rewrite Hm.
  rewrite length_imap, length_fmap, length_seq.
  split.
  { rewrite <- Hm. rewrite Z2Nat.id; [done|]. apply Z.div_pos; lia. }
  split; [done|]. split; [done|].
  intros i z Hz.
  rewrite list_lookup_imap, list_lookup_fmap in Hz.
  destruct (seq 0 m !! i) as [k|] eqn:Hk; [|done].
  apply lookup_seq in Hk as [-> Hi]. simpl in Hz. injection Hz as <-. cbn.
  split; [done|]. split.
  { destruct (Nat.eqb_spec m 1); destruct (decide (m = 1%nat)); done. }
  split; [done|].
  intros Hlast. fold c.
  assert (length (take c (drop (i * c) fl)) = c) as Hlen.
  { rewrite length_take, length_drop. fold n.
    assert (S i * c <= (m - 1) * c)%nat by (apply Nat.mul_le_mono_r; lia).
    destruct Hlow as [Hlow|[-> _]]; [|lia].
    rewrite Nat.mul_succ_l in H. lia. }
  split; [done|].
  by rewrite length_zone_channel_names, Hlen.
Qed.

Lemma zones_standard_spec_witness :
  let a := Args "Home" Both Mcc (MccStr "1") 100 (0%Q, 0%Q) None false 2 None false false in
  let mk := fun (i : Z) (cs : string) =>
    Item (PInt i) cs "146.000" "146.600" "1" "Boston, MA" 0%Q 0%Q PNone "" (Some 1%nat) in
  exists zs, write_zones_standard a [mk 1 "K1AAA"; mk 2 "K1BBB"; mk 3 "K1CCC"] = Ok zs
    /\ Z.of_nat (length zs) = 2.
Proof.
  intros a mk.
  destruct (zones_standard_spec a [mk 1 "K1AAA"; mk 2 "K1BBB"; mk 3 "K1CCC"])
    as (zs & Hzs & Hlen & _); [done|].
  exists zs. split; [exact Hzs|].
  exact Hlen.
Defined.

(** ** Standard mode: [output_list] and the channels table *)

Lemma foldl_format_channel (acc : list out_row) (chunk : list item) :
  foldl format_channel acc chunk = acc ++ standard_rows chunk.
Proof.
  revert acc. induction chunk as [|it r IH]; intros acc.
  - by rewrite app_nil_r.
  - cbn [foldl]. rewrite IH. unfold format_channel. cbn [foldl].
    change (standard_rows (it :: r))
      with ([standard_row it 1; standard_row it 2] ++ standard_rows r).
    by rewrite <- !app_assoc.
Qed.

(** A loop whose body overwrites its accumulator keeps the value of the last
    round only. *)
Lemma foldl_overwrite {A B} (f : B -> A) (init : A) (l : list B) :
  foldl (fun _ x => f x) init l = from_option f init (last l).
Proof.
  induction l as [|x r IH] using rev_ind; [done|].
  by rewrite foldl_app, last_snoc.
Qed.

Lemma process_standard_last (c : Z) (fl : list item) (out0 : list out_row) :
  process_standard c fl out0 =
    let* chunks := channel_chunks c fl in
    Ok (from_option standard_rows out0 (last chunks)).
Proof.
  unfold process_standard. destruct (channel_chunks c fl) as [chunks|e]; [|done].
  cbn [bind]. f_equal.
  rewrite (foldl_overwrite (fun chunk => foldl format_channel [] chunk)).
  destruct (last chunks); [|done]. cbn. apply foldl_format_channel.
Qed.

Section StandardWriter.

Variable get_talkgroup_channels : pyval -> list (Z * Z).
Variable talkgroup_name : string -> option string.
Variable a : args.
Variable fl : list item.
Variable tg_rows : list (list string).
Hypothesis Hstd : args_talkgroups a = false.

Lemma write_channel_standard (i : Z) (ch : out_row) :
  write_channel get_talkgroup_channels talkgroup_name a fl tg_rows i ch =
    channel_row i (o_name ch) (o_rx ch) (o_tx ch) "Simplex" "99" (o_cc ch)
                (slot_of_name (o_name ch)).
Proof. unfold write_channel. by rewrite Hstd. Qed.

Lemma write_channels_standard (out : list out_row) :
  write_channels_csv get_talkgroup_channels talkgroup_name a fl tg_rows out =
    imap (fun i ch => channel_row (Z.of_nat i + 1) (o_name ch) (o_rx ch) (o_tx ch)
                        "Simplex" "99" (o_cc ch) (slot_of_name (o_name ch))) out.
Proof.
  unfold write_channels_csv. apply imap_ext. intros i ch _.
  apply write_channel_standard.
Qed.

End StandardWriter.

Lemma Forall_imap {A B} (P : B -> Prop) (f : nat -> A -> B) (l : list A) :
  (forall i x, l !! i = Some x -> P (f i x)) -> Forall P (imap f l).
Proof.
  intros H. apply Forall_lookup. intros i y Hy.
  rewrite list_lookup_imap in Hy.
  destruct (l !! i) as [x|] eqn:Hx; [|done].
  injection Hy as <-. by apply H.
Qed.

Lemma standard_rows_name (chunk : list item) (r : out_row) :
  r ∈ standard_rows chunk ->
  exists it slot, it ∈ chunk /\ (slot = 1 \/ slot = 2) /\ r = standard_row it slot.
Proof.
  unfold standard_rows. rewrite list_elem_of_In, in_flat_map.
  intros (it & Hit & Hr). exists it.
  apply list_elem_of_In in Hit.
  destruct Hr as [<- | [<- | []]]; [exists 1 | exists 2]; auto.
Qed.

Lemma length_standard_rows (chunk : list item) :
  length (standard_rows chunk) = (2 * length chunk)%nat.
Proof.
  induction chunk as [|it r IH]; [done|].
  change (standard_rows (it :: r))
    with (standard_row it 1 :: standard_row it 2 :: standard_rows r).
  cbn [length]. rewrite IH. lia.
Qed.

(** With one chunk ([0 < n <= c]) the table has the two rows of every
    selected repeater. *)
Lemma process_standard_one_chunk (c : Z) (fl : list item) :
  fl <> [] -> Z.of_nat (length fl) <= c ->
  process_standard c fl [] = Ok (standard_rows fl).
Proof.
  intros Hne Hle.
  assert (0 < length fl)%nat by (destruct fl; [done|simpl; lia]).
  rewrite process_standard_last, channel_chunks_pos by lia. cbn [bind].
  replace ((Z.of_nat (length fl) + c - 1) / c) with 1.
  - change (Z.to_nat 1) with 1%nat. cbn [seq fmap list_fmap Nat.mul drop last from_option].
    rewrite drop_0, take_ge by lia. done.
  - apply Z.div_unique with (r := Z.of_nat (length fl) - 1); lia.
Qed.

(** With more selected repeaters than the capacity, [output_list] holds the
    entries of the last chunk only when the table is written: fewer than two
    rows per selected repeater. *)
Lemma process_standard_many_chunks (c : Z) (fl : list item) :
  0 < c < Z.of_nat (length fl) ->
  exists out, process_standard c fl [] = Ok out
    /\ (length out <= 2 * Z.to_nat c < 2 * length fl)%nat.
Proof.
  intros [Hc Hn].
  rewrite process_standard_last, channel_chunks_pos by lia. cbn [bind].
  eexists. split; [reflexivity|].
  destruct (last _) as [chunk|] eqn:Hlast; cbn; [|lia].
  rewrite last_lookup, list_lookup_fmap in Hlast.
  destruct (seq _ _ !! _) as [k|]; [|done].
  injection Hlast as <-.
  rewrite length_standard_rows, length_take. lia.
Qed.

(** More selected repeaters than the capacity give more than one zone. *)
Lemma zones_many_rows (a : args) (fl : list item) :
  0 < args_zone_capacity a < Z.of_nat (length fl) ->
  exists zs, write_zones_standard a fl = Ok zs /\ (1 < length zs)%nat.
Proof.
  intros [Hc Hn]. unfold write_zones_standard.
  rewrite channel_chunks_pos by done. cbn [bind].
  eexists. split; [reflexivity|].
  rewrite length_imap, length_fmap, length_seq.
  assert (2 <= (Z.of_nat (length fl) + args_zone_capacity a - 1) / args_zone_capacity a).
  { apply Z.div_le_lower_bound; lia. }
  lia.
Qed.

(** C1 fails beyond one chunk: with a capacity [c > 0] and more than [c]
    selected repeaters the run succeeds, and the channels table holds the
    two rows of the repeaters of the last chunk only, numbered from 1: at
    most [2 * c] rows, fewer than the two rows per selected repeater of the
    claim. *)
Theorem standard_channels_last_chunk_only
    (get_talkgroup_channels : pyval -> list (Z * Z))
    (talkgroup_name : string -> option string)
    (a : args) (fl : list item) :
  args_talkgroups a = false ->
  0 < args_zone_capacity a < Z.of_nat (length fl) ->
  exists (t : tables) (chunks : list (list item)) (chunk : list item),
    standard_tables get_talkgroup_channels talkgroup_name a fl = Ok t
    /\ channel_chunks (args_zone_capacity a) fl = Ok chunks
    /\ (1 < length chunks)%nat
    /\ last chunks = Some chunk
    /\ col_name <$> channels_csv t = zone_channel_names chunk
    /\ col_no <$> channels_csv t
       = (fun k : nat => str_of_Z (Z.of_nat k + 1)) <$> seq 0 (2 * length chunk)
    /\ (length (channels_csv t) = 2 * length chunk)%nat
    /\ (length (channels_csv t) <= 2 * Z.to_nat (args_zone_capacity a))%nat
    /\ (length (channels_csv t) < 2 * length fl)%nat.
Proof.
  intros Hstd [Hc Hn].
  unfold standard_tables. rewrite process_standard_last.
  destruct (zones_many_rows a fl (conj Hc Hn)) as (zs & Hzs & Hlen).
  rewrite Hzs.
  unfold write_zones_standard in Hzs.
  destruct (channel_chunks (args_zone_capacity a) fl) as [chunks|e] eqn:Hchunks; [|done].
  cbn [bind] in Hzs |- *. injection Hzs as <-. rewrite length_imap in Hlen.
  destruct (last chunks) as [chunk|] eqn:Hlast.
  2:{ apply last_None in Hlast. subst chunks. cbn in Hlen. lia. }
  assert (length chunk <= Z.to_nat (args_zone_capacity a))%nat as Hcl.
  { rewrite channel_chunks_pos in Hchunks by done. injection Hchunks as <-.
    rewrite last_lookup, list_lookup_fmap in Hlast.
    destruct (seq _ _ !! _) as [k|]; [|done]. injection Hlast as <-.
    rewrite length_take. lia. }
  eexists _, chunks, chunk. split; [reflexivity|]. cbn [channels_csv from_option].
  rewrite write_channels_standard by done.
  assert (forall rows : list out_row,
            length (imap (fun i ch => channel_row (Z.of_nat i + 1) (o_name ch) (o_rx ch)
                                        (o_tx ch) "Simplex" "99" (o_cc ch)
                                        (slot_of_name (o_name ch))) rows)
            = length rows) as Hlen' by (intros; apply length_imap).
  split; [done|]. split; [done|]. split; [done|]. split; [|split; [|split; [|split]]].
  - rewrite fmap_imap. rewrite (imap_ext _ (const o_name)) by done.
    rewrite imap_const. clear. induction chunk as [|it r IH]; [done|].
    change (standard_rows (it :: r))
      with (standard_row it 1 :: standard_row it 2 :: standard_rows r).
    change (zone_channel_names (it :: r))
      with (ch_alias (item_callsign it) (city_abbr_of (item_city it)) 1
            :: ch_alias (item_callsign it) (city_abbr_of (item_city it)) 2
            :: zone_channel_names r).
    cbn [fmap list_fmap o_name standard_row]. by rewrite <- IH.
  - rewrite fmap_imap.
    rewrite (imap_ext _ (fun (k : nat) (_ : out_row) => str_of_Z (Z.of_nat k + 1))) by done.
    rewrite <- length_standard_rows. apply imap_seq_0.
  - by rewrite Hlen', length_standard_rows.
  - rewrite Hlen', length_standard_rows. lia.
  - rewrite Hlen', length_standard_rows. lia.
Qed.

Lemma standard_channels_last_chunk_only_witness :
  let a := Args "Home" Both Mcc (MccStr "1") 100 (0%Q, 0%Q) None false 2 None false false in
  let mk := fun (i : Z) (cs rx : string) =>
    Item (PInt i) cs rx "146.600" "1" "Boston, MA" 0%Q 0%Q PNone "" (Some 1%nat) in
  let fl := [mk 1 "K1AAA" "146.000"; mk 2 "K1BBB" "146.100"; mk 3 "K1CCC" "146.200"] in
  exists t, standard_tables (fun _ => []) (fun _ => None) a fl = Ok t
    /\ length (standard_rows fl) = 6%nat
    /\ (length (channels_csv t) < 6)%nat
    /\ col_no <$> channels_csv t = ["1"; "2"]
    /\ col_name <$> channels_csv t = ["K1CCC.BOS TS1"; "K1CCC.BOS TS2"]
    /\ z_members <$> zones_csv t =
         [["K1AAA.BOS TS1"; "K1AAA.BOS TS2"; "K1BBB.BOS TS1"; "K1BBB.BOS TS2"];
          ["K1CCC.BOS TS1"; "K1CCC.BOS TS2"]].
Proof.
  intros a mk fl.
  destruct (standard_channels_last_chunk_only (fun _ => []) (fun _ => None) a fl)
    as (t & chunks & chunk & Ht & _ & _ & _ & _ & _ & _ & _ & Hlt); [done|done|].
  exists t. split; [exact Ht|]. split; [reflexivity|]. split; [exact Hlt|].
  vm_compute in Ht. injection Ht as <-. by vm_compute.
Defined.

(** ** Talkgroup mode: zone names *)

Section ZonesTalkgroup.

Variable get_talkgroup_channels : pyval -> list (Z * Z).
Variable channels : list (list string).

Lemma zones_tg_names_from (fl : list item) (k : Z) (zs : list zone_row) :
  z_name <$> (foldl (zones_tg_step get_talkgroup_channels channels) (k, zs) fl).2 =
    (z_name <$> zs)
    ++ (zone_name_tg <$> filter (fun it => get_talkgroup_channels (item_id it) <> []) fl).
Proof.
  revert k zs. induction fl as [|it r IH]; intros k zs.
  - by rewrite app_nil_r.
  - cbn [foldl]. unfold zones_tg_step at 2.
    destruct (get_talkgroup_channels (item_id it)) as [|p ps] eqn:Hp.
    + rewrite IH. by rewrite filter_cons_False by (by rewrite Hp; intros []).
    + rewrite IH, fmap_app, <- app_assoc.
      by rewrite filter_cons_True by (by rewrite Hp).
Qed.

(** The zone names of talkgroup mode: one per repeater with at least one
    talkgroup pair, each the first 16 characters of
    ["{callsign}_{city with spaces turned into underscores}"]. *)
Lemma write_zones_tg_names (fl : list item) :
  z_name <$> write_zones_tg get_talkgroup_channels fl channels =
    zone_name_tg <$> filter (fun it => get_talkgroup_channels (item_id it) <> []) fl.
Proof. apply (zones_tg_names_from fl 1 []). Qed.

End ZonesTalkgroup.

(** C2 fails: the zones table of talkgroup mode names the zone of each
    repeater that has talkgroups by the first 16 characters of
    ["{callsign}_{city}"] with the spaces of the city turned into
    underscores; for ["K1AAA"] in ["New York, NY"] that is
    ["K1AAA_New_York"], while the zone alias of the claim is
    ["K1AAA_NewYork"]. *)
Theorem zone_name_keeps_underscores
    (get_talkgroup_channels : pyval -> list (Z * Z))
    (talkgroup_name : string -> option string)
    (a : args) (template : list (list string)) (fl : list item) :
  z_name <$> zones_csv (talkgroup_tables get_talkgroup_channels talkgroup_name a template fl)
  = zone_name_tg <$> filter (fun it => get_talkgroup_channels (item_id it) <> []) fl
  /\ zone_name_tg (Item (PInt 1) "K1AAA" "146.000" "146.600" "1" "New York, NY"
                       0%Q 0%Q PNone "" (Some 1%nat)) = "K1AAA_New_York"
  /\ zone_alias "K1AAA" "New York, NY" = "K1AAA_NewYork".
Proof.
  split; [|by vm_compute].
  unfold talkgroup_tables. cbn [zones_csv]. apply write_zones_tg_names.
Qed.

(** The two also differ on a 15-character callsign: the table keeps the
    underscore that the alias drops. *)
Lemma zone_name_long_callsign :
  zone_name_tg (Item (PInt 1) "ABCDEFGHIJKLMNO" "1" "2" "1" "Rome" 0%Q 0%Q PNone "" None)
    = "ABCDEFGHIJKLMNO_"
  /\ zone_alias "ABCDEFGHIJKLMNO" "Rome" = "ABCDEFGHIJKLMNO".
Proof. by vm_compute. Qed.

(** ** Characters of the strings that are split and stripped *)

Lemma all_chars_app (p : ascii -> bool) (s t : string) :
  all_chars p (s +:+ t) = all_chars p s && all_chars p t.
Proof.
  induction s as [|c s IH]; [done|].
  change (all_chars p (String c (s +:+ t)) = all_chars p (String c s) && all_chars p t).
  cbn [all_chars]. rewrite IH. by rewrite andb_assoc.
Qed.

Lemma all_chars_impl (p q : ascii -> bool) (s : string) :
  (forall c, p c = true -> q c = true) ->
  all_chars p s = true -> all_chars q s = true.
Proof.
  intros Hpq. induction s as [|c s IH]; [done|]. cbn [all_chars].
  rewrite !andb_true_iff. intros [Hc Hs]. auto.
Qed.

Lemma uint_digits (d : Decimal.uint) :
  all_chars isdigit_char (NilEmpty.string_of_uint d) = true.
Proof. induction d; cbn [NilEmpty.string_of_uint all_chars]; try done. Qed.

Lemma str_of_Z_chars (z : Z) : all_chars sign_or_digit (str_of_Z z) = true.
Proof.
  unfold str_of_Z. destruct (Z.to_int z) as [d|d]; cbn.
  - unfold NilZero.string_of_uint. destruct d; try done;
      apply (all_chars_impl isdigit_char); try apply uint_digits;
      intros c Hc; unfold sign_or_digit; by rewrite Hc.
  - unfold NilZero.string_of_uint. destruct d; try done;
      apply (all_chars_impl isdigit_char); try apply uint_digits;
      intros c Hc; unfold sign_or_digit; by rewrite Hc.
Qed.

Lemma str_of_Z_digits (z : Z) : 0 <= z -> isdigit (str_of_Z z) = true.
Proof.
  intros Hz. unfold str_of_Z.
  destruct z as [|p|p]; [done| |lia].
  cbn. unfold NilZero.string_of_uint.
  pose proof (uint_digits (Pos.to_uint p)) as H.
  destruct (Pos.to_uint p) eqn:E; try done.
Qed.

Lemma sign_or_digit_not_T (c : ascii) : sign_or_digit c = true -> not_T c = true.
Proof.
  unfold sign_or_digit, not_T, isdigit_char, nat_of.
  destruct (Ascii.eqb_spec c "T") as [->|]; [by vm_compute|done].
Qed.

Lemma sign_or_digit_not_space (c : ascii) : sign_or_digit c = true -> not_space c = true.
Proof.
  unfold sign_or_digit, not_space, isspace, isdigit_char, nat_of.
  destruct (Ascii.eqb_spec c "-") as [->|]; [by vm_compute|].
  rewrite orb_false_r, andb_true_iff, !Nat.leb_le. intros [H1 H2].
  apply negb_true_iff, orb_false_iff.
  split; apply andb_false_iff; right; apply Nat.leb_gt; lia.
Qed.

Lemma number_char_not_T (c : ascii) : number_char c = true -> not_T c = true.
Proof.
  unfold not_T. destruct (Ascii.eqb_spec c "T") as [->|]; [by vm_compute|done].
Qed.

(** [lstrip], [rstrip] and [strip] only remove whitespace. *)
Lemma lstrip_chars (q : ascii -> bool) (s : string) :
  all_chars (fun c => isspace c || q c) (lstrip s) = true ->
  all_chars (fun c => isspace c || q c) s = true.
Proof.
  induction s as [|c s IH]; [done|]. cbn [lstrip all_chars].
  destruct (isspace c) eqn:Hc.
  - cbn. exact IH.
  - cbn [all_chars]. by rewrite Hc.
Qed.

Lemma rstrip_chars (q : ascii -> bool) (s : string) :
  all_chars (fun c => isspace c || q c) (rstrip s) = true ->
  all_chars (fun c => isspace c || q c) s = true.
Proof.
  induction s as [|c s IH]; [done|]. cbn [rstrip all_chars].
  destruct (rstrip s) as [|d r] eqn:Hr.
  - destruct (isspace c) eqn:Hc; cbn [all_chars].
    + intros _. cbn. by apply IH.
    + rewrite Hc. cbn. rewrite andb_true_r. intros ->. by apply IH.
  - cbn [all_chars]. rewrite !andb_true_iff. intros [-> H]. split; [done|].
    apply IH. cbn [all_chars]. by rewrite andb_true_iff.
Qed.

Lemma strip_chars (q : ascii -> bool) (s : string) :
  all_chars (fun c => isspace c || q c) (strip s) = true ->
  all_chars (fun c => isspace c || q c) s = true.
Proof. intros H. by apply lstrip_chars, rstrip_chars. Qed.

Lemma strip_id (s : string) : all_chars not_space s = true -> strip s = s.
Proof.
  intros H. unfold strip.
  assert (lstrip s = s) as ->.
  { destruct s as [|c s]; [done|]. cbn in *.
    apply andb_true_iff in H as [Hc _]. unfold not_space in Hc.
    by apply negb_true_iff in Hc as ->. }
  induction s as [|c s IH]; [done|].
  cbn in *. apply andb_true_iff in H as [Hc Hs]. rewrite IH by done.
  unfold not_space in Hc. apply negb_true_iff in Hc as ->. by destruct s.
Qed.

Lemma isspace_int_isspace (c : ascii) : isspace_int c = true -> isspace c = true.
Proof. by destruct c as [[] [] [] [] [] [] [] []]. Qed.

(** [int()] only skips whitespace around the digits. *)
Lemma lstrip_int_chars (q : ascii -> bool) (s : string) :
  all_chars (fun c => isspace c || q c) (lstrip_int s) = true ->
  all_chars (fun c => isspace c || q c) s = true.
Proof.
  induction s as [|c s IH]; [done|]. cbn [lstrip_int all_chars].
  destruct (isspace_int c) eqn:Hc; [|done].
  rewrite (isspace_int_isspace c Hc). exact IH.
Qed.

Lemma rstrip_int_chars (q : ascii -> bool) (s : string) :
  all_chars (fun c => isspace c || q c) (rstrip_int s) = true ->
  all_chars (fun c => isspace c || q c) s = true.
Proof.
  induction s as [|c s IH]; [done|]. cbn [rstrip_int all_chars].
  destruct (rstrip_int s) as [|d r] eqn:Hr.
  - destruct (isspace_int c) eqn:Hc; cbn [all_chars].
    + intros _. rewrite (isspace_int_isspace c Hc). by apply IH.
    + rewrite andb_true_r. intros ->. by apply IH.
  - cbn [all_chars]. rewrite !andb_true_iff. intros [-> H]. split; [done|].
    apply IH. cbn [all_chars]. by rewrite andb_true_iff.
Qed.

Lemma strip_int_chars (q : ascii -> bool) (s : string) :
  all_chars (fun c => isspace c || q c) (strip_int s) = true ->
  all_chars (fun c => isspace c || q c) s = true.
Proof. intros H. by apply lstrip_int_chars, rstrip_int_chars. Qed.

Lemma strip_int_id (s : string) : all_chars not_space s = true -> strip_int s = s.
Proof.
  assert (forall c, not_space c = true -> isspace_int c = false) as Hns.
  { intros c Hc. unfold not_space in Hc. apply negb_true_iff in Hc.
    destruct (isspace_int c) eqn:E; [|done]. by rewrite (isspace_int_isspace c E) in Hc. }
  intros H. unfold strip_int.
  assert (lstrip_int s = s) as ->.
  { destruct s as [|c s]; [done|]. cbn in *.
    apply andb_true_iff in H as [Hc _]. by rewrite (Hns c Hc). }
  induction s as [|c s IH]; [done|].
  cbn in *. apply andb_true_iff in H as [Hc Hs]. rewrite IH by done.
  rewrite (Hns c Hc). by destruct s.
Qed.

Lemma digits_go_chars (acc : Z) (prev : bool) (s : string) (z : Z) :
  digits_go acc prev s = Some z ->
  all_chars (fun c => isdigit_char c || Ascii.eqb c "_") s = true.
Proof.
  revert acc prev. induction s as [|c s IH]; intros acc prev; [done|].
  cbn [digits_go all_chars].
  destruct (isdigit_char c) eqn:Hd; cbn.
  - apply IH.
  - destruct (Ascii.eqb c "_"); [|done]. cbn. destruct prev; [apply IH|done].
Qed.

Lemma int_of_str_chars (s : string) (z : Z) :
  int_of_str s = Ok z -> all_chars number_char s = true.
Proof.
  unfold int_of_str. intros H.
  apply (all_chars_impl
           (fun c => isspace c
                     || (isdigit_char c || Ascii.eqb c "_" || Ascii.eqb c "+" || Ascii.eqb c "-"))).
  { intros c. unfold number_char. by rewrite !orb_assoc. }
  apply strip_int_chars.
  assert (forall d o, match o with Some z => Ok z | None => Raise ValueError end = Ok z ->
            (o = digits_go 0 false d \/ o = Z.opp <$> digits_go 0 false d) ->
            all_chars (fun c => isdigit_char c || Ascii.eqb c "_") d = true) as Hd.
  { intros d o Ho [->| ->].
    - destruct (digits_go 0 false d) eqn:E; [|done]. by eapply digits_go_chars.
    - destruct (digits_go 0 false d) eqn:E; [|done]. by eapply digits_go_chars. }
  assert (forall d, all_chars (fun c => isdigit_char c || Ascii.eqb c "_") d = true ->
            all_chars (fun c => isspace c
              || (isdigit_char c || Ascii.eqb c "_" || Ascii.eqb c "+" || Ascii.eqb c "-")) d = true)
    as Hw.
  { intros d. apply all_chars_impl. intros c ->. by rewrite orb_true_r. }
  destruct (strip_int s) as [|c d] eqn:Hs; [done|].
  destruct (Ascii.eqb_spec c "+") as [->|Hp].
  { cbn [all_chars]. rewrite (Hw d); [done|]. eapply Hd; [exact H|by left]. }
  destruct (Ascii.eqb_spec c "-") as [->|Hm].
  { cbn [all_chars]. rewrite (Hw d); [done|]. eapply Hd; [exact H|by right]. }
  apply Hw. eapply (Hd (String c d)); [|by left].
  destruct c as [[] [] [] [] [] [] [] []]; try exact H; done.
Qed.

(** The decimal text of an id that [int()] accepts has no ["T"]. *)
Lemma id_text_no_T (v : pyval) (z : Z) :
  int v = Ok z -> all_chars not_T (str v) = true.
Proof.
  destruct v as [|n|s]; [done| |]; cbn [int str].
  - intros _. eapply all_chars_impl; [|apply str_of_Z_chars].
    apply sign_or_digit_not_T.
  - intros H. eapply all_chars_impl; [|by eapply int_of_str_chars].
    apply number_char_not_T.
Qed.

(** ** Splitting the URL of a talkgroup entry *)

Lemma app_nil_r_str (s : string) : s +:+ "" = s.
Proof.
  induction s as [|c s IH]; [done|].
  change (String c (s +:+ "") = String c s). by rewrite IH.
Qed.

Lemma rev_app_rev_app (d cur acc : string) :
  String.rev_app (String.rev_app d cur) acc = String.rev_app cur (d +:+ acc).
Proof.
  revert cur. induction d as [|c d IH]; intros cur; [done|].
  cbn [String.rev_app]. by rewrite IH.
Qed.

Lemma rev_rev_app (d : string) : String.rev (String.rev_app d "") = d.
Proof. unfold String.rev. rewrite rev_app_rev_app. cbn. apply app_nil_r_str. Qed.

Lemma prefix_TG_no_T (c : ascii) (s : string) :
  not_T c = true -> String.prefix "TG" (String c s) = false.
Proof.
  unfold not_T. intros H. cbn [String.prefix].
  destruct (ascii_dec "T" c) as [<-|]; [done|done].
Qed.

Lemma split_go_no_T (p cur rest : string) :
  all_chars not_T p = true ->
  split_go "TG" 0 cur (p +:+ rest) = split_go "TG" 0 (String.rev_app p cur) rest.
Proof.
  revert cur. induction p as [|c p IH]; intros cur; [done|].
  cbn [all_chars]. rewrite andb_true_iff. intros [Hc Hp].
  change (String c p +:+ rest) with (String c (p +:+ rest)).
  cbn [split_go]. rewrite prefix_TG_no_T by done.
  by rewrite IH.
Qed.

Lemma split_go_end (cur : string) : split_go "TG" 0 cur "" = [String.rev cur].
Proof. done. Qed.

Lemma split_go_sep (cur d : string) :
  split_go "TG" 0 cur ("TG" +:+ d) = String.rev cur :: split_go "TG" 0 "" d.
Proof. by destruct d. Qed.

(** [(p + "TG" + d).split("TG")] is [[p, d]] when neither [p] nor [d] has a
    ["T"]. *)
Lemma split_TG (p d : string) :
  all_chars not_T p = true -> all_chars not_T d = true ->
  split "TG" (p +:+ "TG" +:+ d) = [p; d].
Proof.
  intros Hp Hd. unfold split.
  rewrite split_go_no_T by done.
  rewrite (split_go_sep (String.rev_app p "") d), rev_rev_app. f_equal.
  rewrite <- (app_nil_r_str d) at 1.
  rewrite split_go_no_T by done. cbn. by rewrite rev_rev_app.
Qed.

Lemma contains_app_r (sub p s : string) :
  contains sub s = true -> contains sub (p +:+ s) = true.
Proof.
  intros H. induction p as [|c p IH]; [done|].
  change (String c p +:+ s) with (String c (p +:+ s)).
  cbn [contains]. rewrite IH. apply orb_true_r.
Qed.

Lemma contains_prefix (sub s : string) : contains sub (sub +:+ s) = true.
Proof.
  assert (String.prefix sub (sub +:+ s) = true) as H.
  { induction sub as [|c r IH]; [by destruct s|].
    change (String c r +:+ s) with (String c (r +:+ s)). cbn [String.prefix].
    destruct (ascii_dec c c); [exact IH|done]. }
  revert H. generalize (sub +:+ s). intros x H. destruct x; cbn [contains]; by rewrite H.
Qed.

Lemma talkgroup_url_split (it : item) (z tg : Z) :
  int (item_id it) = Ok z ->
  let url := repeater_url it +:+ " TG" +:+ str_of_Z tg in
  contains "TG" url = true
  /\ split "TG" url = [url_head it; str_of_Z tg]
  /\ strip (str_of_Z tg) = str_of_Z tg.
Proof.
  intros Hid url.
  assert (url = url_head it +:+ "TG" +:+ str_of_Z tg) as ->.
  { unfold url, url_head. by rewrite app_assoc_str. }
  split; [apply contains_app_r, contains_prefix|].
  split.
  - apply split_TG.
    + unfold url_head, repeater_url. rewrite !all_chars_app.
      rewrite (id_text_no_T _ _ Hid). done.
    + eapply all_chars_impl; [|apply str_of_Z_chars]. apply sign_or_digit_not_T.
  - apply strip_id. eapply all_chars_impl; [|apply str_of_Z_chars].
    apply sign_or_digit_not_space.
Qed.

(** [str] is injective on integers. *)
Lemma str_of_Z_inj (x y : Z) : str_of_Z x = str_of_Z y -> x = y.
Proof.
  assert (forall z, NilZero.int_of_string (str_of_Z z) = Some (Z.to_int z)) as H.
  { intros z. unfold str_of_Z. apply NilZero.isi.
    - destruct z as [|p|p]; cbn; try done.
      intros [= E]. by apply (DecimalPos.Unsigned.to_uint_nonnil p).
    - destruct z as [|p|p]; cbn; try done.
      intros [= E]. by apply (DecimalPos.Unsigned.to_uint_nonnil p). }
  intros E. apply DecimalZ.to_int_inj.
  pose proof (H x) as Hx. rewrite E, H in Hx. by injection Hx.
Qed.

Lemma str_of_Z_eqb (x y : Z) : String.eqb (str_of_Z x) (str_of_Z y) = (x =? y).
Proof.
  destruct (Z.eqb_spec x y) as [->|Hne].
  - apply String.eqb_refl.
  - apply String.eqb_neq. intros E. by apply Hne, str_of_Z_inj.
Qed.

(** ** Talkgroup mode: the row written for an entry *)

Section TalkgroupWriter.

Variable get_talkgroup_channels : pyval -> list (Z * Z).
Variable talkgroup_name : string -> option string.
Variable a : args.
Variable fl : list item.
Variable tg_rows : list (list string).
Hypothesis Htg : args_talkgroups a = true.

Lemma write_channel_talkgroup (i : Z) (it : item) (tg slot z : Z) :
  int (item_id it) = Ok z ->
  let row := write_channel get_talkgroup_channels talkgroup_name a fl tg_rows i
               (talkgroup_row it tg slot) in
  col_rx row = item_tx it
  /\ col_tx row = item_rx it
  /\ col_contact_id row = str_of_Z tg
  /\ col_slot row =
       talkgroup_slot get_talkgroup_channels fl (item_tx it) (item_rx it) (str_of_Z tg).
Proof.
  intros Hid row. subst row.
  destruct (talkgroup_url_split it z tg Hid) as (Hc & Hs & Hst).
  unfold write_channel, talkgroup_row. cbn [o_url o_rx o_tx o_cc o_name].
  rewrite Htg, Hc, Hs, Hst. cbn [andb].
  repeat match goal with
         | |- context [if ?b then _ else _] => destruct b
         end; done.
Qed.

End TalkgroupWriter.

(** ** The slot column *)

Lemma ch_alias_contains_suffix (callsign abbr : string) (slot : Z) :
  slot = 1 \/ slot = 2 ->
  contains ("TS" +:+ str_of_Z slot) (ch_alias callsign abbr slot) = true.
Proof.
  intros Hslot. unfold ch_alias.
  assert (contains ("TS" +:+ str_of_Z slot) (" TS" +:+ str_of_Z slot) = true) as H
    by (by destruct Hslot as [-> | ->]).
  destruct (16 <? _); [do 3 apply contains_app_r | apply contains_app_r]; exact H.
Qed.

Lemma slot_of_alias (callsign abbr : string) (slot : Z) :
  slot = 1 \/ slot = 2 ->
  slot_of_name (ch_alias callsign abbr slot) =
    if contains "TS1" (ch_alias callsign abbr slot) then "1" else "2".
Proof.
  intros Hslot. unfold slot_of_name.
  pose proof (ch_alias_contains_suffix callsign abbr slot Hslot) as H.
  destruct Hslot as [-> | ->].
  - change ("TS" +:+ str_of_Z 1) with "TS1" in H. by rewrite H.
  - change ("TS" +:+ str_of_Z 2) with "TS2" in H. by rewrite H.
Qed.

Lemma find_talkgroup_text (tg : Z) (l : list (Z * Z)) :
  List.find (fun p : Z * Z => String.eqb (str_of_Z p.1) (str_of_Z tg)) l
  = List.find (fun p : Z * Z => p.1 =? tg) l.
Proof.
  induction l as [|p ps IH]; [done|].
  cbn [List.find]. by rewrite str_of_Z_eqb, IH.
Qed.

(** The two tables at sample inputs: in standard mode the entry of timeslot
    2 of callsign ["TS1AB"] is written with slot ["1"], and in talkgroup
    mode the entry of the pair [(9, 2)] of a repeater whose pairs are
    [[(9, 1), (9, 2)]] is written with slot ["1"]. *)
Lemma slot_column_differs_from_record :
  let a := Args "Home" Both Mcc (MccStr "1") 100 (0%Q, 0%Q) None false 160 None false false in
  let a_tg := Args "" Both Mcc (MccStr "1") 100 (0%Q, 0%Q) None false 160 None true false in
  let it := Item (PInt 1) "TS1AB" "146.000" "146.600" "1" "Boston, MA"
                 0%Q 0%Q PNone "" (Some 1%nat) in
  let tg := fun _ : pyval => [(9, 1); (9, 2)] in
  let header := [["No."; "Radio ID"; "Name"; "Call Type"; "Call Alert"]] in
  exists (t : tables) (row row_tg : list string),
    standard_tables tg (fun _ => None) a [it] = Ok t
    /\ format_channel [] it !! 1%nat = Some (standard_row it 2)
    /\ channels_csv t !! 1%nat = Some row
    /\ col_name row = "TS1AB.BOS TS2"
    /\ col_slot row = "1"
    /\ col_slot row <> str_of_Z 2
    /\ process_talkgroups tg [it] !! 1%nat = Some (talkgroup_row it 9 2)
    /\ channels_csv (talkgroup_tables tg (fun _ => None) a_tg header [it]) !! 1%nat
       = Some row_tg
    /\ col_contact_id row_tg = "9"
    /\ col_slot row_tg = "1"
    /\ col_slot row_tg <> str_of_Z 2.
Proof.
  intros a a_tg it tg header. do 3 eexists.
  split; [reflexivity|]. split; [reflexivity|]. split; [reflexivity|].
  split; [reflexivity|]. split; [reflexivity|]. split; [by vm_compute|].
  split; [reflexivity|]. split; [reflexivity|]. split; [reflexivity|].
  split; [reflexivity|]. by vm_compute.
Qed.

(** How the slot column is derived.  In standard mode it is
    read off the display name (["1"] when the name contains ["TS1"],
    otherwise ["2"] when it contains ["TS2"]), so it is the record's
    timeslot exactly when the slot is 1 or the name has no ["TS1"]; in
    talkgroup mode it is looked up again in the talkgroup data by the
    channel's frequencies and talkgroup id, and it is the record's timeslot
    when the repeater is the first selected one with its frequencies and the
    pair is the first of its talkgroup. *)
Theorem slot_column_rederived
    (get_talkgroup_channels : pyval -> list (Z * Z))
    (talkgroup_name : string -> option string)
    (a_std a_tg : args) (fl : list item) (tg_rows : list (list string))
    (i : Z) (it : item) (slot tg tslot z : Z) :
  args_talkgroups a_std = false ->
  args_talkgroups a_tg = true ->
  slot = 1 \/ slot = 2 ->
  int (item_id it) = Ok z ->
  find_repeater fl (item_tx it) (item_rx it) = Some it ->
  List.find (fun p : Z * Z => p.1 =? tg) (get_talkgroup_channels (item_id it))
    = Some (tg, tslot) ->
  let srow := write_channel get_talkgroup_channels talkgroup_name a_std fl tg_rows i
                (standard_row it slot) in
  let trow := write_channel get_talkgroup_channels talkgroup_name a_tg fl tg_rows i
                (talkgroup_row it tg tslot) in
  col_slot srow = slot_of_name (col_name srow)
  /\ (col_slot srow = str_of_Z slot <-> slot = 1 \/ contains "TS1" (col_name srow) = false)
  /\ col_slot trow =
       talkgroup_slot get_talkgroup_channels fl (col_rx trow) (col_tx trow) (col_contact_id trow)
  /\ col_slot trow = str_of_Z tslot.
Proof.
  intros Hstd Htg Hslot Hid Hfirst Hpair srow trow.
  assert (col_slot srow = slot_of_name (col_name srow)) as Hs.
  { unfold srow. by rewrite write_channel_standard. }
  split; [exact Hs|]. split.
  { rewrite Hs. unfold srow. rewrite write_channel_standard by done.
    cbn [col_name col nth channel_row standard_row o_name].
    rewrite slot_of_alias by done.
    destruct (contains "TS1" _) eqn:Hc.
    - pose proof (ch_alias_contains_suffix (item_callsign it) (city_abbr_of (item_city it))
                    slot Hslot) as H.
      destruct Hslot as [-> | ->]; split; try done; auto.
      intros [?|?]; done.
    - destruct Hslot as [-> | ->]; [|split; [by right|done]].
      pose proof (ch_alias_contains_suffix (item_callsign it) (city_abbr_of (item_city it))
                    1 ltac:(by left)) as H.
      change ("TS" +:+ str_of_Z 1) with "TS1" in H. congruence. }
  destruct (write_channel_talkgroup get_talkgroup_channels talkgroup_name a_tg fl tg_rows
              Htg i it tg tslot z Hid) as (Hrx & Htx & Hcid & Hsl).
  fold trow in Hrx, Htx, Hcid, Hsl.
  rewrite Hrx, Htx, Hcid. split; [exact Hsl|].
  rewrite Hsl. unfold talkgroup_slot. rewrite Hfirst.
  rewrite find_talkgroup_text.
  by rewrite Hpair.
Qed.

Lemma slot_column_rederived_witness :
  let a := Args "Home" Both Mcc (MccStr "1") 100 (0%Q, 0%Q) None false 160 None false false in
  let a_tg := Args "" Both Mcc (MccStr "1") 100 (0%Q, 0%Q) None false 160 None true false in
  let it := Item (PInt 1) "K1AAA" "146.000" "146.600" "1" "Boston, MA"
                 0%Q 0%Q PNone "" (Some 1%nat) in
  let tg := fun _ : pyval => [(9, 1); (91, 2)] in
  col_slot (write_channel tg (fun _ => None) a [it] [] 2 (standard_row it 2)) = "2"
  /\ col_slot (write_channel tg (fun _ => None) a_tg [it] [] 2 (talkgroup_row it 91 2)) = "2".
Proof.
  intros a a_tg it tg.
  destruct (slot_column_rederived tg (fun _ => None) a a_tg [it] [] 2 it 2 91 2 1)
    as (_ & H2 & _ & H4); try reflexivity; [by right|].
  split; [|exact H4].
  apply H2. by right.
Defined.

(** C3 fails on the code.  The entries of [output_list] carry no timeslot
    (the parameter [timeslot] of [format_talkgroup_channel] is not used), so
    the writer derives the slot again.  In standard mode it reads it off the
    display name: the entry that [format_channel] emits for timeslot 2 is
    written with slot ["1"] when its name contains ["TS1"].  In talkgroup
    mode it asks the talkgroup data of the first selected repeater with the
    channel's frequencies for the first pair with the channel's id: an entry
    whose timeslot differs from that pair's is written with that pair's
    slot. *)
Theorem slot_column_misses_timeslot
    (get_talkgroup_channels : pyval -> list (Z * Z))
    (talkgroup_name : string -> option string)
    (a_std a_tg : args) (fl : list item) (tg_rows : list (list string))
    (i : Z) (it it0 : item) (tg tslot s0 z : Z) :
  args_talkgroups a_std = false ->
  args_talkgroups a_tg = true ->
  contains "TS1" (ch_alias (item_callsign it) (city_abbr_of (item_city it)) 2) = true ->
  int (item_id it) = Ok z ->
  find_repeater fl (item_tx it) (item_rx it) = Some it0 ->
  List.find (fun p : Z * Z => p.1 =? tg) (get_talkgroup_channels (item_id it0))
    = Some (tg, s0) ->
  tslot <> s0 ->
  let srow := write_channel get_talkgroup_channels talkgroup_name a_std fl tg_rows i
                (standard_row it 2) in
  let trow := write_channel get_talkgroup_channels talkgroup_name a_tg fl tg_rows i
                (talkgroup_row it tg tslot) in
  format_channel [] it !! 1%nat = Some (standard_row it 2)
  /\ col_name srow = ch_alias (item_callsign it) (city_abbr_of (item_city it)) 2
  /\ col_slot srow = "1"
  /\ col_slot srow <> str_of_Z 2
  /\ format_talkgroup_channel [] it tg tslot = [talkgroup_row it tg tslot]
  /\ col_contact_id trow = str_of_Z tg
  /\ col_slot trow = str_of_Z s0
  /\ col_slot trow <> str_of_Z tslot.
Proof.
  intros Hstd Htg Hname Hid Hfirst Hpair Hne srow trow.
  split; [done|].
  assert (col_name srow = ch_alias (item_callsign it) (city_abbr_of (item_city it)) 2
          /\ col_slot srow = "1") as [Hn Hs].
  { unfold srow. rewrite write_channel_standard by done.
    cbn [col_name col_slot col nth channel_row standard_row o_name].
    split; [done|]. unfold slot_of_name. by rewrite Hname. }
  split; [exact Hn|]. split; [exact Hs|]. split; [by rewrite Hs|]. split; [done|].
  destruct (write_channel_talkgroup get_talkgroup_channels talkgroup_name a_tg fl tg_rows
              Htg i it tg tslot z Hid) as (_ & _ & Hcid & Hsl).
  fold trow in Hcid, Hsl. split; [exact Hcid|].
  assert (col_slot trow = str_of_Z s0) as Ht.
  { rewrite Hsl. unfold talkgroup_slot. rewrite Hfirst, find_talkgroup_text.
    by rewrite Hpair. }
  split; [exact Ht|]. rewrite Ht. intros E. by apply Hne, str_of_Z_inj.
Qed.

Lemma slot_column_misses_timeslot_witness :
  let a := Args "Home" Both Mcc (MccStr "1") 100 (0%Q, 0%Q) None false 160 None false false in
  let a_tg := Args "" Both Mcc (MccStr "1") 100 (0%Q, 0%Q) None false 160 None true false in
  let it := Item (PInt 1) "TS1AB" "146.000" "146.600" "1" "Boston, MA"
                 0%Q 0%Q PNone "" (Some 1%nat) in
  let tg := fun _ : pyval => [(9, 1); (9, 2)] in
  let srow := write_channel tg (fun _ => None) a [it] [] 2 (standard_row it 2) in
  let trow := write_channel tg (fun _ => None) a_tg [it] [] 2 (talkgroup_row it 9 2) in
  format_channel [] it !! 1%nat = Some (standard_row it 2)
  /\ col_name srow = "TS1AB.BOS TS2"
  /\ col_slot srow = "1"
  /\ col_slot srow <> str_of_Z 2
  /\ format_talkgroup_channel [] it 9 2 = [talkgroup_row it 9 2]
  /\ col_contact_id trow = "9"
  /\ col_slot trow = "1"
  /\ col_slot trow <> str_of_Z 2.
Proof.
  intros a a_tg it tg srow trow.
  assert (2 <> 1) as Hne by lia.
  exact (slot_column_misses_timeslot tg (fun _ => None) a a_tg [it] [] 2 it it 9 2 1 1
           eq_refl eq_refl eq_refl eq_refl eq_refl eq_refl Hne).
Defined.

(** ** The sort of the repeater list *)

Lemma mapM_Ok {A B} (f : A -> result B) (l : list A) (ys : list B) :
  mapM f l = Ok ys -> Forall2 (fun x y => f x = Ok y) l ys.
Proof.
  revert ys. induction l as [|x l IH]; intros ys; cbn [mapM].
  - intros [= <-]. constructor.
  - destruct (f x) as [y|e] eqn:Hx; [|done]. cbn [bind].
    destruct (mapM f l) as [ys'|e]; [|done]. cbn [bind].
    intros [= <-]. constructor; [done|]. by apply IH.
Qed.

Lemma insert_sorted_perm (x : (string * Z) * item) (l : list ((string * Z) * item)) :
  insert_sorted x l ≡ₚ x :: l.
Proof.
  induction l as [|y l IH]; [done|]. cbn [insert_sorted].
  destruct (key_leb x.1 y.1); [done|].
  rewrite IH. apply Permutation_swap.
Qed.

Lemma sort_pairs_perm (l : list ((string * Z) * item)) : sort_pairs l ≡ₚ l.
Proof.
  induction l as [|x l IH]; [done|].
  cbn [sort_pairs foldr]. rewrite insert_sorted_perm. by constructor.
Qed.

Lemma string_compare_refl (s : string) : String.compare s s = Eq.
Proof.
  induction s as [|c s IH]; [done|]. cbn [String.compare].
  unfold Ascii.compare. by rewrite N.compare_refl.
Qed.

Lemma string_compare_lt_trans (s1 s2 s3 : string) :
  String.compare s1 s2 = Lt -> String.compare s2 s3 = Lt -> String.compare s1 s3 = Lt.
Proof.
  revert s2 s3. induction s1 as [|a1 s1 IH]; intros [|a2 s2] [|a3 s3]; cbn; try done.
  destruct (Ascii.compare a1 a2) eqn:H12; try done.
  - apply Ascii.compare_eq_iff in H12 as ->.
    destruct (Ascii.compare a2 a3); try done. apply IH.
  - intros _. destruct (Ascii.compare a2 a3) eqn:H23; try done.
    + apply Ascii.compare_eq_iff in H23 as <-. by rewrite H12.
    + assert (Ascii.compare a1 a3 = Lt) as ->; [|done].
      unfold Ascii.compare in *. rewrite N.compare_lt_iff in *. lia.
Qed.

Lemma key_le_total (k1 k2 : string * Z) : key_le k1 k2 \/ key_le k2 k1.
Proof.
  unfold key_le, key_leb.
  rewrite (String.compare_antisym k1.1 k2.1).
  destruct (String.compare k2.1 k1.1) eqn:E; cbn; auto.
  destruct (Z.leb_spec k1.2 k2.2); [by left|right]. apply Z.leb_le. lia.
Qed.

Lemma key_le_trans (k1 k2 k3 : string * Z) : key_le k1 k2 -> key_le k2 k3 -> key_le k1 k3.
Proof.
  unfold key_le, key_leb.
  destruct (String.compare k1.1 k2.1) eqn:E12; try done;
    destruct (String.compare k2.1 k3.1) eqn:E23; try done.
  - apply String.compare_eq_iff in E12, E23.
    rewrite E12, E23, string_compare_refl, !Z.leb_le. lia.
  - apply String.compare_eq_iff in E12. by rewrite E12, E23.
  - apply String.compare_eq_iff in E23. by rewrite <- E23, E12.
  - by rewrite (string_compare_lt_trans _ _ _ E12 E23).
Qed.

Lemma insert_sorted_sorted (x : (string * Z) * item) (l : list ((string * Z) * item)) :
  Sorted (fun p q => key_le p.1 q.1) l ->
  Sorted (fun p q => key_le p.1 q.1) (insert_sorted x l).
Proof.
  induction l as [|y l IH]; intros Hl; cbn [insert_sorted].
  - by repeat constructor.
  - destruct (key_leb x.1 y.1) eqn:E.
    + constructor; [done|]. by constructor.
    + apply Sorted_inv in Hl as [Hl Hy].
      constructor; [by apply IH|].
      assert (key_le y.1 x.1) as Hyx.
      { destruct (key_le_total x.1 y.1) as [H|H]; [|done].
        unfold key_le in H. congruence. }
      destruct l as [|z l]; cbn [insert_sorted].
      * by constructor.
      * destruct (key_leb x.1 z.1); constructor; [done|].
        by apply HdRel_inv in Hy.
Qed.

Lemma sort_pairs_sorted (l : list ((string * Z) * item)) :
  StronglySorted (fun p q => key_le p.1 q.1) (sort_pairs l).
Proof.
  apply Sorted_StronglySorted.
  { intros p q r. apply key_le_trans. }
  induction l as [|x l IH]; [constructor|].
  cbn [sort_pairs foldr]. by apply insert_sorted_sorted.
Qed.

(** [sorted] returns a permutation of its argument whose keys ascend. *)
Lemma sorted_spec (l sl : list item) :
  sorted l = Ok sl ->
  sl ≡ₚ l
  /\ exists ks, mapM sort_key sl = Ok ks /\ StronglySorted key_le ks.
Proof.
  unfold sorted. destruct (mapM sort_key l) as [ks|e] eqn:Hks; [|done].
  cbn [bind]. intros [= <-].
  pose proof (mapM_Ok _ _ _ Hks) as HF.
  assert (length l = length ks) as Hlen by (by eapply Forall2_length).
  split.
  - rewrite sort_pairs_perm. rewrite snd_zip by lia. done.
  - exists ((sort_pairs (zip ks l)).*1). split.
    + assert (Forall (fun p => sort_key p.2 = Ok p.1) (sort_pairs (zip ks l))) as HA.
      { rewrite sort_pairs_perm. clear Hks Hlen.
        induction HF as [|x k l' ks' Hx HF IH]; [constructor|].
        cbn. by constructor. }
      induction HA as [|p ps Hp HA IH]; [done|].
      cbn. rewrite Hp. cbn [bind]. by rewrite IH.
    + pose proof (sort_pairs_sorted (zip ks l)) as HS.
      induction HS as [|p ps HS IH Hp]; [constructor|].
      cbn. constructor; [done|].
      apply Forall_fmap. eapply Forall_impl; [exact Hp|]. done.
Qed.

(** The order of the sort, spelled out: of two records of a list whose keys
    are sorted, the earlier one has the smaller callsign (compared character
    by character, by character code) or the same callsign and an id that is
    not larger as an integer. *)
Lemma StronglySorted_lookup_lt {A} (R : relation A) (l : list A) (i j : nat) (x y : A) :
  StronglySorted R l -> (i < j)%nat -> l !! i = Some x -> l !! j = Some y -> R x y.
Proof.
  intros HS. revert i j. induction HS as [|z l HS IH Hz]; intros i j Hij Hi Hj; [done|].
  destruct j as [|j]; [lia|]. cbn in Hj. destruct i as [|i].
  - cbn in Hi. injection Hi as <-. rewrite Forall_forall in Hz. apply Hz.
    by eapply list_elem_of_lookup_2.
  - cbn in Hi. apply (IH i j); [lia|done|done].
Qed.

Lemma keys_ascending (l : list item) (ks : list (string * Z)) :
  mapM sort_key l = Ok ks -> StronglySorted key_le ks ->
  forall (i j : nat) (x y : item),
    (i < j)%nat -> l !! i = Some x -> l !! j = Some y ->
    exists zx zy : Z,
      int (item_id x) = Ok zx /\ int (item_id y) = Ok zy
      /\ (String.compare (item_callsign x) (item_callsign y) = Lt
          \/ (item_callsign x = item_callsign y /\ zx <= zy)).
Proof.
  intros Hks HS i j x y Hij Hi Hj.
  apply mapM_Ok in Hks.
  destruct (Forall2_lookup_l _ _ _ _ _ Hks Hi) as (kx & Hkx & Hx).
  destruct (Forall2_lookup_l _ _ _ _ _ Hks Hj) as (ky & Hky & Hy).
  pose proof (StronglySorted_lookup_lt _ _ _ _ _ _ HS Hij Hkx Hky) as Hle.
  unfold sort_key in Hx, Hy.
  destruct (int (item_id x)) as [zx|] eqn:Ex; [|done].
  destruct (int (item_id y)) as [zy|] eqn:Ey; [|done].
  cbn [bind] in Hx, Hy. injection Hx as <-. injection Hy as <-.
  exists zx, zy. split; [done|]. split; [done|].
  unfold key_le, key_leb in Hle. cbn [fst snd] in Hle.
  destruct (String.compare (item_callsign x) (item_callsign y)) eqn:Ec; [|by left|done].
  right. split; [by apply String.compare_eq_iff|lia].
Qed.

Lemma sorted_ascending (l sl : list item) :
  sorted l = Ok sl ->
  forall (i j : nat) (x y : item),
    (i < j)%nat -> sl !! i = Some x -> sl !! j = Some y ->
    exists zx zy : Z,
      int (item_id x) = Ok zx /\ int (item_id y) = Ok zy
      /\ (String.compare (item_callsign x) (item_callsign y) = Lt
          \/ (item_callsign x = item_callsign y /\ zx <= zy)).
Proof.
  intros Hs. destruct (sorted_spec _ _ Hs) as (_ & ks & Hks & HS).
  by apply (keys_ascending sl ks).
Qed.

(** ** The selection loop *)

Lemma foldM_snoc {A S} (f : S -> A -> result S) (l : list A) (x : A) (s : S) :
  foldM f (l ++ [x]) s = let* s' := foldM f l s in f s' x.
Proof.
  revert s. induction l as [|y l IH]; intros s; cbn [foldM app].
  - cbn [bind]. by destruct (f s x).
  - destruct (f s y) as [s'|e]; cbn [bind]; [apply IH|done].
Qed.

Lemma same_triple_spec (x y : item) : same_triple x y = true <-> triple x = triple y.
Proof.
  unfold same_triple, triple. rewrite !andb_true_iff, !String.eqb_eq.
  split; [intros [[-> ->] ->]; done|]. by intros [= -> -> ->].
Qed.

Lemma existsb_same_triple (y : item) (fl : list item) :
  existsb (same_triple y) fl = true <-> triple y ∈ triple <$> fl.
Proof.
  rewrite existsb_exists, list_elem_of_fmap. split.
  - intros (x & Hx & Hxy). exists x. split; [by apply same_triple_spec|].
    by apply list_elem_of_In.
  - intros (x & Hxy & Hx). exists x. split; [by apply list_elem_of_In|].
    by apply same_triple_spec.
Qed.

Section Loop.

Variable check_distance : Q * Q -> Q * Q -> Q.
Variable a : args.

(** What one round of the loop does. *)
Lemma filter_step_cases (st st' : sel_state) (x : item) :
  filter_step check_distance a st x = Ok st' ->
  (candidate check_distance a x = None /\ st' = st)
  \/ (exists y, candidate check_distance a x = Some y
        /\ triple y ∈ triple <$> filtered_list st /\ st' = st)
  \/ (exists y, candidate check_distance a x = Some y
        /\ (triple y ∉ triple <$> filtered_list st)
        /\ st' = SelState
             (filtered_list st
                ++ [set_turn y (default 0%nat (existing st !! item_callsign y) + 1)])
             (<[item_callsign y := (default 0%nat (existing st !! item_callsign y) + 1)%nat]>
                (existing st))).
Proof.
  unfold filter_step, candidate.
  destruct (passes check_distance a x) as [[|]|e]; cbn [bind negb]; [| |done].
  - destruct (normalize x) as [cs|e]; cbn [bind]; [|done].
    destruct (existsb _ _) eqn:Hdup.
    + intros [= <-]. right. left. eexists. split; [done|].
      split; [|done]. by apply existsb_same_triple.
    + intros [= <-]. right. right. eexists. split; [done|].
      split; [|done]. rewrite <- existsb_same_triple. by rewrite Hdup.
  - intros [= <-]. by left.
Qed.

Lemma selection_inv_init : selection_inv check_distance a [] sel_init.
Proof.
  unfold selection_inv, sel_init. cbn.
  split; [constructor|]. split; [done|]. split; [done|].
  split; [by intros r ?%elem_of_nil|]. by intros x y ?%elem_of_nil.
Qed.

Lemma selection_inv_skip (l : list item) (st : sel_state) (x : item) :
  selection_inv check_distance a l st ->
  (forall y, candidate check_distance a x = Some y ->
     triple y ∈ triple <$> filtered_list st) ->
  selection_inv check_distance a (l ++ [x]) st.
Proof.
  intros (Hnd & Hcnt & Hturn & Hprov & Hcompl) Hx.
  split; [done|]. split; [done|]. split; [done|]. split.
  - intros r Hr. destruct (Hprov r Hr) as (i & x0 & y & n & Hi & Hc & -> & Hfirst).
    exists i, x0, y, n. pose proof (lookup_lt_Some _ _ _ Hi) as Hlt.
    split; [by rewrite lookup_app_l|]. split; [done|]. split; [done|].
    intros j x' y' Hj Hl Hc'. rewrite lookup_app_l in Hl by lia.
    by eapply Hfirst.
  - intros x' y Hin Hc. apply elem_of_app in Hin as [Hin|Hin].
    + by eapply Hcompl.
    + apply list_elem_of_singleton in Hin as ->. by apply Hx.
Qed.

Lemma selection_inv_add (l : list item) (st : sel_state) (x y : item) :
  selection_inv check_distance a l st ->
  candidate check_distance a x = Some y ->
  triple y ∉ (triple <$> filtered_list st) ->
  selection_inv check_distance a (l ++ [x])
    (SelState
       (filtered_list st ++ [set_turn y (default 0%nat (existing st !! item_callsign y) + 1)])
       (<[item_callsign y := (default 0%nat (existing st !! item_callsign y) + 1)%nat]>
          (existing st))).
Proof.
  intros (Hnd & Hcnt & Hturn & Hprov & Hcompl) Hc Hnew.
  set (n := (default 0%nat (existing st !! item_callsign y) + 1)%nat).
  unfold selection_inv. cbn [filtered_list existing].
  assert (forall cs,
            filter (fun it => item_callsign it = cs) (filtered_list st ++ [set_turn y n])
            = filter (fun it => item_callsign it = cs) (filtered_list st)
              ++ (if decide (item_callsign y = cs) then [set_turn y n] else [])) as Hfilter.
  { intros cs. by rewrite filter_app. }
  split; [|split; [|split; [|split]]].
  - rewrite fmap_app. apply NoDup_app. split; [done|]. split.
    + intros t Ht Ht'. apply list_elem_of_singleton in Ht'. by subst t.
    + apply NoDup_singleton.
  - intros cs. rewrite Hfilter, length_app.
    destruct (decide (item_callsign y = cs)) as [E|E].
    + subst cs. rewrite lookup_insert_eq. cbn. unfold n. by rewrite Hcnt.
    + rewrite lookup_insert_ne by done. rewrite Hcnt. cbn. lia.
  - intros cs. unfold turns_of. rewrite Hfilter, fmap_app, length_app.
    fold (turns_of cs (filtered_list st)). rewrite Hturn.
    destruct (decide (item_callsign y = cs)) as [E|E].
    + subst cs. cbn [length fmap list_fmap item_turn set_turn].
      rewrite seq_app, fmap_app. cbn. unfold n. rewrite Hcnt. do 3 f_equal. lia.
    + cbn. by rewrite Nat.add_0_r, app_nil_r.
  - intros r Hr. apply elem_of_app in Hr as [Hr|Hr].
    + destruct (Hprov r Hr) as (i & x0 & y0 & n0 & Hi & Hc0 & -> & Hfirst).
      exists i, x0, y0, n0. pose proof (lookup_lt_Some _ _ _ Hi) as Hlt.
      split; [by rewrite lookup_app_l|]. split; [done|]. split; [done|].
      intros j x' y' Hj Hl Hc'. rewrite lookup_app_l in Hl by lia.
      by eapply Hfirst.
    + apply list_elem_of_singleton in Hr as ->.
      exists (length l), x, y, n.
      split; [by rewrite list_lookup_middle|]. split; [done|]. split; [done|].
      intros j x' y' Hj Hl Hc' E.
      rewrite lookup_app_l in Hl by done.
      apply Hnew. rewrite <- E. eapply Hcompl; [|done].
      by eapply list_elem_of_lookup_2.
  - intros x' y' Hin Hc'. rewrite fmap_app. apply elem_of_app.
    apply elem_of_app in Hin as [Hin|Hin].
    + left. by eapply Hcompl.
    + apply list_elem_of_singleton in Hin as ->.
      right. rewrite Hc in Hc'. injection Hc' as <-.
      apply list_elem_of_singleton. done.
Qed.

Lemma selection_inv_loop (l : list item) (st : sel_state) :
  foldM (filter_step check_distance a) l sel_init = Ok st ->
  selection_inv check_distance a l st.
Proof.
  revert st. induction l as [|x l IH] using rev_ind; intros st.
  - cbn. intros [= <-]. apply selection_inv_init.
  - rewrite foldM_snoc.
    destruct (foldM (filter_step check_distance a) l sel_init) as [st0|e]; [|done].
    cbn [bind]. intros Hstep. specialize (IH st0 eq_refl).
    destruct (filter_step_cases _ _ _ Hstep) as [[Hc ->]|[(y & Hc & Hin & ->)|(y & Hc & Hin & ->)]].
    + apply selection_inv_skip; [done|]. intros y. by rewrite Hc.
    + apply selection_inv_skip; [done|]. intros y'. rewrite Hc. by intros [= <-].
    + by apply selection_inv_add.
Qed.

End Loop.

(** ** Selection: deduplication, [turn] and the normalisation step *)

Section SelectionResults.

Variable check_distance : Q * Q -> Q * Q -> Q.
Variable a : args.

Lemma filter_list_inv (json_list fl : list item) :
  filter_list check_distance a json_list = Ok fl ->
  exists sl st,
    sorted json_list = Ok sl
    /\ foldM (filter_step check_distance a) sl sel_init = Ok st
    /\ filtered_list st = fl
    /\ selection_inv check_distance a sl st.
Proof.
  unfold filter_list.
  destruct (sorted json_list) as [sl|e]; [|done]. cbn [bind].
  destruct (foldM _ sl sel_init) as [st|e] eqn:Hloop; [|done]. cbn [bind].
  intros [= <-]. exists sl, st.
  split; [done|]. split; [done|]. split; [done|]. by apply selection_inv_loop.
Qed.

(** C5: after selection no two retained records share [(rx, tx, callsign)].
    The records are visited in the order [sl], a rearrangement of the input
    in which an earlier record has the smaller callsign (by character code)
    or the same callsign and an id that is not larger as an integer; each
    retained record is the first record of [sl], among those that passed
    the filters, with its triple, and every such record has its triple
    retained. *)
Theorem selection_dedup (json_list fl : list item) :
  filter_list check_distance a json_list = Ok fl ->
  NoDup (triple <$> fl)
  /\ exists sl : list item,
       sorted json_list = Ok sl
       /\ sl ≡ₚ json_list
       /\ (forall (i j : nat) (x y : item),
             (i < j)%nat -> sl !! i = Some x -> sl !! j = Some y ->
             exists zx zy : Z,
               int (item_id x) = Ok zx /\ int (item_id y) = Ok zy
               /\ (String.compare (item_callsign x) (item_callsign y) = Lt
                   \/ (item_callsign x = item_callsign y /\ zx <= zy)))
       /\ (forall r, r ∈ fl ->
             exists (i : nat) (x y : item) (n : nat),
               sl !! i = Some x
               /\ candidate check_distance a x = Some y
               /\ r = set_turn y n
               /\ forall (j : nat) (x' y' : item),
                    (j < i)%nat -> sl !! j = Some x' ->
                    candidate check_distance a x' = Some y' -> triple y' <> triple r)
       /\ (forall x y, x ∈ sl -> candidate check_distance a x = Some y ->
             exists r, r ∈ fl /\ triple r = triple y).
Proof.
  intros H. destruct (filter_list_inv _ _ H) as (sl & st & Hs & _ & <- & Hinv).
  destruct Hinv as (Hnd & _ & _ & Hprov & Hcompl).
  destruct (sorted_spec _ _ Hs) as (Hperm & _).
  split; [done|]. exists sl. split; [done|]. split; [done|].
  split; [by apply (sorted_ascending json_list)|]. split.
  - intros r Hr. destruct (Hprov r Hr) as (i & x & y & n & Hi & Hc & -> & Hfirst).
    by exists i, x, y, n.
  - intros x y Hx Hc. specialize (Hcompl x y Hx Hc).
    apply list_elem_of_fmap in Hcompl as (r & Hr & Hin). by exists r.
Qed.

(** C9: for each callsign the [turn] annotations of the retained records
    with that callsign are 1, 2, 3, ... in retention order. *)
Theorem selection_turns (json_list fl : list item) (cs : string) :
  filter_list check_distance a json_list = Ok fl ->
  turns_of cs fl
  = Some <$> seq 1 (length (filter (fun it => item_callsign it = cs) fl)).
Proof.
  intros H. destruct (filter_list_inv _ _ H) as (sl & st & _ & _ & <- & Hinv).
  destruct Hinv as (_ & _ & Hturn & _). apply Hturn.
Qed.

Lemma split_ws_all_space (s : string) : all_space s = true -> split_ws s = [].
Proof.
  unfold all_space, split_ws. induction s as [|c s IH]; [done|].
  cbn [all_chars split_ws_go]. rewrite andb_true_iff. intros [-> Hs]. by apply IH.
Qed.

Lemma foldM_Ok_each {A S} (f : S -> A -> result S) (l : list A) (s s' : S) (x : A) :
  foldM f l s = Ok s' -> x ∈ l -> exists s1 s2, f s1 x = Ok s2.
Proof.
  revert s. induction l as [|y l IH]; intros s H Hx; [by apply elem_of_nil in Hx|].
  cbn [foldM] in H. destruct (f s y) as [s1|e] eqn:Hy; [|done]. cbn [bind] in H.
  apply elem_of_cons in Hx as [->|Hx]; [by eauto|]. by eapply IH.
Qed.

(** C10: the normalisation step is not total.  A record that passed the
    filters and whose callsign is non-empty whitespace raises [IndexError]
    (no first token), one whose callsign is empty and whose id is a number
    raises [AttributeError] (the number has no [split]); the round of the
    loop raises whatever was retained before, and [filter_list] raises on
    every list that holds such a record. *)
Theorem normalization_raises (json_list : list item) (it : item) :
  it ∈ json_list ->
  passes check_distance a it = Ok true ->
  (item_callsign it <> "" /\ all_space (item_callsign it) = true)
  \/ (item_callsign it = "" /\ exists z, item_id it = PInt z) ->
  let e := if String.eqb (item_callsign it) "" then AttributeError else IndexError in
  normalize it = Raise e
  /\ (forall st, filter_step check_distance a st it = Raise e)
  /\ exists e', filter_list check_distance a json_list = Raise e'.
Proof.
  intros Hin Hpass Hcase e.
  assert (normalize it = Raise e) as Hn.
  { unfold normalize, e. destruct Hcase as [[Hne Hsp]|[-> [z ->]]].
    - apply String.eqb_neq in Hne. rewrite Hne. cbn [bind].
      by rewrite split_ws_all_space.
    - done. }
  assert (forall st, filter_step check_distance a st it = Raise e) as Hstep.
  { intros st. unfold filter_step. rewrite Hpass. cbn [bind negb]. by rewrite Hn. }
  split; [done|]. split; [done|].
  destruct (filter_list check_distance a json_list) as [fl|e'] eqn:Hfl; [|by eauto].
  exfalso.
  destruct (filter_list_inv _ _ Hfl) as (sl & st & Hs & Hloop & _).
  destruct (sorted_spec _ _ Hs) as [Hperm _].
  assert (it ∈ sl) as Hin' by (by rewrite Hperm).
  destruct (foldM_Ok_each _ _ _ _ _ Hloop Hin') as (s1 & s2 & Hok).
  by rewrite Hstep in Hok.
Qed.

End SelectionResults.

Lemma selection_dedup_witness :
  let a := Args "Home" Both Mcc (MccStr "") 100 (0%Q, 0%Q) None false 160 None false false in
  let mk := fun (i cs rx : string) =>
    Item (PStr i) cs rx "146.600" "1" "Boston, MA" 0%Q 0%Q PNone "" None in
  let json_list := [mk "10" "K1AAA" "146.100"; mk "9" "K1AAA" "146.100";
                    mk "5" "K1AAA /R" "146.100"; mk "2" "K1CCC" "146.000"] in
  exists fl sl,
    filter_list (fun _ _ => 0%Q) a json_list = Ok fl
    /\ sorted json_list = Ok sl
    /\ item_id <$> sl = [PStr "9"; PStr "10"; PStr "5"; PStr "2"]
    /\ item_id <$> fl = [PStr "9"; PStr "2"]
    /\ NoDup (triple <$> fl)
    /\ exists zx zy : Z,
         int (PStr "9") = Ok zx /\ int (PStr "10") = Ok zy
         /\ (String.compare "K1AAA" "K1AAA" = Lt \/ ("K1AAA" = "K1AAA" /\ zx <= zy)).
Proof.
  intros a mk json_list.
  destruct (filter_list (fun _ _ => 0%Q) a json_list) as [fl|e] eqn:Hfl;
    [|by vm_compute in Hfl].
  destruct (selection_dedup (fun _ _ => 0%Q) a json_list fl Hfl)
    as (Hnd & sl & Hs & _ & Hasc & _).
  exists fl, sl. split; [done|]. split; [done|].
  vm_compute in Hs. injection Hs as <-.
  split; [done|]. split; [vm_compute in Hfl; by injection Hfl as <-|].
  split; [done|].
  exact (Hasc 0%nat 1%nat _ _ (Nat.lt_0_succ 0) eq_refl eq_refl).
Defined.

Lemma selection_turns_witness :
  let a := Args "Home" Both Mcc (MccStr "1") 100 (0%Q, 0%Q) None false 160 None false false in
  let mk := fun (i : Z) (cs rx : string) =>
    Item (PInt i) cs rx "146.600" "1" "Boston, MA" 0%Q 0%Q PNone "" None in
  let json_list := [mk 13 "K1CCC" "146.000"; mk 12 "K1AAA /R" "146.100";
                    mk 11 "K1AAA" "146.100"; mk 14 "K1AAA" "147.000"] in
  exists fl, filter_list (fun _ _ => 0%Q) a json_list = Ok fl
    /\ turns_of "K1AAA" fl = [Some 1%nat; Some 2%nat].
Proof.
  intros a mk json_list.
  destruct (filter_list (fun _ _ => 0%Q) a json_list) as [fl|e] eqn:Hfl;
    [|by vm_compute in Hfl].
  exists fl. split; [done|].
  rewrite (selection_turns (fun _ _ => 0%Q) a json_list fl "K1AAA" Hfl).
  vm_compute in Hfl. by injection Hfl as <-.
Defined.

Lemma normalization_raises_witness :
  let a := Args "Home" Both Mcc (MccStr "1") 100 (0%Q, 0%Q) None false 160 None false false in
  let blank := Item (PInt 11) "  " "146.000" "146.600" "1" "Boston, MA" 0%Q 0%Q PNone "" None in
  let anon := Item (PInt 12) "" "146.000" "146.600" "1" "Boston, MA" 0%Q 0%Q PNone "" None in
  normalize blank = Raise IndexError /\ normalize anon = Raise AttributeError.
Proof.
  intros a blank anon. split.
  - apply (normalization_raises (fun _ _ => 0%Q) a [blank] blank).
    + by apply list_elem_of_singleton.
    + reflexivity.
    + left. by split.
  - apply (normalization_raises (fun _ _ => 0%Q) a [anon] anon).
    + by apply list_elem_of_singleton.
    + reflexivity.
    + right. split; [reflexivity|]. by exists 12.
Defined.

(** The two cases on one-record lists. *)
Lemma filter_list_raises_examples :
  let a := Args "Home" Both Mcc (MccStr "1") 100 (0%Q, 0%Q) None false 160 None false false in
  let blank := Item (PInt 11) "  " "146.000" "146.600" "1" "Boston, MA" 0%Q 0%Q PNone "" None in
  let anon := Item (PInt 12) "" "146.000" "146.600" "1" "Boston, MA" 0%Q 0%Q PNone "" None in
  let named := Item (PStr "12") "" "146.000" "146.600" "1" "Boston, MA" 0%Q 0%Q PNone "" None in
  filter_list (fun _ _ => 0%Q) a [blank] = Raise IndexError
  /\ filter_list (fun _ _ => 0%Q) a [anon] = Raise AttributeError
  /\ item_callsign <$> (match filter_list (fun _ _ => 0%Q) a [named] with
                        | Ok fl => fl | Raise _ => [] end) = ["12"].
Proof. by vm_compute. Qed.

(** ** The power filter *)

Lemma digits_go_digits (acc : Z) (prev : bool) (s : string) :
  all_chars isdigit_char s = true ->
  (s <> "" \/ prev = true) ->
  exists v, digits_go acc prev s = Some v.
Proof.
  revert acc prev. induction s as [|c s IH]; intros acc prev Hs Hne.
  - destruct Hne as [?| ->]; [done|]. by eexists.
  - cbn [all_chars] in Hs. apply andb_true_iff in Hs as [Hc Hs].
    cbn [digits_go]. rewrite Hc. apply IH; [done|by right].
Qed.

Lemma isdigit_chars (s : string) :
  isdigit s = true -> s <> "" /\ all_chars isdigit_char s = true.
Proof. by destruct s. Qed.

Lemma isdigit_int_of_str (s : string) :
  isdigit s = true -> exists v, int_of_str s = Ok v.
Proof.
  intros [Hne Hd]%isdigit_chars. unfold int_of_str.
  rewrite strip_int_id.
  2:{ eapply all_chars_impl; [|exact Hd]. intros c Hc.
      apply sign_or_digit_not_space. unfold sign_or_digit. by rewrite Hc. }
  destruct (digits_go_digits 0 false s Hd ltac:(by left)) as [v Hv].
  exists v. destruct s as [|c r]; [done|].
  cbn [all_chars] in Hd. apply andb_true_iff in Hd as [Hc _].
  assert (c <> "+"%char /\ c <> "-"%char) as [Hp Hm].
  { split; intros ->; by vm_compute in Hc. }
  assert (match String c r with
          | String "+" d => digits_go 0 false d
          | String "-" d => Z.opp <$> digits_go 0 false d
          | _ => digits_go 0 false (String c r)
          end = digits_go 0 false (String c r)) as ->.
  { destruct c as [[] [] [] [] [] [] [] []]; done. }
  by rewrite Hv.
Qed.

Lemma isdigit_int (p : pyval) :
  isdigit (str p) = true -> exists v, int p = Ok v.
Proof.
  destruct p as [|z|s]; cbn [str int]; [done|by eauto|apply isdigit_int_of_str].
Qed.

Lemma str_zero_int (p : pyval) : str p = "0" -> int p = Ok 0.
Proof.
  destruct p as [|z|s]; cbn [str int]; [done| |by intros ->].
  change "0" with (str_of_Z 0). by intros ->%str_of_Z_inj.
Qed.

Section PowerFilter.

Variable a : args.

(** Without the flag no record is skipped on power grounds. *)
Lemma pep_skip_absent (it : item) : args_pep a = None -> pep_skip a it = Ok false.
Proof. unfold pep_skip. by intros ->. Qed.

(** With a positive threshold a record is skipped iff its power is
    undefined, zero or below the threshold. *)
Lemma pep_skip_threshold (it : item) (t : string) (n : Z) :
  args_pep a = Some t -> int_of_str t = Ok n -> 0 < n ->
  exists b, pep_skip a it = Ok b
    /\ (b = true <-> power_of it = None
                     \/ exists v, power_of it = Some v /\ (v = 0 \/ v < n)).
Proof.
  intros Ht Hn Hpos. unfold pep_skip, power_of. rewrite Ht.
  assert (truthy (Some t) = true) as -> by (destruct t; [by vm_compute in Hn|done]).
  change (default "" (Some t)) with t.
  assert (String.eqb t "0" = false) as ->.
  { apply String.eqb_neq. intros ->. vm_compute in Hn. injection Hn as <-. lia. }
  destruct (isdigit (str (item_pep it))) eqn:Hd; cbn [negb orb].
  2:{ exists true. split; [done|]. split; [by left|done]. }
  destruct (isdigit_int _ Hd) as [v Hv]. rewrite Hv.
  destruct (String.eqb_spec (str (item_pep it)) "0") as [Hz|Hz].
  - exists true. split; [done|]. split; [|done]. intros _. right. exists v.
    rewrite (str_zero_int _ Hz) in Hv. injection Hv as <-. by auto.
  - cbn [bind]. rewrite Hn. cbn [bind]. exists (v <? n). split; [done|].
    rewrite Z.ltb_lt. split.
    + intros H. right. exists v. by auto.
    + intros [?|(v' & [= <-] & [-> | H])]; [done|lia|done].
Qed.

(** With the flag and no value a record is skipped iff its power is
    undefined or its text is ["0"]. *)
Lemma pep_skip_defined (it : item) :
  args_pep a = Some "0" ->
  exists b, pep_skip a it = Ok b
    /\ (b = true <-> power_of it = None \/ str (item_pep it) = "0").
Proof.
  intros Ht. unfold pep_skip, power_of. rewrite Ht. cbn [truthy].
  change (default "" (Some "0")) with "0". cbn [String.eqb Ascii.eqb Bool.eqb negb].
  destruct (isdigit (str (item_pep it))) eqn:Hd; cbn [negb orb].
  2:{ exists true. split; [done|]. split; [by left|done]. }
  destruct (isdigit_int _ Hd) as [v Hv]. rewrite Hv.
  destruct (String.eqb_spec (str (item_pep it)) "0") as [Hz|Hz].
  - exists true. split; [done|]. split; [by right|done].
  - exists false. split; [done|]. split; [done|]. by intros [?|?].
Qed.

End PowerFilter.

(** C7 fails for the flag without a value: a record whose power is defined
    and is zero, but is not spelled ["0"], is not skipped (and then passes
    the power test whatever the rest of the arguments). *)
Theorem pep_skip_keeps_zero (a : args) (it : item) :
  args_pep a = Some "0" ->
  power_of it = Some 0 ->
  str (item_pep it) <> "0" ->
  pep_skip a it = Ok false.
Proof.
  intros Ha Hp Hne.
  destruct (pep_skip_defined a it Ha) as (b & -> & Hb).
  destruct b; [|done].
  destruct (proj1 Hb eq_refl) as [H|H]; [by rewrite Hp in H|done].
Qed.

Lemma pep_skip_keeps_zero_witness :
  let a := Args "Home" Both Mcc (MccStr "1") 100 (0%Q, 0%Q) (Some "0") false 160 None
                false false in
  let it := Item (PInt 1) "K1AAA" "146.000" "146.600" "1" "Boston, MA"
                 0%Q 0%Q (PStr "00") "" None in
  power_of it = Some 0
  /\ pep_skip a it = Ok false
  /\ passes (fun _ _ => 0%Q) a it = Ok true.
Proof.
  intros a it. split; [reflexivity|]. split; [|reflexivity].
  apply (pep_skip_keeps_zero a it); [reflexivity|reflexivity|discriminate].
Defined.

(** ** Talkgroup mode: the talkgroups table *)

Lemma radio_ids_omap (rows : list (list string)) :
  radio_ids rows = omap radio_id (drop 1 rows).
Proof. done. Qed.

Lemma keep_digits_id (s : string) : all_chars isdigit_char s = true -> keep_digits s = s.
Proof.
  unfold keep_digits. induction s as [|c s IH]; [done|].
  cbn [all_chars list_ascii_of_string]. rewrite andb_true_iff. intros [Hc Hs].
  rewrite filter_cons_True by done. cbn. by rewrite IH.
Qed.

Lemma keep_digits_nat (tg : Z) : 0 <= tg -> keep_digits (str_of_Z tg) = str_of_Z tg.
Proof.
  intros H. apply keep_digits_id.
  by apply isdigit_chars, str_of_Z_digits.
Qed.

Lemma str_of_Z_nonempty (tg : Z) : 0 <= tg -> str_of_Z tg <> "".
Proof. intros H. by apply isdigit_chars, str_of_Z_digits. Qed.

Section TalkgroupsTable.

Variable talkgroup_name : string -> option string.
Variable rows : list (list string).

Lemma new_rows_step_ids (new : list (list string)) (tg_id : Z) :
  omap radio_id (new_rows_step talkgroup_name rows new tg_id)
  = omap radio_id new
    ++ (if decide (is_new rows tg_id) then [keep_digits (str_of_Z tg_id)] else []).
Proof.
  unfold new_rows_step, is_new.
  destruct (String.eqb_spec (keep_digits (str_of_Z tg_id)) "") as [E|E]; cbn [negb andb].
  { rewrite decide_False by (by intros [? _]). by rewrite app_nil_r. }
  destruct (bool_decide_reflect (keep_digits (str_of_Z tg_id) ∈ radio_ids rows)) as [Hin|Hin];
    cbn [negb].
  { rewrite decide_False by (by intros [_ ?]). by rewrite app_nil_r. }
  rewrite decide_True by done. rewrite omap_app. f_equal.
  cbn. by destruct (keep_digits (str_of_Z tg_id)).
Qed.

Lemma foldl_new_rows_ids (l : list Z) (new : list (list string)) :
  omap radio_id (foldl (new_rows_step talkgroup_name rows) new l)
  = omap radio_id new ++ (keep_digits ∘ str_of_Z <$> filter (is_new rows) l).
Proof.
  revert new. induction l as [|tg l IH]; intros new; cbn [foldl].
  - by rewrite app_nil_r.
  - rewrite IH, new_rows_step_ids, <- app_assoc. f_equal.
    destruct (decide (is_new rows tg)) as [H|H].
    + by rewrite filter_cons_True.
    + by rewrite filter_cons_False.
Qed.

Lemma new_rows_ids (u : gset Z) :
  omap radio_id (new_rows talkgroup_name rows u)
  = keep_digits ∘ str_of_Z <$> filter (is_new rows) (merge_sort Z.le (elements u)).
Proof. apply (foldl_new_rows_ids _ []). Qed.

(** The update keeps every row of the file and appends the new ones. *)
Lemma update_talkgroups_app (u : gset Z) :
  rows <> [] ->
  update_talkgroups talkgroup_name rows u = rows ++ new_rows talkgroup_name rows u.
Proof.
  intros Hne. unfold update_talkgroups.
  destruct rows as [|r1 [|r2 rest]]; [done|done|done].
Qed.

Lemma update_talkgroups_ids (u : gset Z) :
  rows <> [] ->
  radio_ids (update_talkgroups talkgroup_name rows u)
  = radio_ids rows
    ++ (keep_digits ∘ str_of_Z <$> filter (is_new rows) (merge_sort Z.le (elements u))).
Proof.
  intros Hne. rewrite update_talkgroups_app by done.
  rewrite !radio_ids_omap. rewrite drop_app_le by (destruct rows; [done|cbn; lia]).
  by rewrite omap_app, new_rows_ids.
Qed.

End TalkgroupsTable.

Section TalkgroupRun.

Variable get_talkgroup_channels : pyval -> list (Z * Z).

Lemma unique_talkgroups_from (fl : list item) (u : gset Z) (tg : Z) :
  tg ∈ foldl (fun u it => foldl (fun u (p : Z * Z) => {[ p.1 ]} ∪ u) u
                            (get_talkgroup_channels (item_id it))) u fl
  <-> tg ∈ u \/ exists it slot, it ∈ fl /\ (tg, slot) ∈ get_talkgroup_channels (item_id it).
Proof.
  assert (forall (l : list (Z * Z)) (u : gset Z),
            tg ∈ foldl (fun u (p : Z * Z) => {[ p.1 ]} ∪ u) u l
            <-> tg ∈ u \/ exists slot, (tg, slot) ∈ l) as Hinner.
  { intros l. induction l as [|[t s] l IH]; intros u'; cbn [foldl].
    - split; [by left|]. intros [?|[slot ?%elem_of_nil]]; done.
    - rewrite IH, elem_of_union, elem_of_singleton. cbn. split.
      + intros [[->|?]|[slot Hs]]; [right; exists s; by left|by left|].
        right. exists slot. by right.
      + intros [?|[slot [Heq|Hs]%elem_of_cons]]; [by left; right| |].
        * injection Heq as -> ->. by left; left.
        * right. by exists slot. }
  revert u. induction fl as [|it fl IH]; intros u; cbn [foldl].
  - split; [by left|]. intros [?|(it & slot & ?%elem_of_nil & _)]; done.
  - rewrite IH, Hinner. split.
    + intros [[?|[slot Hs]]|(it' & slot & Hit & Hs)]; [by left| |].
      * right. exists it, slot. split; [by left|done].
      * right. exists it', slot. split; [by right|done].
    + intros [?|(it' & slot & [->|Hit]%elem_of_cons & Hs)]; [by left; left| |].
      * left. right. by exists slot.
      * right. by exists it', slot.
Qed.

Lemma elem_of_unique_talkgroups (fl : list item) (tg : Z) :
  tg ∈ unique_talkgroups get_talkgroup_channels fl
  <-> exists it slot, it ∈ fl /\ (tg, slot) ∈ get_talkgroup_channels (item_id it).
Proof.
  unfold unique_talkgroups. rewrite unique_talkgroups_from.
  split; [intros [?%elem_of_empty|?]; done|by right].
Qed.

Lemma process_talkgroups_from (fl : list item) (out : list out_row) (r : out_row) :
  r ∈ foldl (fun out it =>
               foldl (fun out (p : Z * Z) => format_talkgroup_channel out it p.1 p.2)
                     out (get_talkgroup_channels (item_id it))) out fl ->
  r ∈ out
  \/ exists it tg slot, it ∈ fl /\ (tg, slot) ∈ get_talkgroup_channels (item_id it)
       /\ r = talkgroup_row it tg slot.
Proof.
  assert (forall it (l : list (Z * Z)) (out : list out_row),
            r ∈ foldl (fun out (p : Z * Z) => format_talkgroup_channel out it p.1 p.2) out l ->
            r ∈ out \/ exists tg slot, (tg, slot) ∈ l /\ r = talkgroup_row it tg slot) as Hinner.
  { intros it l. induction l as [|[t s] l IH]; intros out'; cbn [foldl]; [by left|].
    intros [Hr|(tg & slot & Hin & ->)]%IH.
    - unfold format_talkgroup_channel in Hr. cbn in Hr.
      apply elem_of_app in Hr as [?|Hr%list_elem_of_singleton]; [by left|].
      subst r. right. exists t, s. split; [by left|done].
    - right. exists tg, slot. split; [by right|done]. }
  revert out. induction fl as [|it fl IH]; intros out; cbn [foldl]; [by left|].
  intros [[Hr|(tg & slot & Hin & ->)]%Hinner|(it' & tg & slot & Hit & Hin & ->)]%IH.
  - by left.
  - right. exists it, tg, slot. split; [by left|done].
  - right. exists it', tg, slot. split; [by right|done].
Qed.

Lemma elem_of_process_talkgroups (fl : list item) (r : out_row) :
  r ∈ process_talkgroups get_talkgroup_channels fl ->
  exists it tg slot, it ∈ fl /\ (tg, slot) ∈ get_talkgroup_channels (item_id it)
    /\ r = talkgroup_row it tg slot.
Proof.
  intros [?%elem_of_nil|H]%process_talkgroups_from; done.
Qed.

End TalkgroupRun.

(** The ids of the selected records are ids of the list, which [int()]
    accepted when the list was sorted. *)
Lemma filter_list_ids (check_distance : Q * Q -> Q * Q -> Q) (a : args)
    (json_list fl : list item) (it : item) :
  filter_list check_distance a json_list = Ok fl -> it ∈ fl ->
  exists z, int (item_id it) = Ok z.
Proof.
  intros H Hit.
  destruct (filter_list_inv check_distance a json_list fl H)
    as (sl & st & Hs & _ & <- & _ & _ & _ & Hprov & _).
  destruct (sorted_spec _ _ Hs) as (_ & ks & Hks & _).
  destruct (Hprov it Hit) as (i & x & y & n & Hi & Hc & -> & _).
  apply mapM_Ok in Hks.
  destruct (Forall2_lookup_l _ _ _ _ _ Hks Hi) as (k & _ & Hk).
  unfold candidate in Hc.
  destruct (passes check_distance a x) as [[|]|]; try done.
  destruct (normalize x); [|done]. injection Hc as <-. cbn.
  unfold sort_key in Hk. destruct (int (item_id x)) as [z|]; [|done]. by exists z.
Qed.

Lemma count_NoDup_in {A} `{EqDecision A} (l : list A) (x : A) :
  NoDup l -> x ∈ l -> length (filter (fun y => y = x) l) = 1%nat.
Proof.
  induction 1 as [|y l Hy Hnd IH]; [by intros ?%elem_of_nil|].
  intros Hx. destruct (decide (y = x)) as [->|Hne].
  - rewrite filter_cons_True by done. cbn. f_equal.
    destruct (filter (fun y => y = x) l) as [|z r] eqn:E; [done|].
    assert (z ∈ filter (fun y => y = x) l) as Hz by (rewrite E; by left).
    apply list_elem_of_filter in Hz as [-> Hz]. done.
  - rewrite filter_cons_False by done. apply IH.
    apply elem_of_cons in Hx as [->|Hx]; done.
Qed.

Lemma count_not_in {A} `{EqDecision A} (l : list A) (x : A) :
  x ∉ l -> length (filter (fun y => y = x) l) = 0%nat.
Proof.
  intros Hx. destruct (filter (fun y => y = x) l) as [|z r] eqn:E; [done|].
  assert (z ∈ filter (fun y => y = x) l) as Hz by (rewrite E; by left).
  apply list_elem_of_filter in Hz as [-> Hz]. done.
Qed.

Section MainModes.

Variable check_distance : Q * Q -> Q * Q -> Q.
Variable get_talkgroup_channels : pyval -> list (Z * Z).
Variable talkgroup_name : string -> option string.
Variable a : args.

Lemma main_standard (template : list (list string)) (json_list : list item) :
  args_talkgroups a = false ->
  main check_distance get_talkgroup_channels talkgroup_name a template json_list
  = let* fl := filter_list check_distance a json_list in
    standard_tables get_talkgroup_channels talkgroup_name a fl.
Proof.
  intros Hstd. unfold main, standard_tables, process_channels, write_zones_csv.
  rewrite Hstd. destruct (filter_list check_distance a json_list) as [fl|e]; [|done].
  cbn [bind]. by destruct (process_standard (args_zone_capacity a) fl []).
Qed.

Lemma main_talkgroup (template : list (list string)) (json_list : list item) :
  args_talkgroups a = true ->
  main check_distance get_talkgroup_channels talkgroup_name a template json_list
  = let* fl := filter_list check_distance a json_list in
    Ok (talkgroup_tables get_talkgroup_channels talkgroup_name a template fl).
Proof.
  intros Htg. unfold main, talkgroup_tables, process_channels, write_zones_csv.
  rewrite Htg. by destruct (filter_list check_distance a json_list).
Qed.

End MainModes.

#[local] Instance str_of_Z_Inj : Inj (=) (=) str_of_Z.
Proof. intros x y. apply str_of_Z_inj. Qed.

Lemma StronglySorted_filter_le (P : Z -> Prop) `{!forall x, Decision (P x)} (l : list Z) :
  StronglySorted Z.le l -> StronglySorted Z.le (filter P l).
Proof.
  induction 1 as [|x l Hl IH Hx]; [constructor|].
  destruct (decide (P x)).
  - rewrite filter_cons_True by done. constructor; [done|].
    apply Forall_forall. intros y [_ Hy]%list_elem_of_filter.
    by eapply Forall_forall in Hx.
  - by rewrite filter_cons_False.
Qed.

(** C8, amended: when the talkgroups file has at least its header row, no
    Radio ID occurs twice in it and the talkgroup ids of the lookup are not
    negative, every talkgroup id written in the channels table occurs
    exactly once among the Radio IDs of the talkgroups table of the run; the
    table keeps the Radio IDs of the file in their order and appends the new
    ids in ascending order, none of them a Radio ID of the file. *)
Theorem talkgroup_ids_once
    (check_distance : Q * Q -> Q * Q -> Q)
    (get_talkgroup_channels : pyval -> list (Z * Z))
    (talkgroup_name : string -> option string)
    (a : args) (template : list (list string)) (json_list : list item) (t : tables) :
  args_talkgroups a = true ->
  main check_distance get_talkgroup_channels talkgroup_name a template json_list = Ok t ->
  template <> [] ->
  NoDup (radio_ids template) ->
  (forall v tg slot, (tg, slot) ∈ get_talkgroup_channels v -> 0 <= tg) ->
  Forall (fun row => occurrences (col_contact_id row) (talkgroups_csv t) = 1%nat)
         (channels_csv t)
  /\ exists new : list Z,
       radio_ids (talkgroups_csv t) = radio_ids template ++ (str_of_Z <$> new)
       /\ StronglySorted Z.le new
       /\ NoDup new
       /\ forall tg, tg ∈ new -> str_of_Z tg ∉ radio_ids template.
Proof.
  intros Htg Hmain Hne Hnd Hpos.
  rewrite main_talkgroup in Hmain by done.
  destruct (filter_list check_distance a json_list) as [fl|e] eqn:Hfl; [|done].
  cbn [bind] in Hmain. injection Hmain as <-.
  unfold talkgroup_tables. cbn [channels_csv talkgroups_csv].
  set (u := unique_talkgroups get_talkgroup_channels fl).
  set (L := merge_sort Z.le (elements u)).
  set (new := filter (is_new template) L).
  assert (forall tg, tg ∈ L <-> tg ∈ u) as HL.
  { intros tg. unfold L. rewrite merge_sort_Permutation. apply elem_of_elements. }
  assert (forall tg, tg ∈ u -> 0 <= tg) as Hu.
  { intros tg (it & slot & _ & Hin)%elem_of_unique_talkgroups. by eapply Hpos. }
  assert (forall tg, tg ∈ new <-> tg ∈ u /\ str_of_Z tg ∉ radio_ids template) as Hnew.
  { intros tg. unfold new. rewrite list_elem_of_filter, HL. unfold is_new. split.
    - intros [[_ Hnot] Hin]. split; [done|]. by rewrite <- keep_digits_nat by auto.
    - intros [Hin Hnot]. rewrite keep_digits_nat by auto.
      split; [|done]. split; [|done]. by apply str_of_Z_nonempty, Hu. }
  assert (radio_ids (update_talkgroups talkgroup_name template u)
          = radio_ids template ++ (str_of_Z <$> new)) as Hids.
  { rewrite update_talkgroups_ids by done. f_equal. fold L. fold new.
    apply list_fmap_ext. intros i tg Hi. cbn.
    apply keep_digits_nat, Hu, Hnew. by eapply list_elem_of_lookup_2. }
  assert (NoDup new) as Hndnew.
  { apply NoDup_filter. unfold L. rewrite merge_sort_Permutation. apply NoDup_elements. }
  split.
  2:{ exists new. split; [done|]. split.
      { apply StronglySorted_filter_le. apply StronglySorted_merge_sort; apply _. }
      split; [done|]. intros tg Hin. by apply Hnew. }
  apply Forall_imap. intros i r Hr.
  apply list_elem_of_lookup_2, elem_of_process_talkgroups in Hr
    as (it & tg & slot & Hit & Hin & ->).
  destruct (filter_list_ids _ _ _ _ _ Hfl Hit) as [z Hz].
  destruct (write_channel_talkgroup get_talkgroup_channels talkgroup_name a fl
              (update_talkgroups talkgroup_name template u) Htg (Z.of_nat i + 1) it tg slot z Hz)
    as (_ & _ & -> & _).
  assert (tg ∈ u) as Htgu by (apply elem_of_unique_talkgroups; eauto).
  unfold occurrences. rewrite Hids, filter_app, length_app.
  destruct (decide (str_of_Z tg ∈ radio_ids template)) as [Hold|Hold].
  - rewrite (count_NoDup_in _ _ Hnd Hold), count_not_in; [done|].
    intros (tg' & ->%str_of_Z_inj & Hin')%list_elem_of_fmap.
    by apply Hnew in Hin' as [_ ?].
  - rewrite (count_not_in _ _ Hold), count_NoDup_in; [done| |].
    + apply (NoDup_fmap_2 str_of_Z). exact Hndnew.
    + apply list_elem_of_fmap. exists tg. split; [done|]. by apply Hnew.
Qed.

(** C8 as stated fails on a talkgroups file that lists a Radio ID twice: the
    rows of the file are kept as they are, and the id referenced by the
    channel occurs twice in the table of the run. *)
Lemma talkgroup_id_listed_twice :
  let a := Args "" Both Mcc (MccStr "1") 100 (0%Q, 0%Q) None false 160 None true false in
  let it := Item (PInt 1) "K1AAA" "146.000" "146.600" "1" "Boston, MA"
                 0%Q 0%Q PNone "" None in
  let template := [["No."; "Radio ID"; "Name"; "Call Type"; "Call Alert"];
                   ["1"; "9"; "Local"; "Group Call"; "None"];
                   ["2"; "9"; "Local 9"; "Group Call"; "None"]] in
  exists t,
    main (fun _ _ => 0%Q) (fun _ => [(9, 1)]) (fun _ => None) a template [it] = Ok t
    /\ col_contact_id <$> channels_csv t = ["9"]
    /\ occurrences "9" (talkgroups_csv t) = 2%nat
    /\ ~ Forall (fun row => occurrences (col_contact_id row) (talkgroups_csv t) = 1%nat)
                (channels_csv t).
Proof.
  intros a it template. eexists. split; [reflexivity|].
  split; [by vm_compute|]. split; [by vm_compute|].
  intros H. apply Forall_cons_1 in H as [H _]. by vm_compute in H.
Qed.

(** Two further inputs outside the amended claim: an empty talkgroups file
    stays empty, and the ids [-9] and [9] both append the row of ["9"]. *)
Lemma talkgroup_id_other_cases :
  let a := Args "" Both Mcc (MccStr "1") 100 (0%Q, 0%Q) None false 160 None true false in
  let it := Item (PInt 1) "K1AAA" "146.000" "146.600" "1" "Boston, MA"
                 0%Q 0%Q PNone "" (Some 1%nat) in
  let header := [["No."; "Radio ID"; "Name"; "Call Type"; "Call Alert"]] in
  let t0 := talkgroup_tables (fun _ => [(9, 1)]) (fun _ => None) a [] [it] in
  let t1 := talkgroup_tables (fun _ => [(-9, 1); (9, 2)]) (fun _ => None) a header [it] in
  (col_contact_id <$> channels_csv t0 = ["9"] /\ talkgroups_csv t0 = [])
  /\ (col_contact_id <$> channels_csv t1 = ["-9"; "9"]
      /\ radio_ids (talkgroups_csv t1) = ["9"; "9"]).
Proof. by vm_compute. Qed.

Lemma talkgroup_ids_once_witness :
  let a := Args "" Both Mcc (MccStr "1") 100 (0%Q, 0%Q) None false 160 None true false in
  let it := Item (PInt 1) "K1AAA" "146.000" "146.600" "1" "Boston, MA"
                 0%Q 0%Q PNone "" None in
  let template := [["No."; "Radio ID"; "Name"; "Call Type"; "Call Alert"];
                   ["1"; "9"; "Local"; "Group Call"; "None"]] in
  let tg := fun _ : pyval => [(9, 1); (91, 2)] in
  exists t,
    main (fun _ _ => 0%Q) tg (fun _ => None) a template [it] = Ok t
    /\ Forall (fun row => occurrences (col_contact_id row) (talkgroups_csv t) = 1%nat)
              (channels_csv t)
    /\ radio_ids (talkgroups_csv t) = ["9"; "91"].
Proof.
  intros a it template tg.
  destruct (main (fun _ _ => 0%Q) tg (fun _ => None) a template [it]) as [t|e] eqn:Hmain;
    [|by vm_compute in Hmain].
  exists t. split; [done|].
  destruct (talkgroup_ids_once (fun _ _ => 0%Q) tg (fun _ => None) a template [it] t)
    as [H _]; try done.
  - apply NoDup_singleton.
  - intros v x slot Hin. unfold tg in Hin.
    apply elem_of_cons in Hin as [[= -> ->]|Hin]; [lia|].
    apply list_elem_of_singleton in Hin as [= -> ->]. lia.
  - split; [exact H|]. vm_compute in Hmain. by injection Hmain as <-.
Defined.

(** ** Talkgroup mode: display names *)

Lemma len_rstrip_le (s : string) : len (rstrip s) <= len s.
Proof.
  unfold len. induction s as [|c s IH]; [done|]. cbn [rstrip].
  destruct (rstrip s) as [|d r].
  - destruct (isspace c); cbn in *; lia.
  - cbn in *. lia.
Qed.

Lemma len_slice_to_16 (s : string) : len (slice_to 16 s) <= 16.
Proof. rewrite len_slice_to_nonneg by lia. lia. Qed.

Lemma len_rstrip_slice (s : string) : len (rstrip (slice_to 16 s)) <= 16.
Proof. pose proof (len_rstrip_le (slice_to 16 s)). pose proof (len_slice_to_16 s). lia. Qed.

Section TalkgroupNames.

Variable get_talkgroup_channels : pyval -> list (Z * Z).
Variable talkgroup_name : string -> option string.
Variable a : args.
Variable fl : list item.
Variable tg_rows : list (list string).
Hypothesis Htg : args_talkgroups a = true.

Lemma len_csv_contact_name (tg_id : string) : len (csv_contact_name tg_rows tg_id) <= 16.
Proof.
  unfold csv_contact_name. destruct tg_rows as [|h rest]; [done|].
  destruct (List.find _ rest); [apply len_rstrip_slice|done].
Qed.

Lemma len_with_city_prefix (it : item) (name what : string) :
  it ∈ fl ->
  len (with_city_prefix fl (item_tx it) (item_rx it) name what) <= 16.
Proof.
  intros Hit. unfold with_city_prefix, find_repeater.
  destruct (List.find _ fl) as [it'|] eqn:Hfind; [apply len_rstrip_slice|].
  apply list_elem_of_In in Hit.
  pose proof (List.find_none _ _ Hfind it Hit) as H. cbn in H.
  by rewrite !String.eqb_refl in H.
Qed.

(** In talkgroup mode the display name of a channel of a selected repeater
    has at most 16 characters when the text of the talkgroup id has. *)
Lemma talkgroup_display_name_le_16 (i : Z) (it : item) (tg slot z : Z) :
  int (item_id it) = Ok z -> it ∈ fl -> len (str_of_Z tg) <= 16 ->
  len (col_name (write_channel get_talkgroup_channels talkgroup_name a fl tg_rows i
                   (talkgroup_row it tg slot))) <= 16.
Proof.
  intros Hid Hit Hlen.
  destruct (talkgroup_url_split it z tg Hid) as (Hc & Hs & Hst).
  unfold write_channel, talkgroup_row. cbn [o_url o_rx o_tx o_cc o_name].
  rewrite Htg, Hc, Hs, Hst. cbn [andb].
  pose proof (len_csv_contact_name (str_of_Z tg)) as Hcsv.
  pose proof (len_rstrip_le (str_of_Z tg)) as Hr1.
  pose proof (len_rstrip_le (csv_contact_name tg_rows (str_of_Z tg))) as Hr2.
  destruct (String.eqb (csv_contact_name tg_rows (str_of_Z tg)) "Simplex") eqn:E0.
  - destruct (talkgroup_name (str_of_Z tg)) as [n|].
    + pose proof (len_rstrip_slice n) as Hn.
      pose proof (len_rstrip_le (rstrip (slice_to 16 n))) as Hn'.
      destruct (String.eqb (rstrip (slice_to 16 n)) "Simplex") eqn:E1; cbn [negb];
        destruct (args_city_prefix a); cbn [col_name col nth channel_row];
        try apply len_with_city_prefix; try done; lia.
    + rewrite E0. cbn [negb].
      destruct (args_city_prefix a); cbn [col_name col nth channel_row];
        try apply len_with_city_prefix; try done; lia.
  - rewrite E0. cbn [negb].
    destruct (args_city_prefix a); cbn [col_name col nth channel_row];
      try apply len_with_city_prefix; try done; lia.
Qed.

End TalkgroupNames.

(** ** Display names: the alias of standard mode and the 16 characters *)

Lemma rstrip_id (s : string) : all_chars not_space s = true -> rstrip s = s.
Proof.
  induction s as [|c s IH]; [done|].
  cbn [all_chars rstrip]. rewrite andb_true_iff. intros [Hc Hs]. rewrite IH by done.
  unfold not_space in Hc. apply negb_true_iff in Hc as ->. by destruct s.
Qed.

Lemma channel_chunks_elem (c : Z) (fl : list item) (chunks : list (list item))
    (chunk : list item) (x : item) :
  channel_chunks c fl = Ok chunks -> chunk ∈ chunks -> x ∈ chunk -> x ∈ fl.
Proof.
  unfold channel_chunks. destruct (range 0 (Z.of_nat (length fl)) c) as [r|e]; [|done].
  cbn [bind]. intros [= <-] Hchunk Hx.
  apply list_elem_of_In, in_map_iff in Hchunk as (k & <- & _).
  unfold slice in Hx. apply subseteq_take, subseteq_drop in Hx. done.
Qed.

(** C4 holds of [format_channel] and fails of the table in talkgroup mode.
    For every record, [format_channel] appends two entries named
    ["{callsign}.{abbr} TS{slot}"], slot 1 then slot 2, when that has at
    most 16 characters, and otherwise that name with only the callsign cut
    from the right by the overflow, which has exactly 16 characters
    (["VERYLONG.SPR TS1"] for ["VERYLONGCALL1234"] in ["Springfield"]);
    every name of the channels table of standard mode is such an entry's
    name, of a selected repeater, and has at most 16 characters.  In
    talkgroup mode without [--city-prefix], a channel whose talkgroup has no
    name, neither in the talkgroups table nor from the talkgroup service, is
    named by the id text as it is: with an id of more than 16 digits the
    name has more than 16 characters. *)
Theorem channel_alias_spec
    (get_talkgroup_channels : pyval -> list (Z * Z))
    (talkgroup_name : string -> option string)
    (a_std a_tg : args) (fl : list item) (tg_rows : list (list string))
    (i : Z) (it : item) (tg tslot z : Z) :
  args_talkgroups a_tg = true ->
  args_city_prefix a_tg = false ->
  int (item_id it) = Ok z ->
  csv_contact_name tg_rows (str_of_Z tg) = "Simplex" ->
  talkgroup_name (str_of_Z tg) = None ->
  16 < len (str_of_Z tg) ->
  (forall (output_list : list out_row) (r : item),
     let callsign := item_callsign r in
     let abbr := city_abbr_of (item_city r) in
     let full := fun slot : Z => callsign +:+ "." +:+ abbr +:+ " TS" +:+ str_of_Z slot in
     let alias := fun slot : Z =>
       if len (full slot) <=? 16 then full slot
       else str_take (Z.to_nat (len callsign - (len (full slot) - 16))) callsign
              +:+ "." +:+ abbr +:+ " TS" +:+ str_of_Z slot in
     o_name <$> format_channel output_list r = (o_name <$> output_list) ++ [alias 1; alias 2]
     /\ len (alias 1) = Z.min 16 (len (full 1))
     /\ len (alias 2) = Z.min 16 (len (full 2)))
  /\ (forall r : item,
        item_callsign r = "VERYLONGCALL1234" -> item_city r = "Springfield" ->
        o_name <$> format_channel [] r = ["VERYLONG.SPR TS1"; "VERYLONG.SPR TS2"]
        /\ len "VERYLONG.SPR TS1" = 16)
  /\ (forall t : tables,
        args_talkgroups a_std = false ->
        standard_tables get_talkgroup_channels talkgroup_name a_std fl = Ok t ->
        Forall (fun row =>
                  len (col_name row) <= 16
                  /\ exists r, r ∈ fl /\ col_name row ∈ o_name <$> format_channel [] r)
               (channels_csv t))
  /\ (let trow := write_channel get_talkgroup_channels talkgroup_name a_tg fl tg_rows i
                     (talkgroup_row it tg tslot) in
      format_talkgroup_channel [] it tg tslot = [talkgroup_row it tg tslot]
      /\ col_name trow = str_of_Z tg
      /\ 16 < len (col_name trow)).
Proof.
  intros Htg Hpre Hid Hcsv Hname Hlen.
  assert (forall r : item,
            o_name <$> format_channel [] r
            = [ch_alias (item_callsign r) (city_abbr_of (item_city r)) 1;
               ch_alias (item_callsign r) (city_abbr_of (item_city r)) 2]) as Hfc by done.
  split; [|split; [|split]].
  - intros out r callsign abbr full alias.
    destruct (ch_alias_cases callsign abbr 1 ltac:(by left) (len_city_abbr_of _)) as [E1 L1].
    destruct (ch_alias_cases callsign abbr 2 ltac:(by right) (len_city_abbr_of _)) as [E2 L2].
    fold (full 1) in E1, L1. fold (full 2) in E2, L2.
    fold (alias 1) in E1. fold (alias 2) in E2.
    split; [|split; [by rewrite <- E1|by rewrite <- E2]].
    unfold format_channel. cbn [foldl]. rewrite <- app_assoc. cbn [app].
    rewrite fmap_app. cbn [fmap list_fmap standard_row o_name].
    fold callsign abbr. by rewrite E1, E2.
  - intros r Hcs Hcity. rewrite Hfc, Hcs, Hcity. by vm_compute.
  - intros t Hstd Ht.
    unfold standard_tables in Ht. rewrite process_standard_last in Ht.
    destruct (channel_chunks (args_zone_capacity a_std) fl) as [chunks|e] eqn:Hchunks; [|done].
    cbn [bind] in Ht.
    destruct (write_zones_standard a_std fl) as [zs|e]; [|done].
    cbn [bind] in Ht. injection Ht as <-. cbn [channels_csv].
    rewrite write_channels_standard by done.
    apply Forall_imap. intros k ch Hch. cbn [col_name col nth channel_row].
    destruct (last chunks) as [chunk|] eqn:Hlast; [|done]. cbn in Hch.
    apply list_elem_of_lookup_2 in Hch.
    apply standard_rows_name in Hch as (r & s' & Hr & Hs & ->).
    cbn [standard_row o_name].
    destruct (ch_alias_cases (item_callsign r) (city_abbr_of (item_city r)) s' Hs
                (len_city_abbr_of _)) as [_ Hl].
    split; [lia|]. exists r. split.
    + eapply channel_chunks_elem; [exact Hchunks| |exact Hr].
      rewrite last_lookup in Hlast. by eapply list_elem_of_lookup_2.
    + rewrite Hfc. destruct Hs as [-> | ->]; [by left|by right; left].
  - intros trow. split; [done|].
    assert (col_name trow = str_of_Z tg) as Hn.
    { subst trow. destruct (talkgroup_url_split it z tg Hid) as (Hc & Hs & Hst).
      unfold write_channel, talkgroup_row. cbn [o_url o_rx o_tx o_cc o_name].
      rewrite Htg, Hc, Hs, Hst, Hcsv, Hname, Hpre. cbn.
      apply rstrip_id. eapply all_chars_impl; [|apply str_of_Z_chars].
      apply sign_or_digit_not_space. }
    split; [exact Hn|]. by rewrite Hn.
Qed.

Lemma channel_alias_spec_witness :
  let a_tg := Args "" Both Mcc (MccStr "") 100 (0%Q, 0%Q) None false 160 None true false in
  let x := Item (PInt 310001) "K1AAA" "146.000" "146.600" "1" "Boston, MA"
                0%Q 0%Q PNone "" None in
  let it := set_turn x 1 in
  let gtc := fun _ : pyval => [(12345678901234567, 1)] in
  let tn := fun _ : string => @None string in
  let trow := write_channel gtc tn a_tg [it] [] 1 (talkgroup_row it 12345678901234567 1) in
  (exists t, main (fun _ _ => 0%Q) gtc tn a_tg [] [x] = Ok t /\ channels_csv t = [trow])
  /\ col_name trow = "12345678901234567"
  /\ 16 < len (col_name trow).
Proof.
  intros a_tg x it gtc tn trow.
  split; [eexists; split; reflexivity|].
  assert (16 < len (str_of_Z 12345678901234567)) as Hlen by (by vm_compute).
  destruct (channel_alias_spec gtc tn a_tg a_tg [it] [] 1 it 12345678901234567 1 310001
              eq_refl eq_refl eq_refl eq_refl eq_refl Hlen) as (_ & _ & _ & _ & Hn & Hl).
  split; [exact Hn|exact Hl].
Defined.

(** ** The sort is stable and raises on the first id that is no number *)

Lemma key_leb_refl (k : string * Z) : key_leb k k = true.
Proof. unfold key_leb. rewrite string_compare_refl. lia. Qed.

Lemma filter_insert_sorted (k : string * Z) (x : (string * Z) * item)
    (l : list ((string * Z) * item)) :
  filter (fun p => p.1 = k) (insert_sorted x l) = filter (fun p => p.1 = k) (x :: l).
Proof.
  induction l as [|y l IH]; [done|].
  cbn [insert_sorted]. destruct (key_leb x.1 y.1) eqn:Hxy; [done|].
  rewrite filter_cons, IH, !filter_cons.
  destruct (decide (y.1 = k)) as [Hy|Hy]; [|done].
  destruct (decide (x.1 = k)) as [Hx|Hx]; [|done].
  rewrite Hx, Hy, key_leb_refl in Hxy. done.
Qed.

Lemma filter_sort_pairs (k : string * Z) (l : list ((string * Z) * item)) :
  filter (fun p => p.1 = k) (sort_pairs l) = filter (fun p => p.1 = k) l.
Proof.
  induction l as [|x l IH]; [done|].
  change (sort_pairs (x :: l)) with (insert_sorted x (sort_pairs l)).
  by rewrite filter_insert_sorted, !filter_cons, IH.
Qed.

Lemma filter_keyed (k : string * Z) (ps : list ((string * Z) * item)) :
  Forall (fun p => sort_key p.2 = Ok p.1) ps ->
  filter (fun it => sort_key it = Ok k) (ps.*2) = (filter (fun p => p.1 = k) ps).*2.
Proof.
  induction 1 as [|p ps Hp _ IH]; [done|].
  cbn [fmap list_fmap]. rewrite !filter_cons, IH, Hp.
  destruct (decide (p.1 = k)) as [->|Hne].
  - by rewrite decide_True.
  - rewrite decide_False; [done|]. by intros [= ?].
Qed.

Lemma zip_keyed (l : list item) (ks : list (string * Z)) :
  mapM sort_key l = Ok ks ->
  Forall (fun p => sort_key p.2 = Ok p.1) (zip ks l) /\ (zip ks l).*2 = l.
Proof.
  intros H. apply mapM_Ok in H.
  induction H as [|x k l ks Hx _ [IH1 IH2]]; [done|].
  split; [by constructor|]. cbn. by rewrite IH2.
Qed.

(** [sorted] (zone.py, line 103) is stable: the records with one and the
    same key [(callsign, int(id))] come out in the order they had in the
    input list. *)
Theorem sorted_stable (l sl : list item) (k : string * Z) :
  sorted l = Ok sl ->
  filter (fun it => sort_key it = Ok k) sl = filter (fun it => sort_key it = Ok k) l.
Proof.
  unfold sorted. destruct (mapM sort_key l) as [ks|e] eqn:Hks; [|done].
  cbn [bind]. intros [= <-].
  destruct (zip_keyed _ _ Hks) as [HF Hl].
  rewrite filter_keyed.
  - rewrite filter_sort_pairs, <- filter_keyed by done. by rewrite Hl.
  - by rewrite sort_pairs_perm.
Qed.

Lemma sorted_stable_witness :
  let x := Item (PInt 7) "K1AAA" "146.000" "146.600" "1" "Boston, MA" 0%Q 0%Q PNone "" None in
  let y := Item (PStr "7") "K1AAA" "446.000" "446.600" "1" "Salem, MA" 0%Q 0%Q PNone "" None in
  let z := Item (PInt 3) "K1AAA" "146.000" "146.600" "1" "Lynn, MA" 0%Q 0%Q PNone "" None in
  sorted [x; y; z] = Ok [z; x; y]
  /\ filter (fun it => sort_key it = Ok ("K1AAA", 7)) [z; x; y] = [x; y].
Proof.
  intros x y z. split; [reflexivity|].
  rewrite (sorted_stable [x; y; z] [z; x; y] ("K1AAA", 7) eq_refl).
  reflexivity.
Defined.

Lemma mapM_raise {A B} (f : A -> result B) (pre post : list A) (x : A) (e : exn) :
  Forall (fun y => exists b, f y = Ok b) pre -> f x = Raise e ->
  mapM f (pre ++ x :: post) = Raise e.
Proof.
  intros Hpre Hx. induction Hpre as [|y pre [b Hy] _ IH]; cbn [app mapM].
  - by rewrite Hx.
  - by rewrite Hy, IH.
Qed.

(** The sort key converts every id before any filter runs: when the first
    record of the input whose id [int()] rejects raises [e], [filter_list]
    raises [e], whatever the arguments and whether or not the filters would
    have kept that record. *)
Theorem filter_list_bad_id (check_distance : Q * Q -> Q * Q -> Q) (a : args)
    (pre post : list item) (it : item) (e : exn) :
  Forall (fun x => exists z, int (item_id x) = Ok z) pre ->
  int (item_id it) = Raise e ->
  filter_list check_distance a (pre ++ it :: post) = Raise e.
Proof.
  intros Hpre Hit. unfold filter_list, sorted.
  rewrite (mapM_raise sort_key pre post it e); [done| |].
  - eapply Forall_impl; [exact Hpre|]. intros x [z Hz]. unfold sort_key.
    rewrite Hz. by eexists.
  - unfold sort_key. by rewrite Hit.
Qed.

Lemma filter_list_bad_id_witness :
  let a := Args "Home" Vhf Mcc (MccStr "1") 100 (0%Q, 0%Q) None false 160 None false false in
  let x := Item (PInt 1) "K1AAA" "146.000" "146.600" "1" "Boston, MA" 0%Q 0%Q PNone "" None in
  let bad := Item (PStr "n/a") "K1BBB" "446.000" "446.600" "1" "Salem, MA" 0%Q 0%Q PNone "" None in
  band_ok a bad = false
  /\ filter_list (fun _ _ => 0%Q) a ([x] ++ bad :: [x]) = Raise ValueError.
Proof.
  intros a x bad. split; [reflexivity|].
  apply (filter_list_bad_id (fun _ _ => 0%Q) a [x] [x] bad ValueError).
  - repeat constructor. by exists 1.
  - reflexivity.
Defined.

(** ** What the selection retains *)

Lemma candidate_Some (check_distance : Q * Q -> Q * Q -> Q) (a : args) (x y : item) :
  candidate check_distance a x = Some y ->
  exists cs, passes check_distance a x = Ok true
    /\ normalize x = Ok cs
    /\ y = set_callsign x cs.
Proof.
  unfold candidate. destruct (passes check_distance a x) as [[|]|]; try done.
  destruct (normalize x) as [cs|]; [|done]. intros [= <-]. by exists cs.
Qed.

Lemma passes_true (check_distance : Q * Q -> Q * Q -> Q) (a : args) (x : item) :
  passes check_distance a x = Ok true ->
  band_ok a x = true /\ mcc_ok a x = Ok true /\ too_far check_distance a x = false
  /\ pep_skip a x = Ok false /\ six_skip a x = false /\ callsign_skip a x = false.
Proof.
  unfold passes. destruct (band_ok a x); [|done]. cbn [negb].
  destruct (mcc_ok a x) as [[|]|]; try done. cbn [bind negb].
  destruct (too_far check_distance a x); [done|].
  destruct (pep_skip a x) as [[|]|]; try done. cbn [bind].
  destruct (six_skip a x); [done|]. by destruct (callsign_skip a x).
Qed.

(** Every record that [filter_list] retains comes from a record of the input
    and differs from it in the callsign and the turn only; it passes the
    band test, the prefix test of the [mcc] selection, the distance test,
    the power test and the six-digit test; the callsign filter held of the
    callsign as it was in the input, and the retained callsign is its
    normalisation. *)
Theorem selection_sound (check_distance : Q * Q -> Q * Q -> Q) (a : args)
    (json_list fl : list item) (r : item) :
  filter_list check_distance a json_list = Ok fl -> r ∈ fl ->
  band_ok a r = true
  /\ mcc_ok a r = Ok true
  /\ too_far check_distance a r = false
  /\ pep_skip a r = Ok false
  /\ six_skip a r = false
  /\ exists (x : item) (n : nat),
       x ∈ json_list
       /\ callsign_skip a x = false
       /\ normalize x = Ok (item_callsign r)
       /\ r = set_turn (set_callsign x (item_callsign r)) n.
Proof.
  intros Hfl Hr.
  destruct (filter_list_inv _ _ _ _ Hfl) as (sl & st & Hs & _ & <- & Hinv).
  destruct Hinv as (_ & _ & _ & Hfirst & _).
  destruct (Hfirst r Hr) as (i & x & y & n & Hi & Hc & -> & _).
  destruct (candidate_Some _ _ _ _ Hc) as (cs & Hp & Hn & ->).
  destruct (passes_true _ _ _ Hp) as (H1 & H2 & H3 & H4 & H5 & H6).
  assert (x ∈ json_list) as Hx.
  { destruct (sorted_spec _ _ Hs) as [Hperm _]. rewrite <- Hperm.
    by eapply list_elem_of_lookup_2. }
  repeat (split; [done|]).
  by exists x, n.
Qed.

Lemma selection_sound_witness :
  let a := Args "Home" Vhf Mcc (MccStr "31") 100 (0%Q, 0%Q) (Some "10") true 160 (Some "/R")
                false false in
  let x := Item (PInt 310001) "K1AAA /R" "146.000" "146.600" "1" "Boston, MA" 0%Q 0%Q
                (PInt 25) "" None in
  let r := set_turn (set_callsign x "K1AAA") 1 in
  filter_list (fun _ _ => 0%Q) a [x] = Ok [r]
  /\ band_ok a r = true
  /\ contains "/R" (item_callsign r) = false.
Proof.
  intros a x r. split; [reflexivity|]. split; [|reflexivity].
  apply (selection_sound (fun _ _ => 0%Q) a [x] [r] r eq_refl).
  by apply list_elem_of_singleton.
Defined.

Lemma filter_loop_order (check_distance : Q * Q -> Q * Q -> Q) (a : args)
    (l : list item) (st st' : sel_state) :
  foldM (filter_step check_distance a) l st = Ok st' ->
  exists added ys,
    filtered_list st' = filtered_list st ++ added
    /\ ys `sublist_of` omap (candidate check_distance a) l
    /\ Forall2 (fun r y => exists n, r = set_turn y n) added ys.
Proof.
  revert st. induction l as [|x l IH]; intros st; cbn [foldM].
  - intros [= <-]. exists [], []. by rewrite app_nil_r.
  - destruct (filter_step check_distance a st x) as [st1|e] eqn:Hstep; [|done].
    cbn [bind]. intros Hrest.
    destruct (IH _ Hrest) as (added & ys & Hfl & Hsub & HF).
    destruct (filter_step_cases _ _ _ _ _ Hstep)
      as [[Hc ->]|[(y & Hc & _ & ->)|(y & Hc & _ & ->)]]; cbn [omap list_omap]; rewrite Hc.
    + by exists added, ys.
    + exists added, ys. split; [done|]. split; [by apply sublist_cons|done].
    + cbn [filtered_list] in Hfl. rewrite <- app_assoc in Hfl.
      eexists (_ :: added), (y :: ys). split; [exact Hfl|].
      split; [by apply sublist_skip|]. constructor; [by eexists|done].
Qed.

(** The retained list keeps the order of the sort: without their turns, the
    retained records are a subsequence of the records of the sorted input
    that passed the filters, with their callsigns normalised. *)
Theorem selection_keeps_order (check_distance : Q * Q -> Q * Q -> Q) (a : args)
    (json_list fl : list item) :
  filter_list check_distance a json_list = Ok fl ->
  exists sl ys,
    sorted json_list = Ok sl
    /\ ys `sublist_of` omap (candidate check_distance a) sl
    /\ Forall2 (fun r y => exists n, r = set_turn y n) fl ys.
Proof.
  unfold filter_list. destruct (sorted json_list) as [sl|e]; [|done]. cbn [bind].
  destruct (foldM _ sl sel_init) as [st|e] eqn:Hloop; [|done]. cbn [bind].
  intros [= <-].
  destruct (filter_loop_order _ _ _ _ _ Hloop) as (added & ys & Hfl & Hsub & HF).
  exists sl, ys. cbn in Hfl. by rewrite Hfl.
Qed.

Lemma selection_keeps_order_witness :
  let a := Args "Home" Vhf Mcc (MccStr "1") 100 (0%Q, 0%Q) None false 160 None false false in
  let x := Item (PInt 1) "K1BBB" "146.000" "146.600" "1" "Boston, MA" 0%Q 0%Q PNone "" None in
  let y := Item (PInt 12) "K1AAA" "146.100" "146.700" "1" "Salem, MA" 0%Q 0%Q PNone "" None in
  exists sl ys,
    sorted [x; y] = Ok sl
    /\ ys `sublist_of` omap (candidate (fun _ _ => 0%Q) a) sl
    /\ Forall2 (fun r y => exists n, r = set_turn y n) [set_turn y 1; set_turn x 1] ys.
Proof.
  intros a x y.
  apply (selection_keeps_order (fun _ _ => 0%Q) a [x; y] [set_turn y 1; set_turn x 1]).
  reflexivity.
Defined.

(** ** The normalised callsign *)

Lemma all_chars_rev_app (p : ascii -> bool) (s acc : string) :
  all_chars p (String.rev_app s acc) = all_chars p s && all_chars p acc.
Proof.
  revert acc. induction s as [|c s IH]; intros acc; [done|].
  cbn [String.rev_app all_chars]. rewrite IH. cbn [all_chars].
  destruct (p c), (all_chars p s); done.
Qed.

Lemma rev_app_nonempty (s acc : string) : acc <> "" -> String.rev_app s acc <> "".
Proof.
  revert acc. induction s as [|c s IH]; intros acc Hacc; [done|].
  cbn [String.rev_app]. by apply IH.
Qed.

Lemma rev_app_app (s acc r : string) :
  String.rev_app s acc +:+ r = String.rev_app s (acc +:+ r).
Proof.
  revert acc. induction s as [|c s IH]; intros acc; [done|].
  cbn [String.rev_app]. by rewrite IH.
Qed.

Lemma split_ws_go_head (s cur w : string) (ws : list string) :
  cur <> "" -> all_chars not_space cur = true ->
  split_ws_go cur s = w :: ws ->
  token_of w (String.rev cur +:+ s).
Proof.
  revert cur. induction s as [|c s IH]; intros cur Hne Hcur; cbn [split_ws_go].
  - destruct cur as [|d cur]; [done|]. intros [= <- <-].
    split; [|split].
    + unfold String.rev. cbn [String.rev_app]. by apply rev_app_nonempty.
    + unfold String.rev. by rewrite all_chars_rev_app, Hcur.
    + exists "". split; [done|by left].
  - destruct (isspace c) eqn:Hc.
    + destruct cur as [|d cur]; [done|]. intros [= <- _].
      split; [|split].
      * unfold String.rev. cbn [String.rev_app]. by apply rev_app_nonempty.
      * unfold String.rev. by rewrite all_chars_rev_app, Hcur.
      * exists (String c s). split; [done|]. right. by exists c, s.
    + intros H. apply IH in H; [| done |].
      * unfold String.rev in *. cbn [String.rev_app] in H.
        rewrite rev_app_app in H |- *. exact H.
      * cbn [all_chars]. unfold not_space at 1. by rewrite Hc, Hcur.
Qed.

Lemma split_ws_head (s w : string) (ws : list string) :
  split_ws s = w :: ws -> token_of w (lstrip s).
Proof.
  unfold split_ws. induction s as [|c s IH]; cbn [split_ws_go lstrip]; [done|].
  destruct (isspace c) eqn:Hc; [done|].
  intros H. apply split_ws_go_head in H; [done|done|].
  cbn [all_chars]. unfold not_space. by rewrite Hc.
Qed.

Lemma normalize_token (x : item) (w : string) :
  normalize x = Ok w ->
  token_of w (lstrip (if String.eqb (item_callsign x) "" then str (item_id x)
                      else item_callsign x)).
Proof.
  unfold normalize. destruct (String.eqb (item_callsign x) "").
  - destruct (item_id x) as [|z|s]; try done. cbn [bind str].
    destruct (split_ws s) as [|w' ws] eqn:Hs; [done|]. intros [= <-].
    by eapply split_ws_head.
  - cbn [bind]. destruct (split_ws (item_callsign x)) as [|w' ws] eqn:Hs; [done|].
    intros [= <-]. by eapply split_ws_head.
Qed.

(** The callsign of a retained record is one token: it is not empty, has no
    whitespace character, and is the text up to the first whitespace of the
    input callsign with its leading whitespace removed (of the id text when
    the input callsign is empty). *)
Theorem retained_callsign_token (check_distance : Q * Q -> Q * Q -> Q) (a : args)
    (json_list fl : list item) (r : item) :
  filter_list check_distance a json_list = Ok fl -> r ∈ fl ->
  exists x, x ∈ json_list
    /\ item_id x = item_id r
    /\ token_of (item_callsign r)
         (lstrip (if String.eqb (item_callsign x) "" then str (item_id x)
                  else item_callsign x)).
Proof.
  intros Hfl Hr.
  destruct (filter_list_inv _ _ _ _ Hfl) as (sl & st & Hs & _ & <- & Hinv).
  destruct Hinv as (_ & _ & _ & Hfirst & _).
  destruct (Hfirst r Hr) as (i & x & y & n & Hi & Hc & -> & _).
  destruct (candidate_Some _ _ _ _ Hc) as (cs & Hp & Hn & ->).
  exists x. split; [|split; [done|]].
  - destruct (sorted_spec _ _ Hs) as [Hperm _]. rewrite <- Hperm.
    by eapply list_elem_of_lookup_2.
  - by apply normalize_token.
Qed.

Lemma retained_callsign_token_witness :
  let a := Args "Home" Vhf Mcc (MccStr "31") 100 (0%Q, 0%Q) None false 160 None false false in
  let x := Item (PInt 310001) "  K1AAA /R" "146.000" "146.600" "1" "Boston, MA" 0%Q 0%Q
                PNone "" None in
  let r := set_turn (set_callsign x "K1AAA") 1 in
  exists x', x' ∈ [x] /\ item_id x' = item_id r
    /\ token_of "K1AAA"
         (lstrip (if String.eqb (item_callsign x') "" then str (item_id x')
                  else item_callsign x')).
Proof.
  intros a x r.
  apply (retained_callsign_token (fun _ _ => 0%Q) a [x] [r] r); [reflexivity|].
  by apply list_elem_of_singleton.
Defined.

Lemma StronglySorted_sublist {A} (R : relation A) (l' l : list A) :
  l' `sublist_of` l -> StronglySorted R l -> StronglySorted R l'.
Proof.
  induction 1 as [|x l1 l2 Hsub IH|x l1 l2 Hsub IH]; intros HS.
  - constructor.
  - apply StronglySorted_inv in HS as [HS Hx]. constructor; [by apply IH|].
    eapply Forall_forall. intros y Hy. eapply Forall_forall in Hx; [exact Hx|].
    by eapply elem_of_sublist.
  - apply StronglySorted_inv in HS as [HS _]. by apply IH.
Qed.

Lemma mapM_sublist {A B} (f : A -> result B) (l' l : list A) (ks : list B) :
  l' `sublist_of` l -> mapM f l = Ok ks ->
  exists ks', mapM f l' = Ok ks' /\ ks' `sublist_of` ks.
Proof.
  intros Hsub. revert ks.
  induction Hsub as [|x l1 l2 Hsub IH|x l1 l2 Hsub IH]; intros ks; cbn [mapM].
  - intros [= <-]. by exists [].
  - destruct (f x) as [k|]; [|done]. cbn [bind].
    destruct (mapM f l2) as [ks2|]; [|done]. cbn [bind]. intros [= <-].
    destruct (IH _ eq_refl) as (ks' & -> & Hs). exists (k :: ks'). split; [done|].
    by apply sublist_skip.
  - destruct (f x) as [k|]; [|done]. cbn [bind].
    destruct (mapM f l2) as [ks2|]; [|done]. cbn [bind]. intros [= <-].
    destruct (IH _ eq_refl) as (ks' & -> & Hs). exists ks'. split; [done|].
    by apply sublist_cons.
Qed.

Lemma token_of_clean (w s : string) :
  all_chars not_space s = true -> token_of w (lstrip s) -> w = s.
Proof.
  intros Hs (_ & _ & rest & Heq & Hrest).
  assert (lstrip s = s) as Hl.
  { clear Heq. destruct s as [|c s]; [done|]. cbn [all_chars] in Hs.
    apply andb_true_iff in Hs as [Hc _]. unfold not_space in Hc. cbn [lstrip].
    by destruct (isspace c). }
  rewrite Hl in Heq. destruct Hrest as [->|(c & r & -> & Hc)].
  - by rewrite app_nil_r_str in Heq.
  - rewrite Heq, all_chars_app in Hs. cbn [all_chars] in Hs. unfold not_space at 2 in Hs.
    rewrite Hc in Hs. cbn in Hs. by rewrite andb_false_r in Hs.
Qed.

Lemma candidate_clean (check_distance : Q * Q -> Q * Q -> Q) (a : args) (x y : item) :
  item_callsign x <> "" -> all_chars not_space (item_callsign x) = true ->
  candidate check_distance a x = Some y -> y = x.
Proof.
  intros Hne Hclean Hc.
  destruct (candidate_Some _ _ _ _ Hc) as (cs & _ & Hn & ->).
  apply normalize_token in Hn.
  apply String.eqb_neq in Hne. rewrite Hne in Hn.
  apply token_of_clean in Hn; [|done]. subst cs. by destruct x.
Qed.

Lemma omap_candidate_sublist (check_distance : Q * Q -> Q * Q -> Q) (a : args)
    (l : list item) :
  Forall (fun x => item_callsign x <> "" /\ all_chars not_space (item_callsign x) = true) l ->
  omap (candidate check_distance a) l `sublist_of` l.
Proof.
  induction 1 as [|x l [Hne Hclean] _ IH]; [done|]. cbn [omap list_omap].
  destruct (candidate check_distance a x) as [y|] eqn:Hc.
  - rewrite (candidate_clean _ _ _ _ Hne Hclean Hc). by apply sublist_skip.
  - by apply sublist_cons.
Qed.

(** When every callsign of the input is a single token already (not empty,
    no whitespace), the retained records are in ascending order: of two
    retained records the earlier one has the smaller callsign (by character
    code) or the same callsign and an id that is not larger as an integer. *)
Theorem selection_sorted (check_distance : Q * Q -> Q * Q -> Q) (a : args)
    (json_list fl : list item) :
  Forall (fun x => item_callsign x <> "" /\ all_chars not_space (item_callsign x) = true)
         json_list ->
  filter_list check_distance a json_list = Ok fl ->
  forall (i j : nat) (x y : item),
    (i < j)%nat -> fl !! i = Some x -> fl !! j = Some y ->
    exists zx zy : Z,
      int (item_id x) = Ok zx /\ int (item_id y) = Ok zy
      /\ (String.compare (item_callsign x) (item_callsign y) = Lt
          \/ (item_callsign x = item_callsign y /\ zx <= zy)).
Proof.
  intros Hclean Hfl.
  assert (exists ks, mapM sort_key fl = Ok ks /\ StronglySorted key_le ks)
    as (ks & Hks & HS); [|by apply (keys_ascending fl ks)].
  revert Hfl. unfold filter_list.
  destruct (sorted json_list) as [sl|e] eqn:Hs; [|done]. cbn [bind].
  destruct (foldM _ sl sel_init) as [st|e] eqn:Hloop; [|done]. cbn [bind].
  intros [= <-].
  destruct (filter_loop_order _ _ _ _ _ Hloop) as (added & ys & Hfl & Hsub & HF).
  cbn in Hfl. rewrite Hfl. clear Hfl.
  destruct (sorted_spec _ _ Hs) as (Hperm & ks0 & Hks0 & Hsorted).
  assert (ys `sublist_of` sl) as Hys.
  { etrans; [exact Hsub|]. apply omap_candidate_sublist. by rewrite Hperm. }
  destruct (mapM_sublist _ _ _ _ Hys Hks0) as (ks & Hks & Hsubk).
  exists ks. split; [|by eapply StronglySorted_sublist].
  clear -HF Hks. revert ks Hks.
  induction HF as [|r y added ys [n ->] _ IH]; intros ks; [done|].
  cbn [mapM]. change (sort_key (set_turn y n)) with (sort_key y).
  destruct (sort_key y) as [k|]; [|done]. cbn [bind].
  destruct (mapM sort_key ys) as [ks'|] eqn:Hys; [|done]. cbn [bind].
  intros [= <-]. by rewrite (IH _ eq_refl).
Qed.

Lemma selection_sorted_witness :
  let a := Args "Home" Vhf Mcc (MccStr "") 100 (0%Q, 0%Q) None false 160 None false false in
  let mk := fun (i cs rx : string) =>
    Item (PStr i) cs rx "146.600" "1" "Boston, MA" 0%Q 0%Q PNone "" None in
  let json_list := [mk "7" "K1BBB" "146.000"; mk "10" "K1AAA" "146.100";
                    mk "9" "K1AAA" "146.200"] in
  exists fl,
    filter_list (fun _ _ => 0%Q) a json_list = Ok fl
    /\ item_id <$> fl = [PStr "9"; PStr "10"; PStr "7"]
    /\ exists zx zy : Z,
         int (PStr "9") = Ok zx /\ int (PStr "10") = Ok zy
         /\ (String.compare "K1AAA" "K1AAA" = Lt \/ ("K1AAA" = "K1AAA" /\ zx <= zy)).
Proof.
  intros a mk json_list.
  destruct (filter_list (fun _ _ => 0%Q) a json_list) as [fl|e] eqn:Hfl;
    [|by vm_compute in Hfl].
  assert (Forall (fun x => item_callsign x <> ""
                           /\ all_chars not_space (item_callsign x) = true) json_list)
    as Hclean by (by repeat constructor).
  pose proof (selection_sorted (fun _ _ => 0%Q) a json_list fl Hclean Hfl) as Hasc.
  exists fl. split; [done|].
  vm_compute in Hfl. injection Hfl as <-. split; [done|].
  exact (Hasc 0%nat 1%nat _ _ (Nat.lt_0_succ 0) eq_refl eq_refl).
Defined.

(** ** The power threshold *)

Lemma pep_skip_threshold_witness :
  let a := Args "Home" Both Mcc (MccStr "1") 100 (0%Q, 0%Q) (Some "10") false 160 None
                false false in
  let it := Item (PInt 1) "K1AAA" "146.000" "146.600" "1" "Boston, MA"
                 0%Q 0%Q (PStr "5") "" None in
  exists b, pep_skip a it = Ok b
    /\ (b = true <-> power_of it = None
                     \/ exists v, power_of it = Some v /\ (v = 0 \/ v < 10)).
Proof.
  intros a it. apply (pep_skip_threshold a it "10" 10); [reflexivity|reflexivity|lia].
Defined.

(** A threshold that [int()] rejects (as in [-p high]) is noticed only when
    a record with a defined, non-["0"] power reaches the power test: that
    record raises, in [passes] as well when it passed the band, prefix and
    distance tests; a record whose power is undefined or ["0"] is skipped
    without the threshold being read. *)
Theorem pep_threshold_not_a_number (check_distance : Q * Q -> Q * Q -> Q) (a : args)
    (it : item) (t : string) (e : exn) :
  args_pep a = Some t -> t <> "" -> int_of_str t = Raise e ->
  (isdigit (str (item_pep it)) = false \/ str (item_pep it) = "0" ->
     pep_skip a it = Ok true)
  /\ (isdigit (str (item_pep it)) = true -> str (item_pep it) <> "0" ->
        pep_skip a it = Raise e
        /\ (band_ok a it = true -> mcc_ok a it = Ok true ->
            too_far check_distance a it = false ->
            passes check_distance a it = Raise e)).
Proof.
  intros Ht Hne He.
  assert (truthy (args_pep a) = true) as Htr.
  { rewrite Ht. by destruct t. }
  assert (String.eqb t "0" = false) as Hz.
  { apply String.eqb_neq. intros ->. by vm_compute in He. }
  split.
  - intros H. unfold pep_skip. rewrite Htr.
    destruct H as [->| ->]; [done|]. by rewrite orb_true_r.
  - intros Hd Hnz.
    assert (pep_skip a it = Raise e) as Hskip.
    { unfold pep_skip. rewrite Htr, Hd. apply String.eqb_neq in Hnz. rewrite Hnz.
      cbn [negb orb]. rewrite Ht. change (default "" (Some t)) with t. rewrite Hz. cbn [negb].
      destruct (isdigit_int _ Hd) as [v ->]. cbn [bind]. by rewrite He. }
    split; [done|]. intros Hb Hm Hf. unfold passes.
    by rewrite Hb, Hm, Hf, Hskip.
Qed.

Lemma pep_threshold_not_a_number_witness :
  let a := Args "Home" Both Mcc (MccStr "1") 100 (0%Q, 0%Q) (Some "high") false 160 None
                false false in
  let it := Item (PInt 1) "K1AAA" "146.000" "146.600" "1" "Boston, MA"
                 0%Q 0%Q (PStr "25") "" None in
  let it0 := Item (PInt 1) "K1AAA" "146.000" "146.600" "1" "Boston, MA"
                  0%Q 0%Q PNone "" None in
  pep_skip a it0 = Ok true
  /\ pep_skip a it = Raise ValueError
  /\ passes (fun _ _ => 0%Q) a it = Raise ValueError.
Proof.
  intros a it it0.
  assert ("high" <> "") as Hne by done.
  split.
  - apply (pep_threshold_not_a_number (fun _ _ => 0%Q) a it0 "high" ValueError eq_refl Hne
             eq_refl).
    by left.
  - destruct (pep_threshold_not_a_number (fun _ _ => 0%Q) a it "high" ValueError eq_refl Hne
                eq_refl) as [_ H].
    assert (str (item_pep it) <> "0") as Hnz by done.
    destruct (H eq_refl Hnz) as [H1 H2].
    split; [exact H1|exact (H2 eq_refl eq_refl eq_refl)].
Defined.

(** ** The [mcc] selection without [-m] *)

Lemma sorted_total (l : list item) :
  Forall (fun x => exists z, int (item_id x) = Ok z) l -> exists sl, sorted l = Ok sl.
Proof.
  intros H. unfold sorted.
  assert (exists ks, mapM sort_key l = Ok ks) as [ks ->]; [|by eexists].
  induction H as [|x l [z Hz] _ [ks IH]]; [by exists []|].
  cbn [mapM]. unfold sort_key at 1. rewrite Hz. cbn [bind]. rewrite IH. by eexists.
Qed.

Lemma mcc_none_loop (check_distance : Q * Q -> Q * Q -> Q) (a : args)
    (l : list item) (st : sel_state) :
  args_type a = Mcc -> args_mcc a = MccNone ->
  foldM (filter_step check_distance a) l st
  = if existsb (band_ok a) l then Raise TypeError else Ok st.
Proof.
  intros Ht Hm. induction l as [|x l IH]; [done|].
  cbn [foldM existsb]. unfold filter_step at 1, passes, mcc_ok. rewrite Ht, Hm.
  destruct (band_ok a x); [done|]. cbn [negb bind orb]. exact IH.
Qed.

(** With [-t mcc] and no [-m], [startswith(None)] raises [TypeError] for the
    first record that passes the band test; when no record passes it the
    selection is empty. *)
Theorem mcc_missing_raises (check_distance : Q * Q -> Q * Q -> Q) (a : args)
    (json_list : list item) :
  args_type a = Mcc -> args_mcc a = MccNone ->
  Forall (fun x => exists z, int (item_id x) = Ok z) json_list ->
  (Exists (fun x => band_ok a x = true) json_list ->
     filter_list check_distance a json_list = Raise TypeError)
  /\ (Forall (fun x => band_ok a x = false) json_list ->
        filter_list check_distance a json_list = Ok []).
Proof.
  intros Ht Hm Hids.
  destruct (sorted_total _ Hids) as [sl Hs].
  destruct (sorted_spec _ _ Hs) as [Hperm _].
  unfold filter_list. rewrite Hs. cbn [bind]. rewrite mcc_none_loop by done.
  split.
  - intros Hex. rewrite <- Hperm in Hex.
    assert (existsb (band_ok a) sl = true) as ->; [|done].
    apply existsb_exists. apply Exists_exists in Hex as (x & Hx & Hb).
    exists x. split; [by apply list_elem_of_In|done].
  - intros Hall. rewrite <- Hperm in Hall.
    assert (existsb (band_ok a) sl = false) as ->; [|done].
    apply not_true_is_false. intros (x & Hx & Hb)%existsb_exists.
    rewrite Forall_forall in Hall. apply list_elem_of_In in Hx.
    by rewrite (Hall x Hx) in Hb.
Qed.

Lemma mcc_missing_raises_witness :
  let a := Args "Home" Vhf Mcc MccNone 100 (0%Q, 0%Q) None false 160 None false false in
  let x := Item (PInt 1) "K1AAA" "446.000" "446.600" "1" "Boston, MA" 0%Q 0%Q PNone "" None in
  let y := Item (PInt 2) "K1BBB" "146.000" "146.600" "1" "Salem, MA" 0%Q 0%Q PNone "" None in
  filter_list (fun _ _ => 0%Q) a [x; y] = Raise TypeError
  /\ filter_list (fun _ _ => 0%Q) a [x] = Ok [].
Proof.
  intros a x y. split.
  - apply (mcc_missing_raises (fun _ _ => 0%Q) a [x; y]); [reflexivity|reflexivity| |].
    + repeat constructor; by eexists.
    + apply Exists_cons_tl, Exists_cons_hd. reflexivity.
  - apply (mcc_missing_raises (fun _ _ => 0%Q) a [x]); [reflexivity|reflexivity| |].
    + repeat constructor; by eexists.
    + by repeat constructor.
Defined.

(** ** Standard mode: the tables of one run *)

Lemma channel_chunks_one (c : Z) (fl : list item) :
  fl <> [] -> Z.of_nat (length fl) <= c -> channel_chunks c fl = Ok [fl].
Proof.
  intros Hne Hle.
  assert (0 < length fl)%nat by (destruct fl; [done|simpl; lia]).
  rewrite channel_chunks_pos by lia.
  replace ((Z.of_nat (length fl) + c - 1) / c) with 1.
  - change (Z.to_nat 1) with 1%nat. cbn [seq fmap list_fmap Nat.mul].
    rewrite drop_0, take_ge by lia. done.
  - apply Z.div_unique with (r := Z.of_nat (length fl) - 1); lia.
Qed.

Lemma standard_rows_names (chunk : list item) :
  o_name <$> standard_rows chunk = zone_channel_names chunk.
Proof.
  induction chunk as [|it r IH]; [done|].
  change (standard_rows (it :: r))
    with (standard_row it 1 :: standard_row it 2 :: standard_rows r).
  cbn [fmap list_fmap]. fold (fmap (M := list) o_name). by rewrite IH.
Qed.

Lemma standard_rows_rx (chunk : list item) :
  o_rx <$> standard_rows chunk = flat_map (fun it => [item_tx it; item_tx it]) chunk.
Proof.
  induction chunk as [|it r IH]; [done|].
  change (standard_rows (it :: r))
    with (standard_row it 1 :: standard_row it 2 :: standard_rows r).
  cbn [fmap list_fmap]. fold (fmap (M := list) o_rx). by rewrite IH.
Qed.

Lemma standard_rows_tx (chunk : list item) :
  o_tx <$> standard_rows chunk = flat_map (fun it => [item_rx it; item_rx it]) chunk.
Proof.
  induction chunk as [|it r IH]; [done|].
  change (standard_rows (it :: r))
    with (standard_row it 1 :: standard_row it 2 :: standard_rows r).
  cbn [fmap list_fmap]. fold (fmap (M := list) o_tx). by rewrite IH.
Qed.

(** Standard mode with at most [zone_capacity] selected repeaters (and at
    least one): the run writes one zone, numbered 1 and named by [-n], whose
    members and frequencies are the names and frequencies of the channels
    table, row by row; that table has two rows per selected repeater. *)
Theorem standard_one_zone (check_distance : Q * Q -> Q * Q -> Q)
    (get_talkgroup_channels : pyval -> list (Z * Z))
    (talkgroup_name : string -> option string) (a : args)
    (template : list (list string)) (json_list fl : list item) :
  args_talkgroups a = false ->
  filter_list check_distance a json_list = Ok fl ->
  fl <> [] -> Z.of_nat (length fl) <= args_zone_capacity a ->
  exists t z,
    main check_distance get_talkgroup_channels talkgroup_name a template json_list = Ok t
    /\ zones_csv t = [z]
    /\ z_no z = 1 /\ z_name z = args_name a
    /\ z_members z = col_name <$> channels_csv t
    /\ z_rx z = col_rx <$> channels_csv t
    /\ z_tx z = col_tx <$> channels_csv t
    /\ length (channels_csv t) = (2 * length fl)%nat.
Proof.
  intros Hstd Hfl Hne Hle.
  rewrite main_standard, Hfl by done. cbn [bind]. unfold standard_tables.
  rewrite process_standard_one_chunk by done. cbn [bind].
  unfold write_zones_standard. rewrite channel_chunks_one by done. cbn [bind imap length].
  eexists _, _. split; [reflexivity|]. cbn [zones_csv channels_csv z_no z_name z_members z_rx z_tx].
  split; [done|]. split; [done|]. split; [done|].
  rewrite write_channels_standard by done.
  rewrite !fmap_imap, length_imap, length_standard_rows.
  split; [|split; [|split; [|done]]].
  - rewrite <- standard_rows_names. symmetry. apply (imap_const o_name).
  - rewrite <- standard_rows_rx. symmetry. apply (imap_const o_rx).
  - rewrite <- standard_rows_tx. symmetry. apply (imap_const o_tx).
Qed.

Lemma standard_one_zone_witness :
  let a := Args "Home" Vhf Mcc (MccStr "1") 100 (0%Q, 0%Q) None false 2 None false false in
  let x := Item (PInt 1) "K1BBB" "146.000" "146.600" "1" "Boston, MA" 0%Q 0%Q PNone "" None in
  let y := Item (PInt 12) "K1AAA" "146.100" "146.700" "1" "Salem, MA" 0%Q 0%Q PNone "" None in
  exists t z,
    main (fun _ _ => 0%Q) (fun _ => []) (fun _ => None) a [] [x; y] = Ok t
    /\ zones_csv t = [z]
    /\ z_no z = 1 /\ z_name z = "Home"
    /\ z_members z = col_name <$> channels_csv t
    /\ z_rx z = col_rx <$> channels_csv t
    /\ z_tx z = col_tx <$> channels_csv t
    /\ length (channels_csv t) = 4%nat.
Proof.
  intros a x y.
  apply (standard_one_zone (fun _ _ => 0%Q) (fun _ => []) (fun _ => None) a [] [x; y]
           [set_turn y 1; set_turn x 1]); [reflexivity|reflexivity|done|].
  cbn. lia.
Defined.

Lemma channel_chunks_nil (c : Z) : 0 < c -> channel_chunks c [] = Ok [].
Proof.
  intros Hc. rewrite channel_chunks_pos by done. cbn [length].
  replace ((Z.of_nat 0 + c - 1) / c) with 0; [done|].
  symmetry. apply Z.div_small. lia.
Qed.

(** Standard mode and the zone capacity: a capacity of 0 makes [range()]
    raise [ValueError] once the selection has returned; with a negative
    capacity, or with no repeater selected, there is no chunk, and the
    channels table and the zones table have no rows. *)
Theorem standard_capacity_edges (check_distance : Q * Q -> Q * Q -> Q)
    (get_talkgroup_channels : pyval -> list (Z * Z))
    (talkgroup_name : string -> option string) (a : args)
    (template : list (list string)) (json_list fl : list item) :
  args_talkgroups a = false ->
  filter_list check_distance a json_list = Ok fl ->
  (args_zone_capacity a = 0 ->
     main check_distance get_talkgroup_channels talkgroup_name a template json_list
     = Raise ValueError)
  /\ (args_zone_capacity a < 0 \/ (0 < args_zone_capacity a /\ fl = []) ->
        main check_distance get_talkgroup_channels talkgroup_name a template json_list
        = Ok (Tables [] [] [])).
Proof.
  intros Hstd Hfl. rewrite main_standard, Hfl by done. cbn [bind].
  unfold standard_tables, process_standard, write_zones_standard. split.
  - intros ->. by rewrite channel_chunks_zero.
  - intros [Hneg|[Hpos ->]].
    + by rewrite channel_chunks_neg.
    + by rewrite channel_chunks_nil.
Qed.

Lemma standard_capacity_edges_witness :
  let a0 := Args "Home" Vhf Mcc (MccStr "1") 100 (0%Q, 0%Q) None false 0 None false false in
  let a1 := Args "Home" Vhf Mcc (MccStr "1") 100 (0%Q, 0%Q) None false (-1) None false false in
  let x := Item (PInt 1) "K1BBB" "146.000" "146.600" "1" "Boston, MA" 0%Q 0%Q PNone "" None in
  main (fun _ _ => 0%Q) (fun _ => []) (fun _ => None) a0 [] [x] = Raise ValueError
  /\ main (fun _ _ => 0%Q) (fun _ => []) (fun _ => None) a1 [] [x] = Ok (Tables [] [] []).
Proof.
  intros a0 a1 x. split.
  - by apply (standard_capacity_edges (fun _ _ => 0%Q) (fun _ => []) (fun _ => None) a0 [] [x]
                [set_turn x 1] eq_refl eq_refl).
  - apply (standard_capacity_edges (fun _ _ => 0%Q) (fun _ => []) (fun _ => None) a1 [] [x]
             [set_turn x 1] eq_refl eq_refl).
    left. cbn. lia.
Defined.

(** ** Talkgroup mode: the channels table *)

Lemma process_talkgroups_pairs (get_talkgroup_channels : pyval -> list (Z * Z))
    (fl : list item) :
  process_talkgroups get_talkgroup_channels fl
  = (fun x : item * (Z * Z) => talkgroup_row x.1 x.2.1 x.2.2)
      <$> talkgroup_pairs get_talkgroup_channels fl.
Proof.
  unfold process_talkgroups, talkgroup_pairs.
  assert (forall it (l : list (Z * Z)) (out : list out_row),
            foldl (fun out (p : Z * Z) => format_talkgroup_channel out it p.1 p.2) out l
            = out ++ ((fun p : Z * Z => talkgroup_row it p.1 p.2) <$> l)) as Hinner.
  { intros it l. induction l as [|p l IH]; intros out; cbn [foldl].
    - by rewrite app_nil_r.
    - rewrite IH. unfold format_talkgroup_channel. by rewrite <- app_assoc. }
  assert (forall (out : list out_row),
            foldl (fun out it =>
                     foldl (fun out (p : Z * Z) => format_talkgroup_channel out it p.1 p.2)
                           out (get_talkgroup_channels (item_id it))) out fl
            = out ++ ((fun x : item * (Z * Z) => talkgroup_row x.1 x.2.1 x.2.2)
                        <$> flat_map (fun it => (fun p => (it, p))
                                                  <$> get_talkgroup_channels (item_id it)) fl))
    as Houter.
  { induction fl as [|it fl IH]; intros out; cbn [foldl flat_map].
    - by rewrite app_nil_r.
    - rewrite IH, Hinner, fmap_app, <- app_assoc, <- list_fmap_compose. done. }
  apply (Houter []).
Qed.

Lemma elem_of_talkgroup_pairs (get_talkgroup_channels : pyval -> list (Z * Z))
    (fl : list item) (it : item) (p : Z * Z) :
  (it, p) ∈ talkgroup_pairs get_talkgroup_channels fl
  <-> it ∈ fl /\ p ∈ get_talkgroup_channels (item_id it).
Proof.
  unfold talkgroup_pairs. rewrite list_elem_of_In, in_flat_map. split.
  - intros (it' & Hit & Hp). apply list_elem_of_In in Hit, Hp.
    apply list_elem_of_fmap in Hp as (p' & [= -> ->] & Hp'). done.
  - intros [Hit Hp]. exists it. split; [by apply list_elem_of_In|].
    apply list_elem_of_In, list_elem_of_fmap. by exists p.
Qed.

Lemma str_of_Z_not_Simplex (tg : Z) : str_of_Z tg <> "Simplex".
Proof.
  intros H. pose proof (str_of_Z_chars tg) as Hc. rewrite H in Hc. done.
Qed.

Section TalkgroupContact.

Variable get_talkgroup_channels : pyval -> list (Z * Z).
Variable talkgroup_name : string -> option string.
Variable a : args.
Variable fl : list item.
Variable tg_rows : list (list string).
Hypothesis Htg : args_talkgroups a = true.

Lemma write_channel_contact (i : Z) (it : item) (tg slot z : Z) :
  int (item_id it) = Ok z ->
  let row := write_channel get_talkgroup_channels talkgroup_name a fl tg_rows i
               (talkgroup_row it tg slot) in
  let c0 := csv_contact_name tg_rows (str_of_Z tg) in
  let c1 := if String.eqb c0 "Simplex" then
              match talkgroup_name (str_of_Z tg) with
              | Some n => rstrip (slice_to 16 n)
              | None => c0
              end
            else c0 in
  col_contact row = (if String.eqb c1 "Simplex" then str_of_Z tg else c1)
  /\ col_no row = str_of_Z i
  /\ length row = 56%nat.
Proof.
  intros Hid row c0 c1. subst row c1 c0.
  destruct (talkgroup_url_split it z tg Hid) as (Hc & Hs & Hst).
  unfold write_channel, talkgroup_row. cbn [o_url o_rx o_tx o_cc o_name].
  rewrite Htg, Hc, Hs, Hst. cbn [andb].
  repeat match goal with
         | |- context [if ?b then _ else _] => destruct b
         | |- context [match ?o with Some _ => _ | None => _ end] => destruct o
         end; done.
Qed.

(** Which contact name a talkgroup channel gets: the name found in the
    talkgroups table (first row after the header with the id and a name)
    comes first, then the name the talkgroup service answers, cut to 16
    characters, then the id text; a name ["Simplex"] counts as none, so the
    contact of a talkgroup channel is never ["Simplex"]. *)
Theorem talkgroup_contact_name (i : Z) (it : item) (tg slot z : Z) :
  int (item_id it) = Ok z ->
  let row := write_channel get_talkgroup_channels talkgroup_name a fl tg_rows i
               (talkgroup_row it tg slot) in
  let c0 := csv_contact_name tg_rows (str_of_Z tg) in
  col_contact row <> "Simplex"
  /\ (c0 <> "Simplex" -> col_contact row = c0)
  /\ (c0 = "Simplex" ->
      match talkgroup_name (str_of_Z tg) with
      | Some n =>
          col_contact row = if String.eqb (rstrip (slice_to 16 n)) "Simplex"
                            then str_of_Z tg else rstrip (slice_to 16 n)
      | None => col_contact row = str_of_Z tg
      end).
Proof.
  intros Hid row c0.
  destruct (write_channel_contact i it tg slot z Hid) as (Hrow & _).
  fold row c0 in Hrow. rewrite Hrow. clear Hrow.
  destruct (String.eqb_spec c0 "Simplex") as [E0|E0].
  - split; [|split; [done|]].
    + destruct (talkgroup_name (str_of_Z tg)) as [n|].
      * destruct (String.eqb_spec (rstrip (slice_to 16 n)) "Simplex"); [|done].
        apply str_of_Z_not_Simplex.
      * rewrite E0. cbn. apply str_of_Z_not_Simplex.
    + intros _. destruct (talkgroup_name (str_of_Z tg)) as [n|]; [done|].
      by rewrite E0.
  - apply String.eqb_neq in E0 as E0'. rewrite E0'. by split; [|split].
Qed.

End TalkgroupContact.

Lemma talkgroup_contact_name_witness :
  let a := Args "" Both Mcc (MccStr "3") 100 (0%Q, 0%Q) None false 160 None true false in
  let it := Item (PInt 310001) "K1AAA" "146.000" "146.600" "1" "Boston, MA" 0%Q 0%Q PNone
                 "" (Some 1%nat) in
  let tg_rows := [["No."; "Radio ID"; "Name"; "Call Type"; "Call Alert"];
                  ["1"; "91"; "World-wide"; "Group Call"; "None"]] in
  let tn := fun _ : string => Some "Simplex" in
  col_contact (write_channel (fun _ => [(91, 1); (9, 2)]) tn a [it] tg_rows 1
                 (talkgroup_row it 91 1)) = "World-wide"
  /\ col_contact (write_channel (fun _ => [(91, 1); (9, 2)]) tn a [it] tg_rows 2
                    (talkgroup_row it 9 2)) = "9".
Proof.
  intros a it tg_rows tn. split.
  - apply (talkgroup_contact_name (fun _ => [(91, 1); (9, 2)]) tn a [it] tg_rows eq_refl
             1 it 91 1 310001 eq_refl).
    done.
  - by apply (talkgroup_contact_name (fun _ => [(91, 1); (9, 2)]) tn a [it] tg_rows eq_refl
                2 it 9 2 310001 eq_refl).
Defined.

Section TalkgroupRows.

Variable get_talkgroup_channels : pyval -> list (Z * Z).
Variable talkgroup_name : string -> option string.
Variable a : args.
Variable fl : list item.
Variable tg_rows : list (list string).
Hypothesis Htg : args_talkgroups a = true.
Hypothesis Hids : forall it, it ∈ fl -> exists z, int (item_id it) = Ok z.

(** Row [i] of the channels table written from [output_list]. *)
Lemma talkgroup_rows_lookup (i : nat) (it : item) (p : Z * Z) :
  talkgroup_pairs get_talkgroup_channels fl !! i = Some (it, p) ->
  exists row,
    write_channels_csv get_talkgroup_channels talkgroup_name a fl tg_rows
      (process_talkgroups get_talkgroup_channels fl) !! i = Some row
    /\ col_no row = str_of_Z (Z.of_nat i + 1)
    /\ col_rx row = item_tx it
    /\ col_tx row = item_rx it
    /\ col_contact_id row = str_of_Z p.1
    /\ col_contact row <> "Simplex"
    /\ length row = length channels_header.
Proof.
  intros Hi. unfold write_channels_csv.
  rewrite process_talkgroups_pairs, list_lookup_imap, list_lookup_fmap, Hi.
  cbn [fmap option_fmap option_map fst snd].
  eexists. split; [reflexivity|].
  assert (it ∈ fl) as Hit.
  { apply list_elem_of_lookup_2 in Hi. by apply elem_of_talkgroup_pairs in Hi as [? _]. }
  destruct (Hids it Hit) as [z Hz].
  destruct (write_channel_talkgroup get_talkgroup_channels talkgroup_name a fl tg_rows
              Htg (Z.of_nat i + 1) it p.1 p.2 z Hz) as (H1 & H2 & H3 & _).
  destruct (write_channel_contact get_talkgroup_channels talkgroup_name a fl tg_rows
              Htg (Z.of_nat i + 1) it p.1 p.2 z Hz) as (H4 & H5 & H6).
  split; [done|]. split; [done|]. split; [done|]. split; [done|]. split; [|done].
  rewrite H4.
  repeat match goal with
         | |- context [if ?b then _ else _] => destruct b eqn:?
         | |- context [match ?o with Some _ => _ | None => _ end] => destruct o eqn:?
         end;
    try apply str_of_Z_not_Simplex; by apply String.eqb_neq.
Qed.

Lemma length_talkgroup_rows :
  length (write_channels_csv get_talkgroup_channels talkgroup_name a fl tg_rows
            (process_talkgroups get_talkgroup_channels fl))
  = length (talkgroup_pairs get_talkgroup_channels fl).
Proof.
  unfold write_channels_csv.
  by rewrite process_talkgroups_pairs, length_imap, length_fmap.
Qed.

End TalkgroupRows.

(** Talkgroup mode: the channels table of a run has one row per pair
    [(talkgroup, slot)] of every selected repeater, in selection order and,
    within a repeater, in the order of the lookup; row [i] is numbered
    [i + 1], its receive frequency is the repeater's [tx] and its transmit
    frequency the repeater's [rx], its contact id is the talkgroup id, its
    contact is not ["Simplex"], and it has the 56 cells of the header. *)
Theorem talkgroup_channels_table (check_distance : Q * Q -> Q * Q -> Q)
    (get_talkgroup_channels : pyval -> list (Z * Z))
    (talkgroup_name : string -> option string) (a : args)
    (template : list (list string)) (json_list fl : list item) :
  args_talkgroups a = true ->
  filter_list check_distance a json_list = Ok fl ->
  exists t,
    main check_distance get_talkgroup_channels talkgroup_name a template json_list = Ok t
    /\ length (channels_csv t) = length (talkgroup_pairs get_talkgroup_channels fl)
    /\ forall (i : nat) (it : item) (p : Z * Z),
         talkgroup_pairs get_talkgroup_channels fl !! i = Some (it, p) ->
         exists row,
           channels_csv t !! i = Some row
           /\ col_no row = str_of_Z (Z.of_nat i + 1)
           /\ col_rx row = item_tx it
           /\ col_tx row = item_rx it
           /\ col_contact_id row = str_of_Z p.1
           /\ col_contact row <> "Simplex"
           /\ length row = length channels_header.
Proof.
  intros Htg Hfl. rewrite main_talkgroup, Hfl by done. cbn [bind].
  eexists. split; [reflexivity|]. unfold talkgroup_tables. cbn [channels_csv].
  split; [apply length_talkgroup_rows|].
  intros i it p Hi. apply talkgroup_rows_lookup; [done| |done].
  intros it' Hit'. by eapply filter_list_ids.
Qed.

Lemma talkgroup_channels_table_witness :
  let a := Args "" Both Mcc (MccStr "3") 100 (0%Q, 0%Q) None false 160 None true false in
  let x := Item (PInt 310001) "K1AAA" "146.000" "146.600" "1" "Boston, MA" 0%Q 0%Q PNone
                "" None in
  let gtc := fun _ : pyval => [(91, 1); (9, 2)] in
  let template := [["No."; "Radio ID"; "Name"; "Call Type"; "Call Alert"]] in
  exists t,
    main (fun _ _ => 0%Q) gtc (fun _ => None) a template [x] = Ok t
    /\ length (channels_csv t) = 2%nat
    /\ forall (i : nat) (it : item) (p : Z * Z),
         talkgroup_pairs gtc [set_turn x 1] !! i = Some (it, p) ->
         exists row,
           channels_csv t !! i = Some row
           /\ col_no row = str_of_Z (Z.of_nat i + 1)
           /\ col_rx row = item_tx it
           /\ col_tx row = item_rx it
           /\ col_contact_id row = str_of_Z p.1
           /\ col_contact row <> "Simplex"
           /\ length row = length channels_header.
Proof.
  intros a x gtc template.
  exact (talkgroup_channels_table (fun _ _ => 0%Q) gtc (fun _ => None) a template [x]
           [set_turn x 1] eq_refl eq_refl).
Defined.

(** ** Talkgroup mode: the zones table *)

Lemma zones_tg_fold (get_talkgroup_channels : pyval -> list (Z * Z))
    (channels : list (list string)) (fl : list item) (k : Z) (zs : list zone_row) :
  foldl (zones_tg_step get_talkgroup_channels channels) (k, zs) fl
  = (k + Z.of_nat (length (filter (fun it => get_talkgroup_channels (item_id it) <> []) fl)),
     zs ++ imap (fun i it => zone_tg_row channels (k + Z.of_nat i) it)
                (filter (fun it => get_talkgroup_channels (item_id it) <> []) fl)).
Proof.
  revert k zs. induction fl as [|it fl IH]; intros k zs; cbn [foldl].
  - cbn. by rewrite Z.add_0_r, app_nil_r.
  - rewrite filter_cons. unfold zones_tg_step at 2.
    destruct (get_talkgroup_channels (item_id it)) as [|p l] eqn:Hp.
    + rewrite decide_False by (by intros H). apply IH.
    + rewrite decide_True by done. rewrite IH. cbn [length imap]. f_equal; [lia|].
      rewrite <- app_assoc. cbn [app]. unfold zone_tg_row at 2. rewrite Z.add_0_r.
      do 2 f_equal. apply imap_ext. intros i x _. cbn. f_equal. lia.
Qed.

Lemma length_filter_Forall2 {A B} (P : A -> Prop) (Q : B -> Prop)
    `{!forall x, Decision (P x)} `{!forall y, Decision (Q y)} (l : list A) (k : list B) :
  Forall2 (fun x y => P x <-> Q y) l k -> length (filter P l) = length (filter Q k).
Proof.
  induction 1 as [|x y l k Hxy _ IH]; [done|].
  rewrite !filter_cons. destruct (decide (P x)) as [Hx|Hx].
  - rewrite decide_True by (by apply Hxy). cbn. by rewrite IH.
  - rewrite decide_False by (by rewrite <- Hxy). done.
Qed.

Lemma filter_Forall_id {A} (P : A -> Prop) `{!forall x, Decision (P x)} (l : list A) :
  Forall P l -> filter P l = l.
Proof.
  induction 1 as [|x l Hx _ IH]; [done|].
  by rewrite filter_cons_True, IH.
Qed.

Lemma length_filter_own_pairs (get_talkgroup_channels : pyval -> list (Z * Z))
    (fl : list item) (it : item) :
  it ∈ fl ->
  (length (get_talkgroup_channels (item_id it))
   <= length (filter (fun x : item * (Z * Z) => item_tx x.1 = item_tx it
                                               /\ item_rx x.1 = item_rx it)
                     (talkgroup_pairs get_talkgroup_channels fl)))%nat.
Proof.
  unfold talkgroup_pairs. induction fl as [|it' fl IH]; [by intros ?%elem_of_nil|].
  cbn [flat_map]. rewrite filter_app, length_app.
  intros [->|Hin]%elem_of_cons.
  - rewrite filter_Forall_id; [rewrite length_fmap; lia|].
    apply Forall_fmap, Forall_forall. by intros p _.
  - specialize (IH Hin). lia.
Qed.

Lemma filter_ext_in {A} (P Q : A -> Prop) `{!forall x, Decision (P x)}
    `{!forall x, Decision (Q x)} (l : list A) :
  Forall (fun x => P x <-> Q x) l -> filter P l = filter Q l.
Proof.
  induction 1 as [|x l Hx _ IH]; [done|].
  rewrite !filter_cons, IH. destruct (decide (P x)) as [HP|HP].
  - by rewrite decide_True by (by apply Hx).
  - by rewrite decide_False by (by rewrite <- Hx).
Qed.

Lemma Forall2_lookup_same {A B} (R : A -> B -> Prop) (l : list A) (k : list B) :
  length l = length k ->
  (forall i y, k !! i = Some y -> exists x, l !! i = Some x /\ R x y) ->
  Forall2 R l k.
Proof.
  intros Hlen H. apply Forall2_same_length_lookup. split; [done|].
  intros i x y Hx Hy. destruct (H i y Hy) as (x' & Hx' & HR). congruence.
Qed.

(** Talkgroup mode: the zones table of a run has one zone per selected
    repeater with at least one talkgroup pair, in selection order; zone [i]
    is numbered [i + 1] and named after its repeater, its members are the
    names of the rows of the channels table with the repeater's frequencies,
    in table order, with the repeater's [tx] and [rx] repeated beside them,
    and there are at least as many members as the repeater has pairs: no
    zone is empty. *)
Theorem talkgroup_zones_table (check_distance : Q * Q -> Q * Q -> Q)
    (get_talkgroup_channels : pyval -> list (Z * Z))
    (talkgroup_name : string -> option string) (a : args)
    (template : list (list string)) (json_list fl : list item) :
  args_talkgroups a = true ->
  filter_list check_distance a json_list = Ok fl ->
  let reps := filter (fun it => get_talkgroup_channels (item_id it) <> []) fl in
  exists t,
    main check_distance get_talkgroup_channels talkgroup_name a template json_list = Ok t
    /\ length (zones_csv t) = length reps
    /\ forall (i : nat) (it : item),
         reps !! i = Some it ->
         exists z,
           zones_csv t !! i = Some z
           /\ z_no z = Z.of_nat i + 1
           /\ z_name z = zone_name_tg it
           /\ z_members z
              = col_name <$> filter (fun row => col_rx row = item_tx it
                                                /\ col_tx row = item_rx it)
                                    (channels_csv t)
           /\ z_rx z = replicate (length (z_members z)) (item_tx it)
           /\ z_tx z = replicate (length (z_members z)) (item_rx it)
           /\ (0 < length (get_talkgroup_channels (item_id it))
               <= length (z_members z))%nat.
Proof.
  intros Htg Hfl reps. rewrite main_talkgroup, Hfl by done. cbn [bind].
  eexists. split; [reflexivity|]. unfold talkgroup_tables. cbn [channels_csv zones_csv].
  set (tg_rows := update_talkgroups talkgroup_name template
                    (unique_talkgroups get_talkgroup_channels fl)).
  set (channels := write_channels_csv get_talkgroup_channels talkgroup_name a fl tg_rows
                     (process_talkgroups get_talkgroup_channels fl)).
  assert (forall it, it ∈ fl -> exists z, int (item_id it) = Ok z) as Hids.
  { intros it' Hit'. by eapply filter_list_ids. }
  unfold write_zones_tg. rewrite zones_tg_fold. cbn [snd app]. fold reps.
  rewrite length_imap. split; [done|]. intros i it Hi.
  rewrite list_lookup_imap, Hi. cbn [fmap option_fmap option_map].
  eexists. split; [reflexivity|]. unfold zone_tg_row.
  cbn [z_no z_name z_members z_rx z_tx].
  assert (it ∈ fl /\ get_talkgroup_channels (item_id it) <> []) as [Hit Hne].
  { apply list_elem_of_lookup_2 in Hi. subst reps.
    apply list_elem_of_filter in Hi as [? ?]. done. }
  assert (Forall2 (fun (row : list string) (x : item * (Z * Z)) =>
                     length row = 56%nat /\ col_rx row = item_tx x.1
                     /\ col_tx row = item_rx x.1)
                  channels (talkgroup_pairs get_talkgroup_channels fl)) as Hrows.
  { apply Forall2_lookup_same; [by apply length_talkgroup_rows|].
    intros j [it' p'] Hj.
    destruct (talkgroup_rows_lookup get_talkgroup_channels talkgroup_name a fl tg_rows
                Htg Hids j it' p' Hj) as (row & Hrow & _ & H2 & H3 & _ & _ & H6).
    exists row. done. }
  split; [lia|]. split; [done|].
  rewrite !length_fmap.
  split; [|split; [|split]].
  - f_equal. apply filter_ext_in.
    eapply Forall2_Forall_l; [exact Hrows|]. apply Forall_true.
    intros x row (Hl & _ & _). unfold col_rx, col_tx. rewrite Hl. cbn.
    split; [by intros (_ & ? & ?)|by intros [? ?]].
  - by apply const_fmap.
  - by apply const_fmap.
  - split; [destruct (get_talkgroup_channels (item_id it)); [done|cbn; lia]|].
    etrans; [by apply length_filter_own_pairs|].
    apply Nat.eq_le_incl. symmetry. apply length_filter_Forall2.
    eapply Forall2_impl; [exact Hrows|].
    intros row x (Hl & Hrx & Htx). cbn beta. unfold col_rx, col_tx in *.
    rewrite Hl, Hrx, Htx. cbn.
    split; [by intros (_ & ? & ?)|by intros [? ?]].
Qed.

Lemma talkgroup_zones_table_witness :
  let a := Args "" Both Mcc (MccStr "3") 100 (0%Q, 0%Q) None false 160 None true false in
  let x := Item (PInt 310001) "K1AAA" "146.000" "146.600" "1" "Boston, MA" 0%Q 0%Q PNone
                "" None in
  let y := Item (PInt 310002) "K1BBB" "147.000" "147.600" "1" "Salem, MA" 0%Q 0%Q PNone
                "" None in
  let gtc := fun v : pyval => match v with PInt 310001 => [] | _ => [(91, 1); (9, 2)] end in
  let template := [["No."; "Radio ID"; "Name"; "Call Type"; "Call Alert"]] in
  let reps := filter (fun it => gtc (item_id it) <> []) [set_turn x 1; set_turn y 1] in
  reps = [set_turn y 1]
  /\ exists t,
       main (fun _ _ => 0%Q) gtc (fun _ => None) a template [x; y] = Ok t
       /\ length (zones_csv t) = length reps
       /\ forall (i : nat) (it : item),
            reps !! i = Some it ->
            exists z,
              zones_csv t !! i = Some z
              /\ z_no z = Z.of_nat i + 1
              /\ z_name z = zone_name_tg it
              /\ z_members z
                 = col_name <$> filter (fun row => col_rx row = item_tx it
                                                   /\ col_tx row = item_rx it)
                                       (channels_csv t)
              /\ z_rx z = replicate (length (z_members z)) (item_tx it)
              /\ z_tx z = replicate (length (z_members z)) (item_rx it)
              /\ (0 < length (gtc (item_id it)) <= length (z_members z))%nat.
Proof.
  intros a x y gtc template reps. split; [reflexivity|].
  exact (talkgroup_zones_table (fun _ _ => 0%Q) gtc (fun _ => None) a template [x; y]
           [set_turn x 1; set_turn y 1] eq_refl eq_refl).
Defined.

(** ** The talkgroups table is updated only once *)

Lemma new_rows_step_old (talkgroup_name : string -> option string)
    (rows new : list (list string)) (tg_id : Z) :
  ~ is_new rows tg_id -> new_rows_step talkgroup_name rows new tg_id = new.
Proof.
  unfold is_new, new_rows_step. intros H.
  destruct (String.eqb_spec (keep_digits (str_of_Z tg_id)) "") as [E|E]; [done|].
  cbn [negb andb].
  destruct (bool_decide_reflect (keep_digits (str_of_Z tg_id) ∈ radio_ids rows)); [done|].
  by destruct H.
Qed.

Lemma new_rows_none (talkgroup_name : string -> option string)
    (rows : list (list string)) (u : gset Z) :
  (forall tg, tg ∈ u -> ~ is_new rows tg) -> new_rows talkgroup_name rows u = [].
Proof.
  intros H. unfold new_rows.
  assert (Forall (fun tg => ~ is_new rows tg) (merge_sort Z.le (elements u))) as HF.
  { apply Forall_forall. intros tg Htg. apply H.
    rewrite merge_sort_Permutation in Htg. by apply elem_of_elements in Htg. }
  induction HF as [|tg l Htg _ IH]; [done|].
  cbn [foldl]. by rewrite new_rows_step_old.
Qed.

(** The update of [talkgroups.csv] keeps the rows of the file as they are,
    in front of the rows it appends, and a second update of the updated
    file with talkgroups of the first one appends nothing: a run that finds
    the file of an earlier run leaves it unchanged. *)
Theorem update_talkgroups_once (talkgroup_name : string -> option string)
    (rows : list (list string)) (u u' : gset Z) :
  u' ⊆ u ->
  rows `prefix_of` update_talkgroups talkgroup_name rows u
  /\ update_talkgroups talkgroup_name (update_talkgroups talkgroup_name rows u) u'
     = update_talkgroups talkgroup_name rows u.
Proof.
  intros Hsub. destruct (decide (rows = [])) as [->|Hne]; [done|].
  rewrite (update_talkgroups_app _ _ u Hne).
  split; [by eexists|].
  assert (rows ++ new_rows talkgroup_name rows u <> []) as Hne' by (by destruct rows).
  rewrite (update_talkgroups_app _ _ u' Hne').
  rewrite (new_rows_none _ (rows ++ new_rows talkgroup_name rows u) u');
    [by rewrite app_nil_r|].
  intros tg Htg [Hd Hnew]. apply Hnew.
  rewrite <- (update_talkgroups_app _ _ u Hne), update_talkgroups_ids by done.
  destruct (decide (keep_digits (str_of_Z tg) ∈ radio_ids rows)) as [Hin|Hin].
  - apply elem_of_app. by left.
  - apply elem_of_app. right.
    apply (list_elem_of_fmap_2 (keep_digits ∘ str_of_Z)).
    apply list_elem_of_filter. split; [done|].
    rewrite merge_sort_Permutation. apply elem_of_elements. by apply Hsub.
Qed.

Lemma update_talkgroups_once_witness :
  let rows := [["No."; "Radio ID"; "Name"; "Call Type"; "Call Alert"];
               ["1"; "91"; "World-wide"; "Group Call"; "None"]] in
  let tn := fun s : string => if String.eqb s "9" then Some "Local " else None in
  let u : gset Z := {[ 9; 91; 3100 ]} in
  let u' : gset Z := {[ 9; 3100 ]} in
  update_talkgroups tn rows u
  = rows ++ [["2"; "9"; "Local"; "Group Call"; "None"];
             ["3"; "3100"; "3100"; "Group Call"; "None"]]
  /\ rows `prefix_of` update_talkgroups tn rows u
  /\ update_talkgroups tn (update_talkgroups tn rows u) u' = update_talkgroups tn rows u.
Proof.
  intros rows tn u u'. split; [by vm_compute|].
  apply (update_talkgroups_once tn rows u u').
  intros x. subst u u'. rewrite !elem_of_union, !elem_of_singleton. tauto.
Defined.

(** ** Talkgroup mode: channel names *)

Section TalkgroupChannelName.

Variable get_talkgroup_channels : pyval -> list (Z * Z).
Variable talkgroup_name : string -> option string.
Variable a : args.
Variable fl : list item.
Variable tg_rows : list (list string).
Hypothesis Htg : args_talkgroups a = true.

(** In talkgroup mode the name of a channel is made from its contact, not
    from the callsign: without [--city-prefix] it is the contact with
    trailing whitespace removed; with it, the first 16 characters of
    ["{abbr}.{contact}"], where [abbr] is the city code of the first
    selected repeater with the channel's frequencies. *)
Theorem talkgroup_channel_name (i : Z) (it it0 : item) (tg slot z : Z) :
  int (item_id it) = Ok z ->
  find_repeater fl (item_tx it) (item_rx it) = Some it0 ->
  let row := write_channel get_talkgroup_channels talkgroup_name a fl tg_rows i
               (talkgroup_row it tg slot) in
  col_name row
  = if args_city_prefix a
    then rstrip (slice_to 16 (city_abbr_of (item_city it0) +:+ "." +:+ col_contact row))
    else rstrip (col_contact row).
Proof.
  intros Hid Hfind row. subst row.
  destruct (talkgroup_url_split it z tg Hid) as (Hc & Hs & Hst).
  unfold write_channel, talkgroup_row. cbn [o_url o_rx o_tx o_cc o_name].
  rewrite Htg, Hc, Hs, Hst. cbn [andb]. unfold with_city_prefix. rewrite Hfind.
  destruct (String.eqb (csv_contact_name tg_rows (str_of_Z tg)) "Simplex") eqn:E0.
  - destruct (talkgroup_name (str_of_Z tg)) as [n|].
    + destruct (String.eqb (rstrip (slice_to 16 n)) "Simplex") eqn:E1; cbn [negb];
        by destruct (args_city_prefix a).
    + rewrite E0. cbn [negb]. by destruct (args_city_prefix a).
  - rewrite E0. cbn [negb]. by destruct (args_city_prefix a).
Qed.

End TalkgroupChannelName.

Lemma talkgroup_channel_name_witness :
  let a := Args "" Both Mcc (MccStr "3") 100 (0%Q, 0%Q) None false 160 None true true in
  let it0 := Item (PInt 310001) "K1AAA" "146.000" "146.600" "1" "Boston, MA" 0%Q 0%Q PNone
                  "" (Some 1%nat) in
  let it := Item (PInt 310002) "K1BBB" "146.000" "146.600" "1" "Salem, MA" 0%Q 0%Q PNone
                 "" (Some 1%nat) in
  let tg_rows := [["No."; "Radio ID"; "Name"; "Call Type"; "Call Alert"];
                  ["1"; "91"; "World-wide"; "Group Call"; "None"]] in
  let row := write_channel (fun _ => [(91, 1)]) (fun _ => None) a [it0; it] tg_rows 2
               (talkgroup_row it 91 1) in
  col_contact row = "World-wide" /\ col_name row = "BOS.World-wide".
Proof.
  intros a it0 it tg_rows row. split; [reflexivity|].
  subst row.
  rewrite (talkgroup_channel_name (fun _ => [(91, 1)]) (fun _ => None) a [it0; it] tg_rows
             eq_refl 2 it it0 91 1 310002 eq_refl eq_refl).
  reflexivity.
Defined.

Lemma talkgroup_display_name_le_16_witness :
  let a := Args "" Both Mcc (MccStr "3") 100 (0%Q, 0%Q) None false 160 None true false in
  let it := Item (PInt 310001) "K1AAA" "146.000" "146.600" "1" "Boston, MA" 0%Q 0%Q PNone
                 "" (Some 1%nat) in
  let tn := fun _ : string => Some "A talkgroup with a long name" in
  len (col_name (write_channel (fun _ => [(91, 1)]) tn a [it] [] 1 (talkgroup_row it 91 1)))
  <= 16.
Proof.
  intros a it tn.
  apply (talkgroup_display_name_le_16 (fun _ => [(91, 1)]) tn a [it] [] eq_refl 1 it 91 1
           310001 eq_refl).
  - by apply list_elem_of_singleton.
  - by vm_compute.
Defined.

(** ** Standard mode: zone names *)

Lemma str_app_inv_head (s t t' : string) : s +:+ t = s +:+ t' -> t = t'.
Proof.
  induction s as [|c s IH]; [done|].
  change (String c (s +:+ t) = String c (s +:+ t') -> t = t').
  intros [= H]. by apply IH.
Qed.

(** The zones written in standard mode have pairwise distinct names. *)
Theorem standard_zone_names_distinct (a : args) (fl : list item) (zs : list zone_row) :
  write_zones_standard a fl = Ok zs ->
  NoDup (z_name <$> zs).
Proof.
  unfold write_zones_standard.
  destruct (channel_chunks (args_zone_capacity a) fl) as [chunks|e]; [|done].
  cbn [bind]. intros [= <-]. rewrite fmap_imap.
  apply NoDup_alt. intros i j x Hi Hj.
  rewrite list_lookup_imap in Hi, Hj.
  destruct (chunks !! i) as [ci|] eqn:Hci; [|done].
  destruct (chunks !! j) as [cj|] eqn:Hcj; [|done].
  cbn in Hi, Hj. destruct (length chunks =? 1)%nat eqn:Hlen.
  - apply Nat.eqb_eq in Hlen.
    apply lookup_lt_Some in Hci, Hcj. lia.
  - rewrite <- Hj in Hi. injection Hi as Hi.
    apply str_app_inv_head in Hi. apply (str_app_inv_head " #") in Hi.
    apply str_of_Z_inj in Hi. lia.
Qed.

Lemma standard_zone_names_distinct_witness :
  let a := Args "Home" Vhf Mcc (MccStr "1") 100 (0%Q, 0%Q) None false 1 None false false in
  let x := Item (PInt 1) "K1AAA" "146.000" "146.600" "1" "Boston, MA" 0%Q 0%Q PNone ""
                (Some 1%nat) in
  let y := Item (PInt 12) "K1BBB" "146.100" "146.700" "1" "Salem, MA" 0%Q 0%Q PNone ""
                (Some 1%nat) in
  exists zs, write_zones_standard a [x; y] = Ok zs
    /\ z_name <$> zs = ["Home #1"; "Home #2"]
    /\ NoDup (z_name <$> zs).
Proof.
  intros a x y. eexists. split; [reflexivity|]. split; [reflexivity|].
  by apply (standard_zone_names_distinct a [x; y]).
Defined.

(** ** Talkgroup mode: the contact of a new talkgroup *)

Section NewTalkgroupRows.

Variable talkgroup_name : string -> option string.
Variable rows : list (list string).

Lemma foldl_new_rows_rows (l l0 : list Z) (new : list (list string)) :
  Forall2 (fun row tg => exists no,
             row = [no; keep_digits (str_of_Z tg); new_talkgroup_name talkgroup_name tg;
                    "Group Call"; "None"]) new l0 ->
  Forall2 (fun row tg => exists no,
             row = [no; keep_digits (str_of_Z tg); new_talkgroup_name talkgroup_name tg;
                    "Group Call"; "None"])
          (foldl (new_rows_step talkgroup_name rows) new l)
          (l0 ++ filter (is_new rows) l).
Proof.
  revert l0 new. induction l as [|tg l IH]; intros l0 new H; cbn [foldl].
  - by rewrite app_nil_r.
  - rewrite filter_cons. destruct (decide (is_new rows tg)) as [Hn|Hn].
    + replace (l0 ++ tg :: filter (is_new rows) l)
        with ((l0 ++ [tg]) ++ filter (is_new rows) l) by (by rewrite <- app_assoc).
      apply IH. unfold new_rows_step. destruct Hn as [Hd Hin].
      apply String.eqb_neq in Hd. rewrite Hd. cbn [negb andb].
      rewrite bool_decide_false by done. cbn [negb].
      apply Forall2_app; [done|]. constructor; [|constructor]. by eexists.
    + rewrite new_rows_step_old by done. by apply IH.
Qed.

Lemma new_rows_rows (u : gset Z) :
  Forall2 (fun row tg => exists no,
             row = [no; keep_digits (str_of_Z tg); new_talkgroup_name talkgroup_name tg;
                    "Group Call"; "None"])
          (new_rows talkgroup_name rows u)
          (filter (is_new rows) (merge_sort Z.le (elements u))).
Proof. apply (foldl_new_rows_rows _ [] []). constructor. Qed.

End NewTalkgroupRows.

Lemma find_app_None {A} (p : A -> bool) (l k : list A) :
  List.find p l = None -> List.find p (l ++ k) = List.find p k.
Proof.
  induction l as [|x l IH]; [done|]. cbn [List.find app].
  destruct (p x); [done|]. exact IH.
Qed.

Lemma find_contact_old (tg_id : string) (rest : list (list string)) :
  tg_id <> "" -> tg_id ∉ omap radio_id rest ->
  List.find (fun row => (2 <? Z.of_nat (length row))
                        && String.eqb (col 1 row) tg_id
                        && negb (String.eqb (col 2 row) "")) rest = None.
Proof.
  intros Hne. induction rest as [|row rest IH]; [done|]. cbn [List.find omap list_omap].
  intros Hnin.
  destruct ((2 <? Z.of_nat (length row)) && (col 1 row =? tg_id)%string
            && negb (col 2 row =? "")%string) eqn:Hp.
  - exfalso. apply andb_true_iff in Hp as [[_ Hid]%andb_true_iff _].
    apply String.eqb_eq in Hid. destruct row as [|c0 [|c1 r]]; [done|done|].
    cbn in Hid. subst c1. destruct tg_id as [|c s]; [done|].
    cbn in Hnin. apply Hnin. by left.
  - apply IH. destruct (radio_id row); [|done].
    intros H. apply Hnin. by right.
Qed.

Lemma find_contact_new (talkgroup_name : string -> option string) (tg : Z)
    (new : list (list string)) (l : list Z) :
  Forall2 (fun row tg => exists no,
             row = [no; keep_digits (str_of_Z tg); new_talkgroup_name talkgroup_name tg;
                    "Group Call"; "None"]) new l ->
  Forall (fun tg' => 0 <= tg') l -> tg ∈ l ->
  new_talkgroup_name talkgroup_name tg <> "" ->
  exists no,
    List.find (fun row => (2 <? Z.of_nat (length row))
                          && String.eqb (col 1 row) (str_of_Z tg)
                          && negb (String.eqb (col 2 row) "")) new
    = Some [no; str_of_Z tg; new_talkgroup_name talkgroup_name tg; "Group Call"; "None"].
Proof.
  intros HF Hpos Hin Hname.
  induction HF as [|row tg' new l [no ->] _ IH]; [by apply elem_of_nil in Hin|].
  apply Forall_cons in Hpos as [Hpos' Hpos].
  cbn [List.find length col nth]. rewrite keep_digits_nat by done.
  change (2 <? Z.of_nat 5) with true. cbn [andb].
  destruct (String.eqb_spec (str_of_Z tg') (str_of_Z tg)) as [E|E].
  - apply str_of_Z_inj in E. subst tg'. apply String.eqb_neq in Hname. rewrite Hname.
    cbn [negb]. by exists no.
  - cbn [andb]. apply IH; [done|].
    apply elem_of_cons in Hin as [->|Hin]; [done|done].
Qed.

(** A talkgroup that the run adds to the talkgroups table (ids taken as
    non-negative numbers, a file with a header, the id not yet a Radio ID of
    the file) gets a row with the name answered by the talkgroup service, or
    with the id text; a channel of that talkgroup has the first 16
    characters of that name as its contact, unless they read ["Simplex"]. *)
Theorem new_talkgroup_contact (get_talkgroup_channels : pyval -> list (Z * Z))
    (talkgroup_name : string -> option string) (a : args)
    (template : list (list string)) (fl : list item) (i : Z) (it : item) (tg slot z : Z) :
  args_talkgroups a = true ->
  template <> [] ->
  (forall it' tg' s', it' ∈ fl -> (tg', s') ∈ get_talkgroup_channels (item_id it') ->
                      0 <= tg') ->
  it ∈ fl -> (tg, slot) ∈ get_talkgroup_channels (item_id it) ->
  int (item_id it) = Ok z ->
  str_of_Z tg ∉ radio_ids template ->
  let name := new_talkgroup_name talkgroup_name tg in
  name <> "" -> rstrip (slice_to 16 name) <> "Simplex" ->
  let t := talkgroup_tables get_talkgroup_channels talkgroup_name a template fl in
  (exists no, [no; str_of_Z tg; name; "Group Call"; "None"] ∈ talkgroups_csv t)
  /\ col_contact (write_channel get_talkgroup_channels talkgroup_name a fl (talkgroups_csv t) i
                    (talkgroup_row it tg slot))
     = rstrip (slice_to 16 name).
Proof.
  intros Htg Hne Hpos Hit Hin Hid Hnew name Hname Hsimplex t. subst t.
  unfold talkgroup_tables. cbn [talkgroups_csv].
  set (u := unique_talkgroups get_talkgroup_channels fl).
  rewrite update_talkgroups_app by done.
  pose proof (new_rows_rows talkgroup_name template u) as HF.
  set (new := new_rows talkgroup_name template u) in *.
  set (l := filter (is_new template) (merge_sort Z.le (elements u))) in *.
  assert (0 <= tg) as Htg0 by (by eapply Hpos).
  assert (tg ∈ l) as Hl.
  { subst l. apply list_elem_of_filter. split.
    - split; rewrite keep_digits_nat by done; [by apply str_of_Z_nonempty|done].
    - rewrite merge_sort_Permutation. apply elem_of_elements.
      apply elem_of_unique_talkgroups. by exists it, slot. }
  assert (Forall (fun tg' => 0 <= tg') l) as Hl0.
  { apply Forall_forall. intros tg' Htg'. subst l.
    apply list_elem_of_filter in Htg' as [_ Htg'].
    rewrite merge_sort_Permutation in Htg'. apply elem_of_elements in Htg'.
    apply elem_of_unique_talkgroups in Htg' as (it' & s' & ? & ?). by eapply Hpos. }
  destruct (find_contact_new talkgroup_name tg new l HF Hl0 Hl Hname) as [no Hfind].
  split.
  - exists no. apply elem_of_app. right.
    apply List.find_some in Hfind as [Hfind _]. by apply list_elem_of_In.
  - destruct (write_channel_contact get_talkgroup_channels talkgroup_name a fl
                (template ++ new) Htg i it tg slot z Hid) as (Hrow & _).
    rewrite Hrow. clear Hrow.
    assert (csv_contact_name (template ++ new) (str_of_Z tg) = rstrip (slice_to 16 name))
      as ->.
    { unfold csv_contact_name. destruct template as [|h rest]; [done|]. cbn [app].
      rewrite find_app_None, Hfind; [done|].
      apply find_contact_old; [by apply str_of_Z_nonempty|done]. }
    apply String.eqb_neq in Hsimplex. by rewrite !Hsimplex.
Qed.

Lemma new_talkgroup_contact_witness :
  let a := Args "" Both Mcc (MccStr "3") 100 (0%Q, 0%Q) None false 160 None true false in
  let it := Item (PInt 310001) "K1AAA" "146.000" "146.600" "1" "Boston, MA" 0%Q 0%Q PNone
                 "" (Some 1%nat) in
  let gtc := fun _ : pyval => [(91, 1); (9, 2)] in
  let tn := fun s : string => if String.eqb s "9" then Some "Local " else None in
  let template := [["No."; "Radio ID"; "Name"; "Call Type"; "Call Alert"];
                   ["1"; "91"; "World-wide"; "Group Call"; "None"]] in
  let t := talkgroup_tables gtc tn a template [it] in
  (exists no, [no; "9"; "Local"; "Group Call"; "None"] ∈ talkgroups_csv t)
  /\ col_contact (write_channel gtc tn a [it] (talkgroups_csv t) 2 (talkgroup_row it 9 2))
     = "Local".
Proof.
  intros a it gtc tn template t.
  apply (new_talkgroup_contact gtc tn a template [it] 2 it 9 2 310001); try done.
  - intros it' tg' s' _ Hin.
    apply elem_of_cons in Hin as [[= -> _]|Hin]; [done|].
    apply elem_of_cons in Hin as [[= -> _]|Hin]; [done|].
    by apply elem_of_nil in Hin.
  - by apply list_elem_of_singleton.
  - apply elem_of_cons. right. by apply elem_of_cons; left.
  - cbn. intros Hin. apply elem_of_cons in Hin as [?|Hin]; [done|].
    by apply elem_of_nil in Hin.
Defined.

(** ** The city code *)

Lemma upper_char_not_lower (c : ascii) : islower_char (upper_char c) = false.
Proof. by destruct c as [[] [] [] [] [] [] [] []]. Qed.

Lemma upper_not_lower (s : string) :
  all_chars (fun c => negb (islower_char c)) (upper s) = true.
Proof.
  induction s as [|c s IH]; [done|]. cbn [upper all_chars].
  by rewrite upper_char_not_lower, IH.
Qed.

Lemma upper_app (s t : string) : upper (s +:+ t) = upper s +:+ upper t.
Proof.
  induction s as [|c s IH]; [done|].
  change (upper (String c (s +:+ t)) = String (upper_char c) (upper s +:+ upper t)).
  cbn [upper]. by rewrite IH.
Qed.

Lemma str_take_app (n : nat) (s t : string) :
  (String.length s <= n)%nat ->
  str_take n (s +:+ t) = s +:+ str_take (n - String.length s) t.
Proof.
  revert n. induction s as [|c s IH]; intros n Hn.
  - cbn. by rewrite Nat.sub_0_r.
  - destruct n as [|n]; [cbn in Hn; lia|].
    change (str_take (S n) (String c (s +:+ t))
            = String c (s +:+ str_take (S n - String.length (String c s)) t)).
    cbn [str_take String.length Nat.sub]. rewrite IH by (cbn in Hn; lia). done.
Qed.

Lemma str_take_all (n : nat) (s : string) : (String.length s <= n)%nat -> str_take n s = s.
Proof.
  revert n. induction s as [|c s IH]; intros [|n] Hn; try done; [cbn in Hn; lia|].
  cbn [str_take]. rewrite IH; [done|cbn in Hn; lia].
Qed.

Lemma all_chars_lstrip (p : ascii -> bool) (s : string) :
  all_chars p s = true -> all_chars p (lstrip s) = true.
Proof.
  induction s as [|c s IH]; [done|]. cbn [lstrip]. destruct (isspace c); [|done].
  cbn [all_chars]. rewrite andb_true_iff. intros [_ Hs]. by apply IH.
Qed.

Lemma all_chars_rstrip (p : ascii -> bool) (s : string) :
  all_chars p s = true -> all_chars p (rstrip s) = true.
Proof.
  induction s as [|c s IH]; [done|]. cbn [all_chars rstrip].
  rewrite andb_true_iff. intros [Hc Hs]. specialize (IH Hs).
  destruct (rstrip s) as [|d r].
  - destruct (isspace c); [done|]. cbn [all_chars]. by rewrite Hc.
  - cbn [all_chars] in *. by rewrite Hc, IH.
Qed.

Lemma all_chars_str_take (p : ascii -> bool) (n : nat) (s : string) :
  all_chars p s = true -> all_chars p (str_take n s) = true.
Proof.
  revert s. induction n as [|n IH]; intros [|c s]; try done.
  cbn [all_chars str_take]. rewrite !andb_true_iff. intros [Hc Hs]. by auto.
Qed.

Lemma all_chars_split_go (p : ascii -> bool) (sep : string) (skip : nat) (cur s : string) :
  all_chars p cur = true -> all_chars p s = true ->
  Forall (fun w => all_chars p w = true) (split_go sep skip cur s).
Proof.
  revert skip cur. induction s as [|c s IH]; intros skip cur Hcur Hs.
  - cbn [split_go]. constructor; [|done].
    unfold String.rev. by rewrite all_chars_rev_app, Hcur.
  - cbn [all_chars] in Hs. apply andb_true_iff in Hs as [Hc Hs].
    cbn [split_go]. destruct skip as [|k]; [|by apply IH].
    destruct (String.prefix sep (String c s)).
    + constructor; [|by apply IH].
      unfold String.rev. by rewrite all_chars_rev_app, Hcur.
    + apply IH; [|done]. cbn [all_chars]. by rewrite Hc, Hcur.
Qed.

Lemma all_chars_city_name (p : ascii -> bool) (city_field : string) :
  all_chars p city_field = true -> all_chars p (city_name city_field) = true.
Proof.
  intros H. unfold city_name, strip, split.
  apply all_chars_rstrip, all_chars_lstrip.
  pose proof (all_chars_split_go p "," 0 "" city_field eq_refl H) as HF.
  destruct HF as [|w ws Hw _]; [done|exact Hw].
Qed.

Lemma upper_ascii (s : string) :
  all_chars isascii_char s = true -> all_chars isascii_char (upper s) = true.
Proof.
  induction s as [|c s IH]; [done|]. cbn [all_chars upper].
  rewrite !andb_true_iff. intros [Hc Hs]. split; [|by apply IH].
  revert Hc. by destruct c as [[] [] [] [] [] [] [] []].
Qed.

(** For a city field of ASCII text, the city code used in channel names has
    exactly three characters, all of them ASCII and none a lower-case
    letter: the first three characters of the city (the text in front of
    the first comma, stripped) in upper case, followed by as many ["X"] as
    are missing when the city is shorter. *)
Theorem city_abbr_shape (city_field : string) :
  all_chars isascii_char city_field = true ->
  let city := city_name city_field in
  len (city_abbr_of city_field) = 3
  /\ all_chars isascii_char (city_abbr_of city_field) = true
  /\ all_chars (fun c => negb (islower_char c)) (city_abbr_of city_field) = true
  /\ city_abbr_of city_field
     = upper (slice_to 3 city) +:+ str_take (Z.to_nat (3 - len city)) "XXX".
Proof.
  intros Hascii city. split; [apply len_city_abbr_of|].
  pose proof (all_chars_city_name _ _ Hascii) as Hcity. fold city in Hcity.
  unfold city_abbr_of. fold city.
  destruct (Z.leb_spec 3 (len city)) as [H|H].
  - split; [by apply upper_ascii, all_chars_str_take|].
    split; [apply upper_not_lower|].
    replace (Z.to_nat (3 - len city)) with 0%nat by lia.
    cbn [str_take]. by rewrite app_nil_r_str.
  - split.
    { apply upper_ascii. unfold slice_to. cbn [Z.leb]. apply all_chars_str_take.
      by rewrite all_chars_app, Hcity. }
    split; [apply upper_not_lower|].
    pose proof (len_nonneg city) as H0. unfold len in *.
    unfold slice_to. destruct (Z.leb_spec 0 3); [|lia].
    rewrite str_take_app by lia. rewrite upper_app.
    rewrite (str_take_all _ city) by lia. f_equal.
    replace (Z.to_nat (3 - Z.of_nat (String.length city)))
      with (Z.to_nat 3 - String.length city)%nat by lia.
    generalize (Z.to_nat 3 - String.length city)%nat. intros [|[|[|[|n]]]]; done.
Qed.

Lemma city_abbr_shape_witness :
  city_abbr_of " la , CA" = "LAX"
  /\ len (city_abbr_of " la , CA") = 3
  /\ all_chars isascii_char (city_abbr_of " la , CA") = true.
Proof.
  split; [reflexivity|].
  destruct (city_abbr_shape " la , CA" eq_refl) as (H1 & H2 & _).
  split; [exact H1|exact H2].
Defined.

(** ** Numbering of the rows added to the talkgroups table *)

Lemma foldl_new_rows_numbers (talkgroup_name : string -> option string)
    (rows : list (list string)) (l : list Z) (new : list (list string)) :
  col 0 <$> new
  = (fun k : nat => str_of_Z (Z.of_nat (length rows + k))) <$> seq 0 (length new) ->
  let new' := foldl (new_rows_step talkgroup_name rows) new l in
  col 0 <$> new'
  = (fun k : nat => str_of_Z (Z.of_nat (length rows + k))) <$> seq 0 (length new').
Proof.
  revert new. induction l as [|tg l IH]; intros new Hnew; cbn [foldl]; [done|].
  apply IH. unfold new_rows_step.
  destruct (negb _ && negb _); [|done].
  rewrite fmap_app, length_app, seq_app, fmap_app, Hnew. done.
Qed.

(** The rows appended to [talkgroups.csv] are numbered consecutively from
    the number of rows the file had (its header included), and each has the
    five cells No., Radio ID, Name, Call Type, Call Alert. *)
Theorem new_rows_numbered (talkgroup_name : string -> option string)
    (rows : list (list string)) (u : gset Z) :
  let new := new_rows talkgroup_name rows u in
  col 0 <$> new
  = (fun k : nat => str_of_Z (Z.of_nat (length rows + k))) <$> seq 0 (length new)
  /\ Forall (fun row => length row = 5%nat /\ col 3 row = "Group Call" /\ col 4 row = "None")
            new.
Proof.
  split.
  - by apply (foldl_new_rows_numbers talkgroup_name rows _ []).
  - pose proof (new_rows_rows talkgroup_name rows u) as HF.
    induction HF as [|row tg new l [no ->] _ IH]; by constructor.
Qed.
